(** * Elevator dispatch and movement engine

    A shallow embedding of the elevator service of this repository:
    the queue-based [ElevatorService] (call acceptance, dispatch scoring,
    per-elevator stop queues and the timer-driven movement engine) together
    with the [DatabaseManager] operations it calls, and the dispatch and
    estimation functions of [src/services/ElevatorService.ts].

    Conventions of the embedding.
    - Floors of rows, queues and events are integers ([Z]), on which the
      arithmetic of JavaScript numbers is exact (below 2^53).  The
      configured durations and the estimates computed from them are
      JavaScript numbers: IEEE 754 binary64 values ([float], the primitive
      floats), with the rounding of every operation.
    - The movement engine and the statements about it take requests with
      integer floors ([ElevatorRequest]).  The floors that reach
      [callElevator] from the handler of POST /call are integers or NaN:
      module [Js] embeds [callElevator] on those, and on integer floors it
      is [Queued.callElevator].
    - [null] is [None]: [targetFloor] is [option Z] ([Some 0] is the value
      written by the idle reset), [direction] is [option Direction].
    - The SQLite table [elevators] is the list of its rows in table order;
      [query_logs] keeps the [source] column of every logged query and
      [elevator_logs] every event row.  Timestamps ([lastUpdated],
      [timestamp]) and the WebSocket broadcasts are left out.
    - [floorQueues] is a finite map from elevator id to the array of
      pending floors, [activeMovements] the set of its keys.
    - The asynchronous functions [moveElevator] and [handleArrival] are cut
      at the persisted writes: a continuation ([Cont]) stands for the part
      of a tick chain that is waiting to run, and one [resume] runs it up
      to and including its next [updateElevator] and the event it logs.
      Accepting a call is one step as well (one [updateElevator]); the
      [moveElevator()] it starts is left pending.  Every state the engine
      persists is therefore a state of the model, and calls and the chains
      of all elevators interleave step by step.
    - The status and log accessors, [updateBuildingConfig] and
      [stopAllMovements] are not part of the executions considered. *)

From Stdlib Require Import ZArith QArith Lia Floats.
From stdpp Require Import base option list gmap strings.

Local Open Scope Z_scope.

(** ** Data model ([utils/types]) *)

Inductive MotionState : Set :=
  | idle
  | moving_up
  | moving_down
  | doors_opening
  | doors_closing
  | doors_open.

Inductive Direction : Set := up | down.

Record Elevator : Set := mkElevator {
  id : string;
  currentFloor : Z;
  targetFloor : option Z;
  state : MotionState;
  direction : option Direction;
  isMoving : bool
}.

(** The [details] column is a template string over a floor number or the
    request; it is kept as the template and its arguments. *)
Inductive Details : Set :=
  | CalledFromToBy (fromFloor toFloor : Z) (requestedBy : string)
      (* `Elevator called from floor ${fromFloor} to floor ${toFloor} by ${requestedBy}` *)
  | MovedToFloor (floor : Z)          (* `Elevator moved to floor ${newFloor}` *)
  | DoorsOpeningAt (floor : Z)        (* `Doors opening at floor ${currentFloor}` *)
  | DoorsOpenAt (floor : Z)           (* `Doors open at floor ${currentFloor}` *)
  | DoorsClosingAt (floor : Z)        (* `Doors closing at floor ${currentFloor}` *)
  | IdleAt (floor : Z)                (* `Elevator idle at floor ${currentFloor}` *)
  | InvalidFloorBoundary.             (* `Elevator stopped at invalid floor boundary` *)

Record ElevatorLog : Set := mkElevatorLog {
  elevatorId : string;
  event : string;
  log_fromFloor : Z;
  log_toFloor : Z;
  log_state : MotionState;
  log_direction : option Direction;
  details : Details
}.

Record BuildingConfig : Set := mkBuildingConfig {
  totalFloors : Z;
  floorMoveTime : float;      (* seconds *)
  doorOpenCloseTime : float   (* seconds *)
}.

(** The JavaScript number of an integer: the binary64 value nearest to it,
    which is the integer itself below 2^53. *)
Definition Number_of_Z (z : Z) : float :=
  SF2Prim (binary_normalize prec emax z 0 false).

(** A request with integer floors; [Js.ElevatorRequest] below is the
    request whose floors may be NaN. *)
Record ElevatorRequest : Set := mkElevatorRequest {
  fromFloor : Z;
  toFloor : Z;
  requestedBy : option string
}.

#[global] Instance MotionState_eq_dec : EqDecision MotionState.
Proof. solve_decision. Defined.

#[global] Instance Direction_eq_dec : EqDecision Direction.
Proof. solve_decision. Defined.

(** [elevator.state === "moving_up" || ... "moving_down"] *)
Definition is_moving_state (s : MotionState) : bool :=
  match s with moving_up | moving_down => true | _ => false end.

Definition is_door_phase (s : MotionState) : bool :=
  match s with doors_opening | doors_open | doors_closing => true | _ => false end.

(** JavaScript truthiness of [elevator.targetFloor] ([null] and [0] are falsy). *)
Definition truthy_floor (t : option Z) : bool :=
  match t with
  | Some n => negb (n =? 0)
  | None => false
  end.

(** [elevator.currentFloor === elevator.targetFloor] *)
Definition at_target (e : Elevator) : bool :=
  match targetFloor e with
  | Some t => currentFloor e =? t
  | None => false
  end.

(** [elevator.currentFloor < elevator.targetFloor ? "up" : "down"] *)
Definition direction_towards (cur : Z) (target : option Z) : Direction :=
  match target with
  | Some t => if cur <? t then up else down
  | None => down
  end.

(** ** The store ([DatabaseManager]) *)

Record Db : Type := mkDb {
  elevators : list Elevator;
  elevator_logs : list ElevatorLog;
  query_logs : list string
}.

Definition logQuery (source : string) (d : Db) : Db :=
  mkDb (elevators d) (elevator_logs d) (query_logs d ++ [source]).

Definition getAllElevators (d : Db) : Db * list Elevator :=
  (logQuery "getAllElevators" d, elevators d).

Fixpoint select_by_id (i : string) (rows : list Elevator) : option Elevator :=
  match rows with
  | [] => None
  | r :: rows' => if String.eqb (id r) i then Some r else select_by_id i rows'
  end.

Definition getElevator (i : string) (d : Db) : Db * option Elevator :=
  (logQuery "getElevator" d, select_by_id i (elevators d)).

(** [UPDATE elevators SET ... WHERE id = ?]: every row with that id takes
    the fields of [e]; the order of the rows is untouched. *)
Definition update_rows (e : Elevator) (rows : list Elevator) : list Elevator :=
  map (fun r => if String.eqb (id r) (id e) then e else r) rows.

Definition updateElevator (e : Elevator) (d : Db) : Db :=
  let d := logQuery "updateElevator" d in
  mkDb (update_rows e (elevators d)) (elevator_logs d) (query_logs d).

Definition logElevatorEvent (l : ElevatorLog) (d : Db) : Db :=
  mkDb (elevators d) (elevator_logs d ++ [l]) (query_logs d).

(** [initializeDefaultElevators] *)
Definition default_elevator (i : string) : Elevator :=
  mkElevator i 1 None idle None false.

Definition initializeDefaultElevators : list Elevator :=
  map default_elevator
    ["elevator-1"; "elevator-2"; "elevator-3"; "elevator-4"; "elevator-5"]%string.

(** ** Errors thrown by the service *)

Inductive ServiceError : Set :=
  | InvalidFloor (total : Z)
      (* Error(`Invalid floor. Building has ${totalFloors} floors.`) *)
  | SameFloor
      (* Error("From floor and to floor cannot be the same.") *)
  | UndefinedElevator.
      (* TypeError: scoredElevators[0] is undefined *)

(** ** Dispatch scoring shared shape: a scored entry and the stable sort

    [Array.prototype.sort] is stable; with the comparator
    [(a, b) => a.score - b.score] on integer scores its result is the
    stable ascending order, which insertion from the right computes. *)

Record Scored : Set := mkScored { elevator : Elevator; score : Z }.

Fixpoint sort_insert (cmp : Scored -> Scored -> Z) (x : Scored) (l : list Scored)
  : list Scored :=
  match l with
  | [] => [x]
  | y :: l' => if cmp x y <=? 0 then x :: y :: l' else y :: sort_insert cmp x l'
  end.

Definition Array_sort (cmp : Scored -> Scored -> Z) (l : list Scored) : list Scored :=
  foldr (sort_insert cmp) [] l.

Definition by_score (a b : Scored) : Z := score a - score b.

(** ** [src/services/ElevatorService.ts] (the service without stop queues) *)

Module Simple.

Definition score_elevator (fromFloor : Z) (elevator : Elevator) : Scored :=
  let score := 0 in
  let distance := Z.abs (currentFloor elevator - fromFloor) in
  let score := score + distance * 10 in
  let score := if decide (state elevator = idle) then score - 50 else score in
  let score :=
    match isMoving elevator, direction elevator with
    | true, Some dir =>
        let isMovingTowards :=
          (bool_decide (dir = up) && (fromFloor >? currentFloor elevator))
          || (bool_decide (dir = down) && (fromFloor <? currentFloor elevator)) in
        if isMovingTowards then score - 20 else score + 30
    | _, _ => score
    end in
  mkScored elevator score.

Definition findBestElevator (fromFloor toFloor : Z) (d : Db)
  : Db * (ServiceError + Elevator) :=
  let '(d, elevators) := getAllElevators d in
  let scoredElevators := map (score_elevator fromFloor) elevators in
  let scoredElevators := Array_sort by_score scoredElevators in
  match scoredElevators with
  | best :: _ => (d, inr (elevator best))
  | [] => (d, inl UndefinedElevator)
  end.

Definition calculateEstimatedTime (config : BuildingConfig) (elevator : Elevator)
  (fromFloor toFloor : Z) : float :=
  let currentFloor := currentFloor elevator in
  let floorsToMove := Z.abs (currentFloor - fromFloor) + Z.abs (fromFloor - toFloor) in
  let timeToMove := (Number_of_Z floorsToMove * floorMoveTime config)%float in
  let doorTime := (doorOpenCloseTime config * 2)%float in
  (timeToMove + doorTime)%float.

(** The rest of this service: it keeps no stop queue, a call overwrites the
    target of the chosen elevator with the destination floor, and its
    [moveElevator] has no boundary check.  Tick chains are cut at the
    persisted writes as for the queue-based service. *)
Inductive Cont : Set :=
  | MoveElevator (elevatorId : string)
  | DoorsOpening (elevator : Elevator)
  | DoorsOpen (elevator : Elevator)
  | DoorsClosing (elevator : Elevator)
  | Arrived (elevatorId : string).
      (* [handleArrival] has returned; [moveElevator] resumes at
         [this.activeMovements.delete(elevatorId)] *)

Record Service : Type := mkService {
  db : Db;
  config : BuildingConfig;
  activeMovements : gset string;
  timers : list Cont
}.

Definition with_db (f : Db -> Db) (s : Service) : Service :=
  mkService (f (db s)) (config s) (activeMovements s) (timers s).

Definition activeMovements_delete (i : string) (s : Service) : Service :=
  mkService (db s) (config s) (activeMovements s ∖ {[i]}) (timers s).

Definition activeMovements_set (i : string) (s : Service) : Service :=
  mkService (db s) (config s) ({[i]} ∪ activeMovements s) (timers s).

Definition suspend (k : Cont) (s : Service) : Service :=
  mkService (db s) (config s) (activeMovements s) (timers s ++ [k]).

Definition startElevatorMovement (elevatorId : string) (s : Service) : Service :=
  if decide (elevatorId ∈ activeMovements s) then s
  else suspend (MoveElevator elevatorId) s.

Record CallResult : Set := mkCallResult { res_elevatorId : string; estimatedTime : float }.

Definition callElevator (request : ElevatorRequest) (s : Service)
  : Service * (ServiceError + CallResult) :=
  let fromFloor := fromFloor request in
  let toFloor := toFloor request in
  let requestedBy :=
    match requestedBy request with Some u => u | None => "anonymous"%string end in
  if (fromFloor <? 1) || (fromFloor >? totalFloors (config s))
     || (toFloor <? 1) || (toFloor >? totalFloors (config s))
  then (s, inl (InvalidFloor (totalFloors (config s))))
  else if fromFloor =? toFloor then (s, inl SameFloor)
  else
    let '(d, found) := findBestElevator fromFloor toFloor (db s) in
    let s := with_db (fun _ => d) s in
    match found with
    | inl err => (s, inl err)
    | inr bestElevator =>
        let bestElevator :=
          mkElevator (id bestElevator) (currentFloor bestElevator) (Some toFloor)
            (state bestElevator)
            (Some (if fromFloor >? toFloor then down else up))
            (isMoving bestElevator) in
        let s := with_db (updateElevator bestElevator) s in
        let s :=
          with_db (logElevatorEvent
                     (mkElevatorLog (id bestElevator) "elevator_called" fromFloor toFloor
                        (state bestElevator) (direction bestElevator)
                        (CalledFromToBy fromFloor toFloor requestedBy))) s in
        let s := if negb (isMoving bestElevator)
                 then startElevatorMovement (id bestElevator) s else s in
        let estimatedTime :=
          calculateEstimatedTime (config s) bestElevator fromFloor toFloor in
        (s, inr (mkCallResult (id bestElevator) estimatedTime))
    end.

Definition with_state (st : MotionState) (e : Elevator) : Elevator :=
  mkElevator (id e) (currentFloor e) (targetFloor e) st (direction e) (isMoving e).

Definition door_log (ev : string) (d : Z -> Details) (e : Elevator) : ElevatorLog :=
  mkElevatorLog (id e) ev (currentFloor e) (currentFloor e) (state e) (direction e)
    (d (currentFloor e)).

Definition handleArrival_opening (elevator : Elevator) (s : Service) : Service :=
  let elevator := with_state doors_opening elevator in
  let s := with_db (updateElevator elevator) s in
  let s := with_db (logElevatorEvent (door_log "doors_opening" DoorsOpeningAt elevator)) s in
  suspend (DoorsOpening elevator) s.

Definition handleArrival_open (elevator : Elevator) (s : Service) : Service :=
  let elevator := with_state doors_open elevator in
  let s := with_db (updateElevator elevator) s in
  let s := with_db (logElevatorEvent (door_log "doors_open" DoorsOpenAt elevator)) s in
  suspend (DoorsOpen elevator) s.

Definition handleArrival_closing (elevator : Elevator) (s : Service) : Service :=
  let elevator := with_state doors_closing elevator in
  let s := with_db (updateElevator elevator) s in
  let s := with_db (logElevatorEvent (door_log "doors_closing" DoorsClosingAt elevator)) s in
  suspend (DoorsClosing elevator) s.

Definition handleArrival_idle (elevator : Elevator) (s : Service) : Service :=
  let elevator :=
    mkElevator (id elevator) (currentFloor elevator) (Some 0) idle None false in
  let s := with_db (updateElevator elevator) s in
  let s := with_db (logElevatorEvent (door_log "elevator_idle" IdleAt elevator)) s in
  suspend (Arrived (id elevator)) s.

Definition moveElevator (elevatorId : string) (s : Service) : Service :=
  let '(d, found) := getElevator elevatorId (db s) in
  let s := with_db (fun _ => d) s in
  match found with
  | None => activeMovements_delete elevatorId s
  | Some elevator =>
      if negb (truthy_floor (targetFloor elevator))
      then activeMovements_delete elevatorId s
      else if at_target elevator then handleArrival_opening elevator s
      else
        let newFloor :=
          if decide (direction elevator = Some up)
          then currentFloor elevator + 1 else currentFloor elevator - 1 in
        let elevator :=
          mkElevator (id elevator) newFloor (targetFloor elevator)
            (if decide (direction elevator = Some up) then moving_up else moving_down)
            (direction elevator) true in
        let s := with_db (updateElevator elevator) s in
        let s :=
          with_db (logElevatorEvent
                     (mkElevatorLog (id elevator) "floor_reached"
                        (if decide (direction elevator = Some up)
                         then newFloor - 1 else newFloor + 1)
                        newFloor (state elevator) (direction elevator)
                        (MovedToFloor newFloor))) s in
        suspend (MoveElevator elevatorId) (activeMovements_set elevatorId s)
  end.

Definition resume (k : Cont) (s : Service) : Service :=
  match k with
  | MoveElevator elevatorId => moveElevator elevatorId s
  | DoorsOpening elevator => handleArrival_open elevator s
  | DoorsOpen elevator => handleArrival_closing elevator s
  | DoorsClosing elevator => handleArrival_idle elevator s
  | Arrived elevatorId => activeMovements_delete elevatorId s
  end.

Definition fire (i : nat) (s : Service) : Service :=
  match timers s !! i with
  | Some k =>
      resume k (mkService (db s) (config s) (activeMovements s) (delete i (timers s)))
  | None => s
  end.

(** [n] firings of the first pending continuation. *)
Fixpoint ticks (n : nat) (s : Service) : Service :=
  match n with
  | O => s
  | S n' => ticks n' (fire 0 s)
  end.

End Simple.

(** ** The queue-based service (call acceptance, stop queues, movement engine) *)

Module Queued.

Definition score_elevator (fromFloor : Z) (elevator : Elevator) : Scored :=
  let score := 0 in
  let distance := Z.abs (currentFloor elevator - fromFloor) in
  let score := score + distance * 10 in
  let score := if decide (state elevator = idle) then score - 50 else score in
  let score :=
    match isMoving elevator, direction elevator with
    | true, Some dir =>
        let isMovingTowards :=
          (bool_decide (dir = up) && (fromFloor >? currentFloor elevator))
          || (bool_decide (dir = down) && (fromFloor <? currentFloor elevator)) in
        if isMovingTowards then score - 20 else score + 30
    | _, _ => score
    end in
  mkScored elevator score.

Definition findBestElevator (fromFloor toFloor : Z) (d : Db)
  : Db * (ServiceError + Elevator) :=
  let '(d, elevators) := getAllElevators d in
  let scoredElevators := map (score_elevator fromFloor) elevators in
  let scoredElevators := Array_sort by_score scoredElevators in
  match scoredElevators with
  | best :: _ => (d, inr (elevator best))
  | [] => (d, inl UndefinedElevator)
  end.

Definition calculateEstimatedTime (config : BuildingConfig) (elevator : Elevator)
  (fromFloor toFloor : Z) : float :=
  let currentFloor := currentFloor elevator in
  let floorsToMove := Z.abs (currentFloor - fromFloor) + Z.abs (fromFloor - toFloor) in
  let timeToMove := (Number_of_Z floorsToMove * floorMoveTime config)%float in
  let doorTime := (doorOpenCloseTime config * 2)%float in
  (timeToMove + doorTime)%float.

(** What is left to run of one tick chain.  The elevator object that
    [handleArrival] mutates lives in the continuation between two door
    phases; [getElevator] returns a fresh object on every tick. *)
Inductive Cont : Set :=
  | MoveElevator (elevatorId : string)
      (* [moveElevator] is about to run: just started, or its
         [setTimeout(moveElevator, floorMoveTime * 1000)] is pending *)
  | DoorsOpening (elevator : Elevator)
      (* [handleArrival], waiting [doorOpenCloseTime] after "doors_opening" *)
  | DoorsOpen (elevator : Elevator)
      (* [handleArrival], waiting 2000 ms after "doors_open" *)
  | DoorsClosing (elevator : Elevator)
      (* [handleArrival], waiting [doorOpenCloseTime] after "doors_closing" *)
  | Arrived (elevator : Elevator).
      (* [handleArrival] has written the idle reset and returns to
         [moveElevator], which resumes at [queue.shift()] *)

Record Service : Type := mkService {
  db : Db;
  config : BuildingConfig;
  activeMovements : gset string;
  floorQueues : gmap string (list Z);
  timers : list Cont
}.

(** [new ElevatorService(db, config)] *)
Definition new_ElevatorService (d : Db) (config : BuildingConfig) : Service :=
  mkService d config ∅ ∅ [].

Definition with_db (f : Db -> Db) (s : Service) : Service :=
  mkService (f (db s)) (config s) (activeMovements s) (floorQueues s) (timers s).

Definition activeMovements_delete (i : string) (s : Service) : Service :=
  mkService (db s) (config s) (activeMovements s ∖ {[i]}) (floorQueues s) (timers s).

Definition activeMovements_set (i : string) (s : Service) : Service :=
  mkService (db s) (config s) ({[i]} ∪ activeMovements s) (floorQueues s) (timers s).

Definition floorQueues_put (i : string) (q : list Z) (s : Service) : Service :=
  mkService (db s) (config s) (activeMovements s) (<[i:=q]> (floorQueues s)) (timers s).

Definition suspend (k : Cont) (s : Service) : Service :=
  mkService (db s) (config s) (activeMovements s) (floorQueues s) (timers s ++ [k]).

(** [startElevatorMovement]: a no-op when the id has a scheduled tick,
    otherwise [moveElevator()] is started. *)
Definition startElevatorMovement (elevatorId : string) (s : Service) : Service :=
  if decide (elevatorId ∈ activeMovements s) then s
  else suspend (MoveElevator elevatorId) s.

Record CallResult : Set := mkCallResult { res_elevatorId : string; estimatedTime : float }.

Definition anonymous (r : option string) : string :=
  match r with Some u => u | None => "anonymous"%string end.

(** The legs a call appends to the queue of the chosen elevator. *)
Definition call_legs (current fromFloor toFloor : Z) : list Z :=
  (if negb (current =? fromFloor) then [fromFloor] else []) ++ [toFloor].

Definition callElevator (request : ElevatorRequest) (s : Service)
  : Service * (ServiceError + CallResult) :=
  let fromFloor := fromFloor request in
  let toFloor := toFloor request in
  let requestedBy := anonymous (requestedBy request) in
  if (fromFloor <? 1) || (fromFloor >? totalFloors (config s))
     || (toFloor <? 1) || (toFloor >? totalFloors (config s))
  then (s, inl (InvalidFloor (totalFloors (config s))))
  else if fromFloor =? toFloor then (s, inl SameFloor)
  else
    let '(d, found) := findBestElevator fromFloor toFloor (db s) in
    let s := with_db (fun _ => d) s in
    match found with
    | inl err => (s, inl err)
    | inr bestElevator =>
        let queue := default [] (floorQueues s !! id bestElevator) in
        let queue := queue ++ call_legs (currentFloor bestElevator) fromFloor toFloor in
        let s := floorQueues_put (id bestElevator) queue s in
        let target := head queue in
        let bestElevator :=
          mkElevator (id bestElevator) (currentFloor bestElevator) target
            (state bestElevator)
            (Some (direction_towards (currentFloor bestElevator) target))
            (isMoving bestElevator) in
        let s := with_db (updateElevator bestElevator) s in
        let logEntry :=
          mkElevatorLog (id bestElevator) "elevator_called" fromFloor toFloor
            (state bestElevator) (direction bestElevator)
            (CalledFromToBy fromFloor toFloor requestedBy) in
        let s := with_db (logElevatorEvent logEntry) s in
        let s := if negb (isMoving bestElevator)
                 then startElevatorMovement (id bestElevator) s else s in
        let estimatedTime :=
          calculateEstimatedTime (config s) bestElevator fromFloor toFloor in
        (s, inr (mkCallResult (id bestElevator) estimatedTime))
    end.

(** [handleArrival], one door phase at a time. *)
Definition with_state (st : MotionState) (e : Elevator) : Elevator :=
  mkElevator (id e) (currentFloor e) (targetFloor e) st (direction e) (isMoving e).

Definition door_log (ev : string) (d : Z -> Details) (e : Elevator) : ElevatorLog :=
  mkElevatorLog (id e) ev (currentFloor e) (currentFloor e) (state e) (direction e)
    (d (currentFloor e)).

Definition handleArrival_opening (elevator : Elevator) (s : Service) : Service :=
  let elevator := with_state doors_opening elevator in
  let s := with_db (updateElevator elevator) s in
  let s := with_db (logElevatorEvent (door_log "doors_opening" DoorsOpeningAt elevator)) s in
  suspend (DoorsOpening elevator) s.

Definition handleArrival_open (elevator : Elevator) (s : Service) : Service :=
  let elevator := with_state doors_open elevator in
  let s := with_db (updateElevator elevator) s in
  let s := with_db (logElevatorEvent (door_log "doors_open" DoorsOpenAt elevator)) s in
  suspend (DoorsOpen elevator) s.

Definition handleArrival_closing (elevator : Elevator) (s : Service) : Service :=
  let elevator := with_state doors_closing elevator in
  let s := with_db (updateElevator elevator) s in
  let s := with_db (logElevatorEvent (door_log "doors_closing" DoorsClosingAt elevator)) s in
  suspend (DoorsClosing elevator) s.

Definition handleArrival_idle (elevator : Elevator) (s : Service) : Service :=
  let elevator :=
    mkElevator (id elevator) (currentFloor elevator) (Some 0) idle None false in
  let s := with_db (updateElevator elevator) s in
  let s := with_db (logElevatorEvent (door_log "elevator_idle" IdleAt elevator)) s in
  suspend (Arrived elevator) s.

(** [moveElevator] after [await this.handleArrival(elevator)]: pop the
    served floor and either promote the next one or end the chain. *)
Definition moveElevator_continue (elevator : Elevator) (s : Service) : Service :=
  let elevatorId := id elevator in
  let '(queue, s) :=
    match floorQueues s !! elevatorId with
    | Some q => (tail q, floorQueues_put elevatorId (tail q) s)
    | None => ([], s)
    end in
  match queue with
  | next :: _ =>
      let elevator :=
        mkElevator (id elevator) (currentFloor elevator) (Some next) idle
          (Some (direction_towards (currentFloor elevator) (Some next))) false in
      let s := with_db (updateElevator elevator) s in
      let s := activeMovements_delete elevatorId s in
      startElevatorMovement elevatorId s
  | [] => activeMovements_delete elevatorId s
  end.

Definition moveElevator (elevatorId : string) (s : Service) : Service :=
  let '(d, found) := getElevator elevatorId (db s) in
  let s := with_db (fun _ => d) s in
  match found with
  | None => activeMovements_delete elevatorId s
  | Some elevator =>
      if negb (truthy_floor (targetFloor elevator))
      then activeMovements_delete elevatorId s
      else if at_target elevator then handleArrival_opening elevator s
      else
        let newFloor :=
          if decide (direction elevator = Some up)
          then currentFloor elevator + 1 else currentFloor elevator - 1 in
        if (newFloor <? 1) || (newFloor >? totalFloors (config s))
        then
          let elevator :=
            mkElevator (id elevator) (currentFloor elevator) (Some 1) idle None false in
          let s := with_db (updateElevator elevator) s in
          let s := activeMovements_delete elevatorId s in
          with_db (logElevatorEvent
                     (mkElevatorLog (id elevator) "elevator_idle"
                        (currentFloor elevator) (currentFloor elevator)
                        (state elevator) (direction elevator) InvalidFloorBoundary)) s
        else
          let elevator :=
            mkElevator (id elevator) newFloor (targetFloor elevator)
              (if decide (direction elevator = Some up) then moving_up else moving_down)
              (direction elevator) true in
          let s := with_db (updateElevator elevator) s in
          let logEntry :=
            mkElevatorLog (id elevator) "floor_reached"
              (if decide (direction elevator = Some up) then newFloor - 1 else newFloor + 1)
              newFloor (state elevator) (direction elevator) (MovedToFloor newFloor) in
          let s := with_db (logElevatorEvent logEntry) s in
          suspend (MoveElevator elevatorId) (activeMovements_set elevatorId s)
  end.

(** Running one continuation up to its next wait. *)
Definition resume (k : Cont) (s : Service) : Service :=
  match k with
  | MoveElevator elevatorId => moveElevator elevatorId s
  | DoorsOpening elevator => handleArrival_open elevator s
  | DoorsOpen elevator => handleArrival_closing elevator s
  | DoorsClosing elevator => handleArrival_idle elevator s
  | Arrived elevator => moveElevator_continue elevator s
  end.

(** The [i]-th pending continuation fires. *)
Definition fire (i : nat) (s : Service) : Service :=
  match timers s !! i with
  | Some k =>
      resume k (mkService (db s) (config s) (activeMovements s) (floorQueues s)
                  (delete i (timers s)))
  | None => s
  end.

(** What can happen to a running service: a call arrives, or a pending
    continuation fires.  The configuration stays as it is and
    [stopAllMovements] is not called. *)
Inductive Action : Set :=
  | Call (request : ElevatorRequest)
  | Fire (i : nat).

Definition perform (a : Action) (s : Service) : Service :=
  match a with
  | Call request => fst (callElevator request s)
  | Fire i => fire i s
  end.

Definition run (acts : list Action) (s : Service) : Service :=
  foldl (fun s a => perform a s) s acts.

(** [getElevatorStatus(elevatorId?)]: the argument is tested for
    truthiness, so the empty string asks for the whole fleet like a
    missing argument. *)
Inductive StatusError : Set :=
  | ElevatorNotFound (elevatorId : string).
      (* Error(`Elevator ${elevatorId} not found`) *)

Inductive Status : Set :=
  | OneElevator (elevator : Elevator)
  | AllElevators (elevators : list Elevator).

Definition getElevatorStatus (elevatorId : option string) (s : Service)
  : Service * (StatusError + Status) :=
  match elevatorId with
  | Some i =>
      if negb (String.eqb i "") then
        let '(d, found) := getElevator i (db s) in
        let s := with_db (fun _ => d) s in
        match found with
        | None => (s, inl (ElevatorNotFound i))
        | Some elevator => (s, inr (OneElevator elevator))
        end
      else
        let '(d, all) := getAllElevators (db s) in
        (with_db (fun _ => d) s, inr (AllElevators all))
  | None =>
      let '(d, all) := getAllElevators (db s) in
      (with_db (fun _ => d) s, inr (AllElevators all))
  end.

(** [Partial<BuildingConfig>] with numbers under the keys it has: [None]
    is an absent key. *)
Record PartialBuildingConfig : Set := mkPartialBuildingConfig {
  new_totalFloors : option Z;
  new_floorMoveTime : option float;
  new_doorOpenCloseTime : option float
}.

(** [this.config = { ...this.config, ...newConfig }] *)
Definition updateBuildingConfig (newConfig : PartialBuildingConfig) (s : Service)
  : Service :=
  mkService (db s)
    (mkBuildingConfig
       (default (totalFloors (config s)) (new_totalFloors newConfig))
       (default (floorMoveTime (config s)) (new_floorMoveTime newConfig))
       (default (doorOpenCloseTime (config s)) (new_doorOpenCloseTime newConfig)))
    (activeMovements s) (floorQueues s) (timers s).

Definition getBuildingConfig (s : Service) : BuildingConfig := config s.

(** [stopAllMovements]: [clearTimeout] on every timeout registered in
    [activeMovements], then [activeMovements] and [floorQueues] are
    cleared ([activeDoorOperations] is never written, so the waits of
    [handleArrival] are not cancelled, and a [moveElevator()] that
    [startElevatorMovement] has just started is not a timeout).  Timeout
    handles are not part of the state: the tick registered for an id is
    taken to be the pending [MoveElevator] of that id, which it is as long
    as the elevator has one chain. *)
Definition registered_tick (active : gset string) (k : Cont) : bool :=
  match k with
  | MoveElevator elevatorId => bool_decide (elevatorId ∈ active)
  | _ => false
  end.

Definition stopAllMovements (s : Service) : Service :=
  mkService (db s) (config s) ∅ ∅
    (List.filter (fun k => negb (registered_tick (activeMovements s) k)) (timers s)).

End Queued.

(** ** [callElevator] on JavaScript numbers

    The floors of a request are JavaScript numbers.  What reaches
    [callElevator] from the handler of POST /call is the result of
    [parseInt]: an integer, or NaN for a body value that does not start
    with digits.  Every comparison with NaN is false, so a NaN floor fails
    neither check of the validation; it is then pushed on the queue, used
    in the arithmetic of the score and of the estimate, and bound to the
    parameters of the SQL statements, where SQLite stores NULL for it.
    (A number with a fraction or an infinity does not come out of
    [parseInt]; the two checks compare it as they compare integers.)

    This module embeds [callElevator], its selector and its estimate on such
    floors.  The rows of the table and the pending continuations are those
    of [Queued]; queues and events hold numbers.  On integer floors it is
    [Queued.callElevator] (lemma [Js_callElevator_on_integers]); the
    movement engine is embedded on integer floors only. *)

Module Js.

Inductive Number : Set :=
  | Int (z : Z)
  | NaN.

(** [a < b], [a > b], [a === b]: false as soon as one side is NaN. *)
Definition lt (a b : Number) : bool :=
  match a, b with Int x, Int y => x <? y | _, _ => false end.

Definition gt (a b : Number) : bool :=
  match a, b with Int x, Int y => x >? y | _, _ => false end.

Definition strict_eq (a b : Number) : bool :=
  match a, b with Int x, Int y => x =? y | _, _ => false end.

(** [a + b], [a - b], [a * b], [Math.abs(a)]: NaN as soon as one argument is. *)
Definition add (a b : Number) : Number :=
  match a, b with Int x, Int y => Int (x + y) | _, _ => NaN end.

Definition sub (a b : Number) : Number :=
  match a, b with Int x, Int y => Int (x - y) | _, _ => NaN end.

Definition mul (a b : Number) : Number :=
  match a, b with Int x, Int y => Int (x * y) | _, _ => NaN end.

Definition Math_abs (a : Number) : Number :=
  match a with Int x => Int (Z.abs x) | NaN => NaN end.

(** The binary64 value of a number. *)
Definition to_float (a : Number) : float :=
  match a with Int x => Number_of_Z x | NaN => nan end.

(** What SQLite stores for a number bound to an [INTEGER] column: NULL for
    NaN. *)
Definition stored (a : Number) : option Z :=
  match a with Int x => Some x | NaN => None end.

Record ElevatorRequest : Set := mkElevatorRequest {
  fromFloor : Number;
  toFloor : Number;
  requestedBy : option string
}.

(** [Details] and [ElevatorLog] with numbers for floors. *)
Inductive Details : Set :=
  | CalledFromToBy (fromFloor toFloor : Number) (requestedBy : string)
  | MovedToFloor (floor : Number)
  | DoorsOpeningAt (floor : Number)
  | DoorsOpenAt (floor : Number)
  | DoorsClosingAt (floor : Number)
  | IdleAt (floor : Number)
  | InvalidFloorBoundary.

Record ElevatorLog : Set := mkElevatorLog {
  elevatorId : string;
  event : string;
  log_fromFloor : Number;
  log_toFloor : Number;
  log_state : MotionState;
  log_direction : option Direction;
  details : Details
}.

Record Db : Type := mkDb {
  elevators : list Elevator;
  elevator_logs : list ElevatorLog;
  query_logs : list string
}.

Definition logQuery (source : string) (d : Db) : Db :=
  mkDb (elevators d) (elevator_logs d) (query_logs d ++ [source]).

Definition getAllElevators (d : Db) : Db * list Elevator :=
  (logQuery "getAllElevators" d, elevators d).

Definition updateElevator (e : Elevator) (d : Db) : Db :=
  let d := logQuery "updateElevator" d in
  mkDb (update_rows e (elevators d)) (elevator_logs d) (query_logs d).

Definition logElevatorEvent (l : ElevatorLog) (d : Db) : Db :=
  mkDb (elevators d) (elevator_logs d ++ [l]) (query_logs d).

Record Service : Type := mkService {
  db : Db;
  config : BuildingConfig;
  activeMovements : gset string;
  floorQueues : gmap string (list Number);
  timers : list Queued.Cont
}.

Definition with_db (f : Db -> Db) (s : Service) : Service :=
  mkService (f (db s)) (config s) (activeMovements s) (floorQueues s) (timers s).

Definition floorQueues_put (i : string) (q : list Number) (s : Service) : Service :=
  mkService (db s) (config s) (activeMovements s) (<[i:=q]> (floorQueues s)) (timers s).

Definition suspend (k : Queued.Cont) (s : Service) : Service :=
  mkService (db s) (config s) (activeMovements s) (floorQueues s) (timers s ++ [k]).

Definition startElevatorMovement (elevatorId : string) (s : Service) : Service :=
  if decide (elevatorId ∈ activeMovements s) then s
  else suspend (Queued.MoveElevator elevatorId) s.

(** The scored entries and their sort.  [Array.prototype.sort] takes a
    comparator result of NaN for +0, so with NaN scores every pair compares
    equal and the stable sort leaves the order as it is. *)
Record Scored : Set := mkScored { elevator : Elevator; score : Number }.

Definition SortCompare (cmp : Scored -> Scored -> Number) (x y : Scored) : Z :=
  match cmp x y with Int v => v | NaN => 0 end.

Fixpoint sort_insert (cmp : Scored -> Scored -> Number) (x : Scored) (l : list Scored)
  : list Scored :=
  match l with
  | [] => [x]
  | y :: l' =>
      if SortCompare cmp x y <=? 0 then x :: y :: l' else y :: sort_insert cmp x l'
  end.

Definition Array_sort (cmp : Scored -> Scored -> Number) (l : list Scored)
  : list Scored :=
  foldr (sort_insert cmp) [] l.

Definition by_score (a b : Scored) : Number := sub (score a) (score b).

Definition score_elevator (fromFloor : Number) (elevator : Elevator) : Scored :=
  let score := Int 0 in
  let distance := Math_abs (sub (Int (currentFloor elevator)) fromFloor) in
  let score := add score (mul distance (Int 10)) in
  let score := if decide (state elevator = idle) then sub score (Int 50) else score in
  let score :=
    match isMoving elevator, direction elevator with
    | true, Some dir =>
        let isMovingTowards :=
          (bool_decide (dir = up) && gt fromFloor (Int (currentFloor elevator)))
          || (bool_decide (dir = down) && lt fromFloor (Int (currentFloor elevator))) in
        if isMovingTowards then sub score (Int 20) else add score (Int 30)
    | _, _ => score
    end in
  mkScored elevator score.

Definition findBestElevator (fromFloor toFloor : Number) (d : Db)
  : Db * (ServiceError + Elevator) :=
  let '(d, elevators) := getAllElevators d in
  let scoredElevators := map (score_elevator fromFloor) elevators in
  let scoredElevators := Array_sort by_score scoredElevators in
  match scoredElevators with
  | best :: _ => (d, inr (elevator best))
  | [] => (d, inl UndefinedElevator)
  end.

Definition calculateEstimatedTime (config : BuildingConfig) (elevator : Elevator)
  (fromFloor toFloor : Number) : float :=
  let currentFloor := Int (currentFloor elevator) in
  let floorsToMove :=
    add (Math_abs (sub currentFloor fromFloor)) (Math_abs (sub fromFloor toFloor)) in
  let timeToMove := (to_float floorsToMove * floorMoveTime config)%float in
  let doorTime := (doorOpenCloseTime config * 2)%float in
  (timeToMove + doorTime)%float.

(** The legs a call appends to the queue of the chosen elevator. *)
Definition call_legs (current : Z) (fromFloor toFloor : Number) : list Number :=
  (if negb (strict_eq (Int current) fromFloor) then [fromFloor] else []) ++ [toFloor].

(** [currentFloor < targetFloor ? "up" : "down"] on the object in memory,
    whose [targetFloor] is [queue[0]]. *)
Definition direction_towards (current : Z) (target : option Number) : Direction :=
  match target with
  | Some t => if lt (Int current) t then up else down
  | None => down
  end.

Definition callElevator (request : ElevatorRequest) (s : Service)
  : Service * (ServiceError + Queued.CallResult) :=
  let fromFloor := fromFloor request in
  let toFloor := toFloor request in
  let requestedBy := Queued.anonymous (requestedBy request) in
  if lt fromFloor (Int 1) || gt fromFloor (Int (totalFloors (config s)))
     || lt toFloor (Int 1) || gt toFloor (Int (totalFloors (config s)))
  then (s, inl (InvalidFloor (totalFloors (config s))))
  else if strict_eq fromFloor toFloor then (s, inl SameFloor)
  else
    let '(d, found) := findBestElevator fromFloor toFloor (db s) in
    let s := with_db (fun _ => d) s in
    match found with
    | inl err => (s, inl err)
    | inr bestElevator =>
        let queue := default [] (floorQueues s !! id bestElevator) in
        let queue := queue ++ call_legs (currentFloor bestElevator) fromFloor toFloor in
        let s := floorQueues_put (id bestElevator) queue s in
        let target := head queue in
        let direction := direction_towards (currentFloor bestElevator) target in
        let row :=
          mkElevator (id bestElevator) (currentFloor bestElevator) (target ≫= stored)
            (state bestElevator) (Some direction) (isMoving bestElevator) in
        let s := with_db (updateElevator row) s in
        let logEntry :=
          mkElevatorLog (id bestElevator) "elevator_called" fromFloor toFloor
            (state bestElevator) (Some direction)
            (CalledFromToBy fromFloor toFloor requestedBy) in
        let s := with_db (logElevatorEvent logEntry) s in
        let s := if negb (isMoving bestElevator)
                 then startElevatorMovement (id bestElevator) s else s in
        let estimatedTime :=
          calculateEstimatedTime (config s) bestElevator fromFloor toFloor in
        (s, inr (Queued.mkCallResult (id bestElevator) estimatedTime))
    end.

End Js.

(** The integer-floor service inside the service on numbers. *)
Definition Js_request (request : ElevatorRequest) : Js.ElevatorRequest :=
  Js.mkElevatorRequest (Js.Int (fromFloor request)) (Js.Int (toFloor request))
    (requestedBy request).

Definition Js_details (d : Details) : Js.Details :=
  match d with
  | CalledFromToBy f t by_ => Js.CalledFromToBy (Js.Int f) (Js.Int t) by_
  | MovedToFloor f => Js.MovedToFloor (Js.Int f)
  | DoorsOpeningAt f => Js.DoorsOpeningAt (Js.Int f)
  | DoorsOpenAt f => Js.DoorsOpenAt (Js.Int f)
  | DoorsClosingAt f => Js.DoorsClosingAt (Js.Int f)
  | IdleAt f => Js.IdleAt (Js.Int f)
  | InvalidFloorBoundary => Js.InvalidFloorBoundary
  end.

Definition Js_log (l : ElevatorLog) : Js.ElevatorLog :=
  Js.mkElevatorLog (elevatorId l) (event l) (Js.Int (log_fromFloor l))
    (Js.Int (log_toFloor l)) (log_state l) (log_direction l) (Js_details (details l)).

Definition Js_db (d : Db) : Js.Db :=
  Js.mkDb (elevators d) (map Js_log (elevator_logs d)) (query_logs d).

Definition Js_service (s : Queued.Service) : Js.Service :=
  Js.mkService (Js_db (Queued.db s)) (Queued.config s) (Queued.activeMovements s)
    (fmap (map Js.Int) (Queued.floorQueues s)) (Queued.timers s).

Definition Js_scored (x : Scored) : Js.Scored :=
  Js.mkScored (elevator x) (Js.Int (score x)).

(** ** [ElevatorController]: the handlers of POST /call and GET /status

    The body of a request is parsed JSON; a key it lacks reads [undefined].
    [parseInt] and the conversion to a string are functions of the language:
    they are parameters of the embedding ([Conversions]) and every statement
    holds whatever they return.  A response is its status code and its JSON
    payload. *)

Module Controller.

#[local] Unset Elimination Schemes.
Inductive Json : Set :=
  | JUndefined
  | JNull
  | JBool (b : bool)
  | JNumber (x : float)
  | JString (s : string)
  | JArray (items : list Json)
  | JObject (members : list (string * Json)).
#[local] Set Elimination Schemes.

(** Truthiness: [undefined], [null], [false], [0], [-0], [NaN] and [""]
    are falsy, everything else is truthy. *)
Definition truthy (v : Json) : bool :=
  match v with
  | JUndefined | JNull => false
  | JBool b => b
  | JNumber x => negb (PrimFloat.eqb x 0 || PrimFloat.is_nan x)
  | JString s => negb (String.eqb s "")
  | JArray _ | JObject _ => true
  end.

Record Conversions : Type := mkConversions {
  parseInt : Json -> Js.Number;   (* parseInt(v as string, 10): an integer or NaN *)
  ToString : Json -> string       (* the string a template literal makes of v *)
}.

Record CallBody : Set := mkCallBody {
  body_fromFloor : Json;
  body_toFloor : Json;
  body_requestedBy : Json
}.

Inductive CallError : Set :=
  | FloorsRequired                  (* 'fromFloor and toFloor are required' *)
  | ServiceThrew (e : ServiceError).  (* error.message *)

Inductive CallPayload : Set :=
  | CallSucceeded (data : Queued.CallResult)
      (* { success: true, message: 'Elevator called successfully', data } *)
  | CallFailed (error : CallError).
      (* { error } *)

Inductive StatusPayload : Set :=
  | StatusSucceeded (data : Queued.Status)   (* { success: true, data } *)
  | StatusFailed (error : Queued.StatusError).

(** [requestedBy || req.ip], as the service then names the caller:
    [req.ip] may be [undefined] ([None]), for which the service has its
    default. *)
Definition requestedBy_or_ip (js : Conversions) (requestedBy : Json) (ip : option string)
  : option string :=
  if truthy requestedBy then Some (ToString js requestedBy) else ip.

Definition callElevator (js : Conversions) (ip : option string) (body : CallBody)
  (s : Js.Service) : Js.Service * (Z * CallPayload) :=
  if negb (truthy (body_fromFloor body)) || negb (truthy (body_toFloor body))
  then (s, (400, CallFailed FloorsRequired))
  else
    let request :=
      Js.mkElevatorRequest (parseInt js (body_fromFloor body))
        (parseInt js (body_toFloor body))
        (requestedBy_or_ip js (body_requestedBy body) ip) in
    let '(s, outcome) := Js.callElevator request s in
    match outcome with
    | inr result => (s, (200, CallSucceeded result))
    | inl e => (s, (400, CallFailed (ServiceThrew e)))
    end.

Definition getStatus (elevatorId : option string) (s : Queued.Service)
  : Queued.Service * (Z * StatusPayload) :=
  let '(s, outcome) := Queued.getElevatorStatus elevatorId s in
  match outcome with
  | inr status => (s, (200, StatusSucceeded status))
  | inl e => (s, (404, StatusFailed e))
  end.

End Controller.

(** ** The configuration as a JavaScript object

    [updateBuildingConfig] merges by object spread and the handler of
    PUT /config builds its argument with shorthand properties, so whether a
    key is absent or present with [undefined] matters.  A key of an object
    is absent, holds [undefined], or holds a number. *)

Module ConfigObject.

Inductive Key (A : Type) : Type :=
  | Absent
  | Undefined
  | Value (a : A).

Arguments Absent {A}.
Arguments Undefined {A}.
Arguments Value {A} a.

Record Obj : Type := mkObj {
  key_totalFloors : Key Z;
  key_floorMoveTime : Key float;
  key_doorOpenCloseTime : Key float
}.

(** One key of [{ ...base, ...over }]. *)
Definition spread {A} (base over : Key A) : Key A :=
  match over with
  | Absent => base
  | _ => over
  end.

(** [this.config = { ...this.config, ...newConfig }] *)
Definition updateBuildingConfig (newConfig config : Obj) : Obj :=
  mkObj (spread (key_totalFloors config) (key_totalFloors newConfig))
        (spread (key_floorMoveTime config) (key_floorMoveTime newConfig))
        (spread (key_doorOpenCloseTime config) (key_doorOpenCloseTime newConfig)).

(** [const { totalFloors } = req.body] followed by [{ totalFloors }]: the
    key is present in the literal, with [undefined] when the body lacks it. *)
Definition destructured {A} (k : Key A) : Key A :=
  match k with
  | Absent => Undefined
  | _ => k
  end.

(** [ElevatorController.updateConfig], the configuration it leaves. *)
Definition updateConfig (body config : Obj) : Obj :=
  updateBuildingConfig
    (mkObj (destructured (key_totalFloors body))
           (destructured (key_floorMoveTime body))
           (destructured (key_doorOpenCloseTime body)))
    config.

(** The objects of the service model: every key of a configuration holds
    a number, a partial configuration has numbers under the keys it has. *)
Definition of_config (c : BuildingConfig) : Obj :=
  mkObj (Value (totalFloors c)) (Value (floorMoveTime c))
        (Value (doorOpenCloseTime c)).

Definition of_key {A} (o : option A) : Key A :=
  match o with
  | Some a => Value a
  | None => Absent
  end.

Definition of_partial (p : Queued.PartialBuildingConfig) : Obj :=
  mkObj (of_key (Queued.new_totalFloors p)) (of_key (Queued.new_floorMoveTime p))
        (of_key (Queued.new_doorOpenCloseTime p)).

End ConfigObject.

Import Queued.

(** * Vocabulary of the statements *)

(** ** Scores and floors *)

(** The score [findBestElevator] computes for one elevator. *)
Definition dispatch_score (fromFloor : Z) (e : Elevator) : Z :=
  score (score_elevator fromFloor e).

(** [isMovingTowards] of [findBestElevator]. *)
Definition moving_towards (pickupFloor : Z) (u : Elevator) : bool :=
  (bool_decide (direction u = Some up) && (pickupFloor >? currentFloor u))
  || (bool_decide (direction u = Some down) && (pickupFloor <? currentFloor u)).

(** The score as the specification words it: the distance term, the idle
    bonus, the bonus or penalty of a moving unit, and nothing but the
    distance term for a unit in a door phase. *)
Definition claimed_score (pickupFloor : Z) (u : Elevator) : Z :=
  let base := 10 * Z.abs (currentFloor u - pickupFloor) in
  if decide (state u = idle) then base - 50
  else if is_door_phase (state u) then base
  else if isMoving u then
    if moving_towards pickupFloor u then base - 20 else base + 30
  else base.

Definition in_building (config : BuildingConfig) (floor : Z) : Prop :=
  1 <= floor <= totalFloors config.

Definition first_minimum (l : list Scored) (i : nat) (b : Scored) : Prop :=
  l !! i = Some b
  /\ (forall j y, l !! j = Some y -> score b <= score y)
  /\ (forall j y, (j < i)%nat -> l !! j = Some y -> score b < score y).

(** ** What an accepted call writes *)

Definition valid_request (config : BuildingConfig) (request : ElevatorRequest) : Prop :=
  in_building config (fromFloor request)
  /\ in_building config (toFloor request)
  /\ fromFloor request <> toFloor request.

(** The row [callElevator] writes for the chosen elevator. *)
Definition called_row (best : Elevator) (queue : list Z) : Elevator :=
  mkElevator (id best) (currentFloor best) (head queue) (state best)
    (Some (direction_towards (currentFloor best) (head queue))) (isMoving best).

Definition queue_of (s : Service) (i : string) : list Z :=
  default [] (floorQueues s !! i).

Definition queue_after_call (s : Service) (best : Elevator) (request : ElevatorRequest)
  : list Z :=
  queue_of s (id best)
  ++ call_legs (currentFloor best) (fromFloor request) (toFloor request).

Record call_accepted (request : ElevatorRequest) (best : Elevator)
  (s s' : Service) : Prop := {
  ca_rows :
    elevators (db s') =
    update_rows (called_row best (queue_after_call s best request)) (elevators (db s));
  ca_logs :
    elevator_logs (db s') =
    elevator_logs (db s) ++
      [mkElevatorLog (id best) "elevator_called" (fromFloor request) (toFloor request)
         (state best)
         (Some (direction_towards (currentFloor best)
                  (head (queue_after_call s best request))))
         (CalledFromToBy (fromFloor request) (toFloor request)
            (anonymous (requestedBy request)))];
  ca_queries :
    query_logs (db s') = query_logs (db s) ++ ["getAllElevators"; "updateElevator"]%string;
  ca_config : config s' = config s;
  ca_active : activeMovements s' = activeMovements s;
  ca_queues :
    floorQueues s' = <[id best := queue_after_call s best request]> (floorQueues s);
  ca_timers :
    timers s' =
    if negb (isMoving best) && bool_decide (id best ∉ activeMovements s)
    then timers s ++ [MoveElevator (id best)] else timers s
}.

(** ** Executions from an idle fleet *)

(** A freshly constructed service over a fleet in which every elevator is
    idle inside the building, as [initializeDefaultElevators] leaves it. *)
Definition idle_row (config : BuildingConfig) (e : Elevator) : Prop :=
  state e = idle /\ isMoving e = false
  /\ truthy_floor (targetFloor e) = false
  /\ in_building config (currentFloor e).

Definition idle_fleet (config : BuildingConfig) (rows : list Elevator) : Prop :=
  Forall (idle_row config) rows.

(** The service once the [i]-th pending continuation has been taken off. *)
Definition taken (i : nat) (s : Service) : Service :=
  mkService (db s) (config s) (activeMovements s) (floorQueues s) (delete i (timers s)).

(** ** The [isMoving] flag against [state] *)

(** The flag is set in the two moving states and clear when idle; the door
    phases leave it as it is. *)
Definition flag_agrees (e : Elevator) : Prop :=
  (is_moving_state (state e) = true -> isMoving e = true)
  /\ (state e = idle -> isMoving e = false).

Definition flags_agree (s : Service) : Prop :=
  Forall flag_agrees (elevators (db s)).

(** C1 as the specification states it: in every persisted row [isMoving]
    is set exactly in the two moving states. *)
Definition isMoving_iff_moving_state (s : Service) : Prop :=
  forall u, u ∈ elevators (db s) -> isMoving u = is_moving_state (state u).

(** ** Floors inside the building *)

(** The floor [moveElevator] steps to, and the guard of its boundary
    branch ("Clamp to valid floors"). *)
Definition next_floor (e : Elevator) : Z :=
  if decide (direction e = Some up) then currentFloor e + 1 else currentFloor e - 1.

Definition leaves_building (config : BuildingConfig) (e : Elevator) : bool :=
  (next_floor e <? 1) || (next_floor e >? totalFloors config).

Definition boundary_branch (config : BuildingConfig) (e : Elevator) : bool :=
  truthy_floor (targetFloor e) && negb (at_target e) && leaves_building config e.

(** A row is heading somewhere sensible: it is inside the building and,
    when it has a target it has not reached, the target is inside the
    building and on the side the direction points to. *)
Definition heading_ok (config : BuildingConfig) (e : Elevator) : Prop :=
  in_building config (currentFloor e)
  /\ match targetFloor e with
     | Some t =>
         t = 0 \/ t = currentFloor e
         \/ (in_building config t /\ (direction e = Some up <-> currentFloor e < t))
     | None => True
     end.

Definition cont_ok (config : BuildingConfig) (k : Cont) : Prop :=
  match k with
  | MoveElevator _ => True
  | DoorsOpening e | DoorsOpen e | DoorsClosing e | Arrived e => heading_ok config e
  end.

Definition building_ok (cfg : BuildingConfig) (s : Service) : Prop :=
  config s = cfg
  /\ Forall (heading_ok cfg) (elevators (db s))
  /\ (forall i q, floorQueues s !! i = Some q -> Forall (in_building cfg) q)
  /\ Forall (cont_ok cfg) (timers s).

(** ** The rows and events of one tick chain *)

(** The row [handleArrival] leaves at the end of the door cycle. *)
Definition idle_reset (e : Elevator) : Elevator :=
  mkElevator (id e) (currentFloor e) (Some 0) idle None false.

(** The row a move tick writes. *)
Definition moved (e : Elevator) : Elevator :=
  mkElevator (id e) (next_floor e) (targetFloor e)
    (if decide (direction e = Some up) then moving_up else moving_down)
    (direction e) true.

(** The row [moveElevator] writes when it promotes the next queue entry. *)
Definition promoted (e : Elevator) (next : Z) : Elevator :=
  mkElevator (id e) (currentFloor e) (Some next) idle
    (Some (direction_towards (currentFloor e) (Some next))) false.

Definition door_events (e : Elevator) : list ElevatorLog :=
  [door_log "doors_opening" DoorsOpeningAt (with_state doors_opening e);
   door_log "doors_open" DoorsOpenAt (with_state doors_open e);
   door_log "doors_closing" DoorsClosingAt (with_state doors_closing e);
   door_log "elevator_idle" IdleAt (idle_reset e)].

Definition fires (n : nat) : list Action := replicate n (Fire 0).

(** ** Visits and queues *)

(** The floors at which elevator [i] has opened its doors, in the order of
    the event log. *)
Definition is_visit (i : string) (l : ElevatorLog) : bool :=
  String.eqb (elevatorId l) i && String.eqb (event l) "doors_opening".

Definition visited (i : string) (logs : list ElevatorLog) : list Z :=
  flat_map (fun l => if is_visit i l then [log_toFloor l] else []) logs.

(** The id a call is answered with, when it is accepted. *)
Definition accepted_by (request : ElevatorRequest) (s : Service) : option string :=
  match snd (callElevator request s) with
  | inr result => Some (res_elevatorId result)
  | inl _ => None
  end.

(** Elevator [i] has the only pending tick and is heading for the head of
    its queue. *)
Record serving (cfg : BuildingConfig) (i : string) (q : list Z) (s : Service)
  : Prop := {
  sv_config : config s = cfg;
  sv_timers : timers s = [MoveElevator i];
  sv_queue : floorQueues s !! i = Some q;
  sv_floors : Forall (in_building cfg) q;
  sv_row : exists e, select_by_id i (elevators (db s)) = Some e
                     /\ heading_ok cfg e /\ targetFloor e = head q
}.


(** ** One chain per elevator *)

(** The elevator a continuation belongs to.  [getElevator(elevatorId)]
    returns the row of that id, so the object held by a door phase carries
    the id of its chain. *)
Definition owner (k : Cont) : string :=
  match k with
  | MoveElevator i => i
  | DoorsOpening e | DoorsOpen e | DoorsClosing e | Arrived e => id e
  end.

(** At most one tick chain per elevator is in flight. *)
Definition single_chain (s : Service) : Prop := NoDup (map owner (timers s)).

#[global] Instance single_chain_dec s : Decision (single_chain s).
Proof. unfold single_chain. apply _. Defined.








(** ** Concrete services used in examples *)

Definition test_config : BuildingConfig := mkBuildingConfig 10 1%float 0.5%float.

Definition one_elevator (floor : Z) : Service :=
  new_ElevatorService
    (mkDb [mkElevator "elevator-1" floor (Some 0) idle None false] [] [])
    test_config.

Definition call (fromFloor toFloor : Z) : Action :=
  Call (mkElevatorRequest fromFloor toFloor None).

(** The fleet [initializeDefaultElevators] creates, freshly constructed. *)
Definition default_fleet : Service :=
  new_ElevatorService (mkDb initializeDefaultElevators [] []) test_config.

(** Conversions for the examples.  They agree with JavaScript's on
    strings made of letters or of digits: [parseInt] reads the leading
    decimal digits of a string and is NaN without one; the string of a
    string is itself. *)
Definition digit_of (c : Ascii.ascii) : option Z :=
  let n := Z.of_nat (Ascii.nat_of_ascii c) in
  if (48 <=? n) && (n <=? 57) then Some (n - 48) else None.

Fixpoint leading_digits (s : string) (acc : option Z) : option Z :=
  match s with
  | EmptyString => acc
  | String c s' =>
      match digit_of c with
      | Some d => leading_digits s' (Some (10 * default 0 acc + d))
      | None => acc
      end
  end.

Definition example_conversions : Controller.Conversions :=
  Controller.mkConversions
    (fun v => match v with
              | Controller.JString u =>
                  match leading_digits u None with
                  | Some z => Js.Int z
                  | None => Js.NaN
                  end
              | _ => Js.NaN
              end)
    (fun v => match v with Controller.JString u => u | _ => ""%string end).

(** ** Distances travelled *)

(** The number of "floor_reached" events of elevator [i]. *)
Definition is_move (i : string) (l : ElevatorLog) : bool :=
  String.eqb (elevatorId l) i && String.eqb (event l) "floor_reached".

Definition floors_travelled (i : string) (logs : list ElevatorLog) : nat :=
  length (List.filter (is_move i) logs).

(** The floors between a starting floor and the stops taken in order. *)
Fixpoint route_length (start : Z) (stops : list Z) : Z :=
  match stops with
  | [] => 0
  | t :: rest => Z.abs (start - t) + route_length t rest
  end.

(** The rows of a fleet that carry a given id. *)
Definition known_id (i : string) (rows : list Elevator) : Prop :=
  select_by_id i rows <> None.

(** ** JavaScript numbers as rationals *)



(** ** Floors of a request as numbers *)

(** The number is a floor of the building.  NaN is not. *)
Definition number_in_building (config : BuildingConfig) (n : Js.Number) : Prop :=
  match n with
  | Js.Int z => in_building config z
  | Js.NaN => False
  end.

(** The number is an integer that is no floor of the building. *)
Definition integer_outside (config : BuildingConfig) (n : Js.Number) : Prop :=
  match n with
  | Js.Int z => ~ in_building config z
  | Js.NaN => False
  end.

(** The two checks of [callElevator] let the request through. *)
Definition passes_validation (config : BuildingConfig) (request : Js.ElevatorRequest)
  : Prop :=
  ~ integer_outside config (Js.fromFloor request)
  /\ ~ integer_outside config (Js.toFloor request)
  /\ ~ (exists z, Js.fromFloor request = Js.Int z /\ Js.toFloor request = Js.Int z).

(** Nothing but the query log differs between [s] and [s']. *)
Definition Js_same_but_queries (s s' : Js.Service) : Prop :=
  Js.elevators (Js.db s') = Js.elevators (Js.db s)
  /\ Js.elevator_logs (Js.db s') = Js.elevator_logs (Js.db s)
  /\ Js.config s' = Js.config s
  /\ Js.activeMovements s' = Js.activeMovements s
  /\ Js.floorQueues s' = Js.floorQueues s
  /\ Js.timers s' = Js.timers s.

(** ** Errors the service raises itself *)

(** [InvalidFloor] and [SameFloor] are raised by a [throw new Error(...)]
    of [callElevator]; [UndefinedElevator] is the TypeError the language
    raises when [findBestElevator] reads [.elevator] of [undefined]. *)
Definition thrown_by_service (e : ServiceError) : bool :=
  match e with
  | InvalidFloor _ | SameFloor => true
  | UndefinedElevator => false
  end.

(** ** What an operation leaves alone *)

(** The ids of the fleet are as before and both logs have only grown. *)
Definition keeps_fleet_and_logs (s s' : Service) : Prop :=
  map id (elevators (db s')) = map id (elevators (db s))
  /\ elevator_logs (db s) `prefix_of` elevator_logs (db s')
  /\ query_logs (db s) `prefix_of` query_logs (db s').

(** Nothing but the query log differs between [s] and [s']. *)
Definition same_but_queries (s s' : Service) : Prop :=
  elevators (db s') = elevators (db s)
  /\ elevator_logs (db s') = elevator_logs (db s)
  /\ config s' = config s
  /\ activeMovements s' = activeMovements s
  /\ floorQueues s' = floorQueues s
  /\ timers s' = timers s.

(** The request [ElevatorController.callElevator] passes to the service for
    a body with two truthy floors. *)
Definition request_of_body (js : Controller.Conversions) (ip : option string)
  (body : Controller.CallBody) : Js.ElevatorRequest :=
  Js.mkElevatorRequest (Controller.parseInt js (Controller.body_fromFloor body))
    (Controller.parseInt js (Controller.body_toFloor body))
    (Controller.requestedBy_or_ip js (Controller.body_requestedBy body) ip).

(** ** The service without stop queues *)

(** The row its [callElevator] writes for the chosen elevator: the target
    is the destination and the direction is that of the requested trip. *)
Definition simple_called_row (best : Elevator) (request : ElevatorRequest) : Elevator :=
  mkElevator (id best) (currentFloor best) (Some (toFloor request)) (state best)
    (Some (if fromFloor request >? toFloor request then down else up))
    (isMoving best).

(** What a move tick adds to the floor of a row. *)
Definition floor_step (e : Elevator) : Z :=
  if decide (direction e = Some up) then 1 else -1.

(** The destination lies on the side of the elevator to which the
    requested trip points, or at its floor. *)
Definition destination_ahead (current : Z) (request : ElevatorRequest) : Prop :=
  if fromFloor request >? toFloor request
  then toFloor request <= current
  else current <= toFloor request.

(** * Lemmas *)

(** The row update and the change of state stay folded under [cbn]. *)
Arguments update_rows : simpl never.
Arguments with_state : simpl never.

(** ** The stable sort returns the first entry of minimal score *)

Section SortHead.

Variable cmp : Scored -> Scored -> Z.

Lemma head_sort_insert x l :
  head (sort_insert cmp x l) =
  Some (match head l with
        | Some y => if cmp x y <=? 0 then x else y
        | None => x
        end).
Proof.
  destruct l as [|y l']; simpl; [reflexivity|].
  destruct (cmp x y <=? 0); reflexivity.
Qed.

Lemma Array_sort_cons x l :
  Array_sort cmp (x :: l) = sort_insert cmp x (Array_sort cmp l).
Proof. reflexivity. Qed.

Lemma Array_sort_nil_inv l : Array_sort cmp l = [] -> l = [].
Proof.
  destruct l as [|x l]; [reflexivity|].
  rewrite Array_sort_cons. intros H.
  apply (f_equal head) in H. rewrite head_sort_insert in H. discriminate.
Qed.

End SortHead.

Lemma Array_sort_head_first_minimum (l : list Scored) :
  l <> [] ->
  exists i b, head (Array_sort by_score l) = Some b /\ first_minimum l i b.
Proof.
  induction l as [|x l IH]; [congruence|]. intros _.
  rewrite Array_sort_cons, head_sort_insert.
  destruct l as [|x' l'].
  - exists 0%nat, x. simpl. split; [reflexivity|]. repeat split.
    + intros [|j] y Hy; simpl in Hy; [|discriminate]. injection Hy as <-. lia.
    + intros j y Hj. lia.
  - destruct IH as (i & b & Hhead & Hi & Hmin & Hfirst); [congruence|].
    rewrite Hhead. unfold by_score.
    destruct (Z.leb_spec (score x - score b) 0) as [Hle|Hgt].
    + exists 0%nat, x. split; [reflexivity|]. repeat split.
      * intros [|j] y Hy; simpl in Hy.
        -- injection Hy as <-. lia.
        -- specialize (Hmin j y Hy). lia.
      * intros j y Hj. lia.
    + exists (S i), b. split; [reflexivity|]. repeat split.
      * exact Hi.
      * intros [|j] y Hy; simpl in Hy.
        -- injection Hy as <-. lia.
        -- exact (Hmin j y Hy).
      * intros [|j] y Hj Hy; simpl in Hy.
        -- injection Hy as <-. lia.
        -- apply (Hfirst j y); [lia|exact Hy].
Qed.

(** ** [findBestElevator] *)

Lemma elevator_score_elevator fromFloor e : elevator (score_elevator fromFloor e) = e.
Proof. unfold score_elevator. destruct (isMoving e), (direction e); reflexivity. Qed.

Lemma findBestElevator_db fromFloor toFloor d :
  fst (findBestElevator fromFloor toFloor d) = logQuery "getAllElevators" d.
Proof.
  unfold findBestElevator, getAllElevators.
  destruct (Array_sort by_score (map (score_elevator fromFloor) (elevators d)));
    reflexivity.
Qed.

Lemma findBestElevator_empty fromFloor toFloor d :
  elevators d = [] ->
  snd (findBestElevator fromFloor toFloor d) = inl UndefinedElevator.
Proof. intros H. unfold findBestElevator, getAllElevators. rewrite H. reflexivity. Qed.

Lemma findBestElevator_first_minimum fromFloor toFloor d :
  elevators d <> [] ->
  exists i best,
    snd (findBestElevator fromFloor toFloor d) = inr best
    /\ elevators d !! i = Some best
    /\ (forall j u, elevators d !! j = Some u ->
                    dispatch_score fromFloor best <= dispatch_score fromFloor u)
    /\ (forall j u, (j < i)%nat -> elevators d !! j = Some u ->
                    dispatch_score fromFloor best < dispatch_score fromFloor u).
Proof.
  intros Hne.
  destruct (Array_sort_head_first_minimum (map (score_elevator fromFloor) (elevators d)))
    as (i & b & Hhead & Hi & Hmin & Hfirst).
  { destruct (elevators d); [congruence|discriminate]. }
  rewrite list_lookup_fmap in Hi.
  destruct (elevators d !! i) as [best|] eqn:Hbest; [|discriminate].
  simpl in Hi. injection Hi as <-.
  exists i, best. repeat split.
  - unfold findBestElevator, getAllElevators.
    destruct (Array_sort by_score (map (score_elevator fromFloor) (elevators d)))
      as [|b' l']; [discriminate|].
    simpl in Hhead. injection Hhead as ->. cbn [snd].
    rewrite elevator_score_elevator. reflexivity.
  - exact Hbest.
  - intros j u Hu. apply (Hmin j). rewrite list_lookup_fmap, Hu. reflexivity.
  - intros j u Hj Hu. apply (Hfirst j); [exact Hj|].
    rewrite list_lookup_fmap, Hu. reflexivity.
Qed.

Lemma findBestElevator_elem fromFloor toFloor d best :
  snd (findBestElevator fromFloor toFloor d) = inr best -> best ∈ elevators d.
Proof.
  intros H.
  destruct (elevators d) as [|r rows] eqn:Hrows.
  - rewrite findBestElevator_empty in H by exact Hrows. discriminate.
  - destruct (findBestElevator_first_minimum fromFloor toFloor d)
      as (i & b & Hb & Hi & _); [congruence|].
    rewrite Hb in H. injection H as <-. rewrite <- Hrows.
    apply list_elem_of_lookup. exists i. exact Hi.
Qed.

(** ** [callElevator] *)

Lemma callElevator_range_error request s :
  ~ in_building (config s) (fromFloor request)
  \/ ~ in_building (config s) (toFloor request) ->
  callElevator request s = (s, inl (InvalidFloor (totalFloors (config s)))).
Proof.
  unfold in_building, callElevator. intros H.
  destruct (fromFloor request <? 1) eqn:E1; [reflexivity|].
  destruct (fromFloor request >? totalFloors (config s)) eqn:E2; [reflexivity|].
  destruct (toFloor request <? 1) eqn:E3; [reflexivity|].
  destruct (toFloor request >? totalFloors (config s)) eqn:E4; [reflexivity|].
  exfalso. rewrite Z.gtb_ltb in E2, E4. lia.
Qed.

Lemma callElevator_same_floor_error request s :
  in_building (config s) (fromFloor request) ->
  in_building (config s) (toFloor request) ->
  fromFloor request = toFloor request ->
  callElevator request s = (s, inl SameFloor).
Proof.
  unfold in_building, callElevator. intros H1 H2 H3.
  destruct (fromFloor request <? 1) eqn:E1; [lia|].
  destruct (fromFloor request >? totalFloors (config s)) eqn:E2;
    [rewrite Z.gtb_ltb in E2; lia|].
  destruct (toFloor request <? 1) eqn:E3; [lia|].
  destruct (toFloor request >? totalFloors (config s)) eqn:E4;
    [rewrite Z.gtb_ltb in E4; lia|].
  simpl. rewrite H3, Z.eqb_refl. reflexivity.
Qed.

Lemma callElevator_valid request s :
  valid_request (config s) request ->
  match snd (findBestElevator (fromFloor request) (toFloor request) (db s)) with
  | inl err =>
      snd (callElevator request s) = inl err
      /\ fst (callElevator request s) =
         with_db (fun _ => logQuery "getAllElevators" (db s)) s
  | inr best =>
      snd (callElevator request s) =
        inr (mkCallResult (id best)
               (calculateEstimatedTime (config s)
                  (called_row best (queue_after_call s best request))
                  (fromFloor request) (toFloor request)))
      /\ call_accepted request best s (fst (callElevator request s))
  end.
Proof.
  unfold valid_request, in_building. intros (H1 & H2 & H3).
  pose proof (findBestElevator_db (fromFloor request) (toFloor request) (db s)) as Hdb.
  unfold callElevator.
  destruct (fromFloor request <? 1) eqn:E1; [lia|].
  destruct (fromFloor request >? totalFloors (config s)) eqn:E2;
    [rewrite Z.gtb_ltb in E2; lia|].
  destruct (toFloor request <? 1) eqn:E3; [lia|].
  destruct (toFloor request >? totalFloors (config s)) eqn:E4;
    [rewrite Z.gtb_ltb in E4; lia|].
  destruct (fromFloor request =? toFloor request) eqn:E5; [lia|].
  cbn [orb].
  destruct (findBestElevator (fromFloor request) (toFloor request) (db s))
    as [d [err|best]]; cbn [fst snd] in *; subst d.
  - split; reflexivity.
  - split.
    + cbn. destruct (isMoving best); cbn; [reflexivity|].
      unfold startElevatorMovement. case_decide; reflexivity.
    + destruct (isMoving best) eqn:Emov; cbn [negb andb fst].
      * constructor; cbn; unfold called_row; rewrite <- ?app_assoc, ?Emov;
          reflexivity.
      * unfold startElevatorMovement. cbn.
        destruct (decide (id best ∈ activeMovements s)) as [Hin|Hin].
        -- constructor; cbn; unfold called_row; rewrite <- ?app_assoc, ?Emov;
             try reflexivity.
           rewrite bool_decide_eq_false_2 by (intros Hn; exact (Hn Hin)).
           reflexivity.
        -- constructor; cbn; unfold called_row; rewrite <- ?app_assoc, ?Emov;
             try reflexivity.
           rewrite bool_decide_eq_true_2 by exact Hin. reflexivity.
Qed.

(** ** Rows of the store *)

Lemma select_by_id_Some i rows e :
  select_by_id i rows = Some e -> e ∈ rows /\ id e = i.
Proof.
  induction rows as [|r rows IH]; simpl; [discriminate|].
  destruct (String.eqb_spec (id r) i) as [Heq|Hne].
  - intros [= <-]. split; [left|exact Heq].
  - intros H. destruct (IH H) as [Hin Hid]. split; [right; exact Hin|exact Hid].
Qed.

Lemma select_by_id_None i rows :
  select_by_id i rows = None -> forall e, e ∈ rows -> id e <> i.
Proof.
  induction rows as [|r rows IH]; simpl; intros H e He.
  - inversion He.
  - destruct (String.eqb_spec (id r) i) as [Heq|Hne]; [discriminate|].
    inversion He; subst; [exact Hne|]. apply IH; assumption.
Qed.

Lemma select_by_id_update i e rows :
  id e = i -> select_by_id i rows <> None ->
  select_by_id i (update_rows e rows) = Some e.
Proof.
  intros Hid. induction rows as [|r rows IH]; simpl; [congruence|].
  rewrite Hid.
  destruct (String.eqb_spec (id r) i) as [Heq|Hne]; simpl.
  - intros _. rewrite Hid, String.eqb_refl. reflexivity.
  - intros H. destruct (String.eqb_spec (id r) i); [contradiction|]. exact (IH H).
Qed.

Lemma select_by_id_update_ne i e rows :
  id e <> i -> select_by_id i (update_rows e rows) = select_by_id i rows.
Proof.
  intros Hid. induction rows as [|r rows IH]; simpl; [reflexivity|].
  destruct (String.eqb_spec (id r) (id e)) as [Heq|Hne]; simpl.
  - destruct (String.eqb_spec (id e) i); [contradiction|].
    destruct (String.eqb_spec (id r) i); [congruence|]. exact IH.
  - rewrite IH. reflexivity.
Qed.

Lemma elem_of_update_rows u e rows :
  u ∈ update_rows e rows ->
  (u = e /\ exists r, r ∈ rows /\ id r = id e) \/ (u ∈ rows /\ id u <> id e).
Proof.
  unfold update_rows. intros H.
  apply list_elem_of_fmap in H as (r & -> & Hr).
  destruct (String.eqb_spec (id r) (id e)) as [Heq|Hne].
  - left. split; [reflexivity|]. exists r. split; assumption.
  - right. split; assumption.
Qed.

Lemma Forall_update_rows (P : Elevator -> Prop) e rows :
  P e -> Forall P rows -> Forall P (update_rows e rows).
Proof.
  intros He Hrows. unfold update_rows. apply Forall_fmap.
  eapply Forall_impl; [exact Hrows|]. intros r Hr. simpl.
  destruct (String.eqb (id r) (id e)); assumption.
Qed.

(** ** Executions *)

Lemma initializeDefaultElevators_idle config :
  1 <= totalFloors config -> idle_fleet config initializeDefaultElevators.
Proof.
  intros H. unfold idle_fleet, initializeDefaultElevators.
  apply Forall_fmap, Forall_forall. intros i _.
  unfold idle_row, in_building. simpl. repeat split; lia.
Qed.

Lemma run_app acts1 acts2 s : run (acts1 ++ acts2) s = run acts2 (run acts1 s).
Proof. unfold run. apply foldl_app. Qed.

Lemma run_invariant (I : Service -> Prop) :
  (forall a s, I s -> I (perform a s)) ->
  forall acts s, I s -> I (run acts s).
Proof.
  intros Hstep acts. induction acts as [|a acts IH]; intros s Hs; [exact Hs|].
  simpl. apply IH, Hstep, Hs.
Qed.

Lemma perform_call_cases request s :
  (elevators (db (perform (Call request) s)) = elevators (db s)
   /\ elevator_logs (db (perform (Call request) s)) = elevator_logs (db s)
   /\ config (perform (Call request) s) = config s
   /\ activeMovements (perform (Call request) s) = activeMovements s
   /\ floorQueues (perform (Call request) s) = floorQueues s
   /\ timers (perform (Call request) s) = timers s)
  \/ (valid_request (config s) request
      /\ exists best, best ∈ elevators (db s)
         /\ snd (findBestElevator (fromFloor request) (toFloor request) (db s)) = inr best
         /\ call_accepted request best s (perform (Call request) s)).
Proof.
  simpl.
  destruct (decide (in_building (config s) (fromFloor request))) as [H1|H1];
    [|left; rewrite callElevator_range_error by (left; exact H1); repeat split].
  destruct (decide (in_building (config s) (toFloor request))) as [H2|H2];
    [|left; rewrite callElevator_range_error by (right; exact H2); repeat split].
  destruct (decide (fromFloor request = toFloor request)) as [H3|H3];
    [left; rewrite callElevator_same_floor_error by assumption; repeat split|].
  pose proof (callElevator_valid request s (conj H1 (conj H2 H3))) as Hv.
  destruct (snd (findBestElevator _ _ _)) as [err|best] eqn:Hbest.
  - left. destruct Hv as [_ ->]. repeat split.
  - right. split; [exact (conj H1 (conj H2 H3))|].
    exists best. split; [exact (findBestElevator_elem _ _ _ _ Hbest)|].
    split; [reflexivity|exact (proj2 Hv)].
Qed.

Lemma fire_cases i s :
  (timers s !! i = None /\ fire i s = s)
  \/ (exists k, timers s !! i = Some k /\ fire i s = resume k (taken i s)).
Proof.
  unfold fire, taken. destruct (timers s !! i) as [k|].
  - right. exists k. split; reflexivity.
  - left. split; reflexivity.
Qed.

(** ** The flag invariant *)

Lemma flag_agrees_door st e :
  is_door_phase st = true -> flag_agrees (with_state st e).
Proof. intros H. split; unfold with_state; simpl; intros H'; destruct st; discriminate. Qed.

Lemma resume_flags_agree k s : flags_agree s -> flags_agree (resume k s).
Proof.
  unfold flags_agree. intros H.
  destruct k as [i|e|e|e|e]; simpl.
  - unfold moveElevator. cbn.
    destruct (select_by_id i (elevators (db s))) as [e|] eqn:He; [|exact H].
    destruct (truthy_floor (targetFloor e)); cbn; [|exact H].
    destruct (at_target e); cbn.
    { apply Forall_update_rows; [|exact H]. apply flag_agrees_door. reflexivity. }
    match goal with |- context [if ?b then _ else _] => destruct b end; cbn.
    + apply Forall_update_rows; [|exact H]. split; [discriminate|reflexivity].
    + apply Forall_update_rows; [|exact H].
      split; [reflexivity|]. simpl. destruct (decide _); discriminate.
  - apply Forall_update_rows; [|exact H]. apply flag_agrees_door. reflexivity.
  - apply Forall_update_rows; [|exact H]. apply flag_agrees_door. reflexivity.
  - apply Forall_update_rows; [|exact H]. split; [discriminate|reflexivity].
  - unfold moveElevator_continue.
    destruct (floorQueues s !! id e) as [[|served [|next q]]|]; cbn; try exact H.
    unfold startElevatorMovement. destruct (decide _); cbn;
      (apply Forall_update_rows; [|exact H]); split; (discriminate || reflexivity).
Qed.

Lemma perform_flags_agree a s : flags_agree s -> flags_agree (perform a s).
Proof.
  intros H. destruct a as [request|i].
  - destruct (perform_call_cases request s) as [(Hrows & _)|(_ & best & Hin & _ & Hacc)].
    + unfold flags_agree. rewrite Hrows. exact H.
    + unfold flags_agree. rewrite (ca_rows _ _ _ _ Hacc).
      apply Forall_update_rows; [|exact H].
      unfold flags_agree in H. rewrite Forall_forall in H.
      exact (H best Hin).
  - simpl. destruct (fire_cases i s) as [[_ ->]|(k & _ & ->)]; [exact H|].
    apply resume_flags_agree. exact H.
Qed.

Lemma idle_fleet_flags_agree d config :
  idle_fleet config (elevators d) -> flags_agree (new_ElevatorService d config).
Proof.
  unfold flags_agree, idle_fleet. simpl. intros H.
  eapply Forall_impl; [exact H|].
  intros e (Hst & Hmov & _). split; [rewrite Hst; discriminate|intros _; exact Hmov].
Qed.

(** ** The building invariant *)

Lemma heading_ok_no_boundary config e :
  heading_ok config e -> boundary_branch config e = false.
Proof.
  unfold heading_ok, boundary_branch, leaves_building, next_floor, at_target,
    truthy_floor, in_building.
  intros [Hcur Ht].
  destruct (targetFloor e) as [t|]; [|reflexivity].
  destruct (Z.eqb_spec t 0) as [->|Hz]; [reflexivity|].
  destruct (Z.eqb_spec (currentFloor e) t) as [Heq|Hne]; [reflexivity|].
  destruct Ht as [Ht|[Ht|[Ht Hdir]]]; [lia|lia|].
  simpl. rewrite Z.gtb_ltb.
  destruct (decide (direction e = Some up)) as [Hup|Hup].
  - apply Hdir in Hup.
    destruct (Z.ltb_spec (currentFloor e + 1) 1); [lia|].
    destruct (Z.ltb_spec (totalFloors config) (currentFloor e + 1)); [lia|reflexivity].
  - assert (t < currentFloor e) by (destruct (Z.lt_ge_cases (currentFloor e) t) as [Hlt|];
      [apply Hdir in Hlt; contradiction|lia]).
    destruct (Z.ltb_spec (currentFloor e - 1) 1); [lia|].
    destruct (Z.ltb_spec (totalFloors config) (currentFloor e - 1)); [lia|reflexivity].
Qed.

Lemma heading_ok_with_state config st e :
  heading_ok config e -> heading_ok config (with_state st e).
Proof. intros H. exact H. Qed.

Lemma heading_ok_towards config i cur t st mv :
  in_building config cur -> in_building config t ->
  heading_ok config (mkElevator i cur (Some t) st (Some (direction_towards cur (Some t))) mv).
Proof.
  intros Hcur Ht. split; [exact Hcur|]. simpl. right. right. split; [exact Ht|].
  destruct (Z.ltb_spec cur t); split; intros H'; (lia || congruence || reflexivity).
Qed.

Lemma heading_ok_step config e :
  heading_ok config e ->
  truthy_floor (targetFloor e) = true -> at_target e = false ->
  heading_ok config
    (mkElevator (id e) (next_floor e) (targetFloor e)
       (if decide (direction e = Some up) then moving_up else moving_down)
       (direction e) true).
Proof.
  unfold heading_ok, next_floor, at_target, truthy_floor, in_building. simpl.
  intros [Hcur Ht] Htruthy Hat.
  destruct (targetFloor e) as [t|]; [|discriminate].
  destruct (Z.eqb_spec t 0) as [->|Hz]; [discriminate|].
  destruct (Z.eqb_spec (currentFloor e) t) as [Heq|Hne]; [discriminate|].
  destruct Ht as [Ht|[Ht|[Ht Hdir]]]; [lia|lia|].
  destruct (decide (direction e = Some up)) as [Hup|Hup].
  - pose proof (proj1 Hdir Hup). split; [lia|].
    destruct (decide (t = currentFloor e + 1)); [right; left; assumption|].
    right. right. split; [exact Ht|]. split; intros; [lia|exact Hup].
  - assert (t < currentFloor e) by (destruct (Z.lt_ge_cases (currentFloor e) t) as [Hlt|];
      [apply Hdir in Hlt; contradiction|lia]).
    split; [lia|].
    destruct (decide (t = currentFloor e - 1)); [right; left; assumption|].
    right. right. split; [exact Ht|]. split; intros; [contradiction|lia].
Qed.

Lemma call_legs_in_building config cur request :
  valid_request config request ->
  Forall (in_building config) (call_legs cur (fromFloor request) (toFloor request)).
Proof.
  intros (H1 & H2 & _). unfold call_legs.
  destruct (negb _); simpl.
  - apply Forall_cons. split; [assumption|]. apply Forall_singleton. assumption.
  - apply Forall_singleton. assumption.
Qed.

Lemma call_legs_nonempty cur f t : call_legs cur f t <> [].
Proof. unfold call_legs. destruct (negb _); discriminate. Qed.

Lemma queue_after_call_head s best request :
  exists t, head (queue_after_call s best request) = Some t
            /\ t ∈ queue_after_call s best request.
Proof.
  unfold queue_after_call.
  destruct (queue_of s (id best) ++ call_legs _ _ _) as [|t q] eqn:E.
  - apply app_eq_nil in E as [_ E]. exfalso. exact (call_legs_nonempty _ _ _ E).
  - exists t. split; [reflexivity|left].
Qed.

Lemma queue_of_in_building cfg s i :
  (forall j q, floorQueues s !! j = Some q -> Forall (in_building cfg) q) ->
  Forall (in_building cfg) (queue_of s i).
Proof.
  intros H. unfold queue_of. destruct (floorQueues s !! i) as [q|] eqn:E; simpl.
  - exact (H i q E).
  - constructor.
Qed.

Lemma resume_building_ok cfg k s :
  building_ok cfg s -> cont_ok cfg k -> building_ok cfg (resume k s).
Proof.
  intros (Hcfg & Hrows & Hq & Ht) Hk.
  destruct k as [i|e|e|e|e]; simpl in *.
  - unfold moveElevator. cbn.
    destruct (select_by_id i (elevators (db s))) as [e|] eqn:He;
      [|repeat split; assumption].
    apply select_by_id_Some in He as [Hin _].
    assert (He : heading_ok cfg e) by (rewrite Forall_forall in Hrows; exact (Hrows e Hin)).
    destruct (truthy_floor (targetFloor e)) eqn:Htruthy; cbn;
      [|repeat split; assumption].
    destruct (at_target e) eqn:Hat; cbn.
    { repeat split; try assumption.
      - apply Forall_update_rows; assumption.
      - apply Forall_app. split; [assumption|]. apply Forall_singleton. exact He. }
    match goal with |- context [if ?b then _ else _] => destruct b end; cbn.
    + repeat split; try assumption.
      apply Forall_update_rows; [|assumption].
      destruct He as [Hcur _]. split; [exact Hcur|]. simpl.
      unfold in_building in *. destruct (decide (1 = currentFloor e)); [tauto|].
      right. right. split; [lia|]. split; intros; [discriminate|lia].
    + repeat split; try assumption.
      * apply Forall_update_rows; [|assumption].
        apply (heading_ok_step cfg e He Htruthy Hat).
      * apply Forall_app. split; [assumption|]. apply Forall_singleton. exact I.
  - repeat split; try assumption.
    + apply Forall_update_rows; assumption.
    + apply Forall_app. split; [assumption|]. apply Forall_singleton. exact Hk.
  - repeat split; try assumption.
    + apply Forall_update_rows; assumption.
    + apply Forall_app. split; [assumption|]. apply Forall_singleton. exact Hk.
  - assert (Hidle : heading_ok cfg (mkElevator (id e) (currentFloor e) (Some 0) idle None false)).
    { split; [exact (proj1 Hk)|]. simpl. left. reflexivity. }
    repeat split; try assumption.
    + apply Forall_update_rows; assumption.
    + apply Forall_app. split; [assumption|]. apply Forall_singleton. exact Hidle.
  - unfold moveElevator_continue.
    destruct (floorQueues s !! id e) as [q|] eqn:Eq; cbn;
      [|repeat split; assumption].
    assert (Hq' : forall j q', <[id e:=tail q]> (floorQueues s) !! j = Some q' ->
                             Forall (in_building cfg) q').
    { intros j q'. rewrite lookup_insert. case_decide.
      - intros [= <-]. specialize (Hq _ _ Eq). destruct q; [constructor|].
        simpl. apply Forall_cons in Hq. tauto.
      - apply Hq. }
    destruct (tail q) as [|next rest] eqn:Etail; cbn; [repeat split; assumption|].
    assert (Hnext : in_building cfg next).
    { specialize (Hq' (id e) (next :: rest)). rewrite lookup_insert_eq in Hq'.
      specialize (Hq' eq_refl). apply Forall_cons in Hq'. tauto. }
    unfold startElevatorMovement. cbn.
    destruct (decide _); cbn; repeat split; try assumption;
      try (apply Forall_update_rows; [|assumption];
           apply heading_ok_towards; [exact (proj1 Hk)|exact Hnext]).
    apply Forall_app. split; [assumption|]. apply Forall_singleton. exact I.
Qed.

Lemma perform_building_ok cfg a s :
  building_ok cfg s -> building_ok cfg (perform a s).
Proof.
  intros (Hcfg & Hrows & Hq & Ht).
  destruct a as [request|i].
  - destruct (perform_call_cases request s)
      as [(E1 & _ & E2 & _ & E3 & E4)|(Hvalid & best & Hin & _ & Hacc)].
    + unfold building_ok. rewrite E1, E2, E3, E4. repeat split; assumption.
    + destruct Hacc as [Arows _ _ Acfg _ Aqueues Atimers].
      rewrite Hcfg in Hvalid.
      assert (Hqueue : Forall (in_building cfg) (queue_after_call s best request)).
      { unfold queue_after_call. apply Forall_app. split.
        - apply queue_of_in_building. exact Hq.
        - apply call_legs_in_building. exact Hvalid. }
      unfold building_ok. rewrite Arows, Acfg, Aqueues, Atimers.
      split; [exact Hcfg|]. split; [|split].
      * apply Forall_update_rows; [|exact Hrows].
        destruct (queue_after_call_head s best request) as (t & Hhead & Hint).
        unfold called_row. rewrite Hhead. apply heading_ok_towards.
        -- rewrite Forall_forall in Hrows. exact (proj1 (Hrows best Hin)).
        -- rewrite Forall_forall in Hqueue. exact (Hqueue t Hint).
      * intros j q. rewrite lookup_insert.
        destruct (decide (id best = j)).
        -- intros [= <-]. exact Hqueue.
        -- apply Hq.
      * destruct (_ && _); [|exact Ht].
        apply Forall_app. split; [exact Ht|]. apply Forall_singleton. exact I.
  - simpl. destruct (fire_cases i s) as [[_ ->]|(k & Hk & ->)];
      [repeat split; assumption|].
    apply resume_building_ok.
    + repeat split; try assumption. simpl. apply Forall_delete. exact Ht.
    + exact (Forall_lookup_1 _ _ _ _ Ht Hk).
Qed.

Lemma idle_fleet_building_ok d config :
  idle_fleet config (elevators d) -> building_ok config (new_ElevatorService d config).
Proof.
  intros H. split; [reflexivity|]. split; [|split].
  - simpl. eapply Forall_impl; [exact H|].
    intros e (_ & _ & Htarget & Hcur). split; [exact Hcur|].
    unfold truthy_floor in Htarget. destruct (targetFloor e) as [t|]; [|exact I].
    left. destruct (Z.eqb_spec t 0); [assumption|discriminate].
  - intros i q. simpl. rewrite lookup_empty. discriminate.
  - simpl. constructor.
Qed.

Lemma run_building_ok d config acts :
  idle_fleet config (elevators d) ->
  building_ok config (run acts (new_ElevatorService d config)).
Proof.
  intros H. apply (run_invariant (building_ok config)).
  - intros a s. apply perform_building_ok.
  - apply idle_fleet_building_ok. exact H.
Qed.

Lemma run_flags_agree d config acts :
  idle_fleet config (elevators d) ->
  flags_agree (run acts (new_ElevatorService d config)).
Proof.
  intros H. apply (run_invariant flags_agree).
  - intros a s. apply perform_flags_agree.
  - eapply idle_fleet_flags_agree. exact H.
Qed.

Lemma dispatch_score_formula pickupFloor u :
  dispatch_score pickupFloor u =
  10 * Z.abs (currentFloor u - pickupFloor)
  + (if decide (state u = idle) then -50 else 0)
  + (if isMoving u && bool_decide (direction u <> None)
     then if moving_towards pickupFloor u then -20 else 30
     else 0).
Proof.
  unfold dispatch_score, score_elevator, moving_towards.
  destruct (decide (state u = idle)), (isMoving u), (direction u) as [[|]|];
    cbn; try destruct (_ >? _); try destruct (_ <? _);
    repeat case_bool_decide; try congruence; cbn; lia.
Qed.

Lemma callElevator_accepted_inv request s s' result :
  callElevator request s = (s', inr result) ->
  valid_request (config s) request
  /\ exists best,
       snd (findBestElevator (fromFloor request) (toFloor request) (db s)) = inr best
       /\ best ∈ elevators (db s)
       /\ result = mkCallResult (id best)
                     (calculateEstimatedTime (config s)
                        (called_row best (queue_after_call s best request))
                        (fromFloor request) (toFloor request))
       /\ call_accepted request best s s'.
Proof.
  intros Hcall.
  destruct (decide (in_building (config s) (fromFloor request))) as [H1|H1];
    [|rewrite callElevator_range_error in Hcall by (left; exact H1); discriminate].
  destruct (decide (in_building (config s) (toFloor request))) as [H2|H2];
    [|rewrite callElevator_range_error in Hcall by (right; exact H2); discriminate].
  destruct (decide (fromFloor request = toFloor request)) as [H3|H3];
    [rewrite (callElevator_same_floor_error request s H1 H2 H3) in Hcall;
     discriminate|].
  assert (Hvalid : valid_request (config s) request)
    by exact (conj H1 (conj H2 H3)).
  split; [exact Hvalid|].
  pose proof (callElevator_valid request s Hvalid) as Hv.
  rewrite Hcall in Hv. cbn [fst snd] in Hv.
  destruct (snd (findBestElevator _ _ _)) as [err|best] eqn:Hbest.
  - destruct Hv as [Hv _]. discriminate.
  - destruct Hv as [Hres Hacc]. exists best. split; [reflexivity|].
    split; [exact (findBestElevator_elem _ _ _ _ Hbest)|].
    split; [congruence|exact Hacc].
Qed.

Lemma calculateEstimatedTime_formula config e fromFloor toFloor :
  calculateEstimatedTime config e fromFloor toFloor =
  (Number_of_Z (Z.abs (currentFloor e - fromFloor) + Z.abs (fromFloor - toFloor))
   * floorMoveTime config
   + doorOpenCloseTime config * 2)%float.
Proof. reflexivity. Qed.

(** ** One tick chain running on its own *)

Lemma moveElevator_boundary i s e :
  select_by_id i (elevators (db s)) = Some e ->
  boundary_branch (config s) e = true ->
  moveElevator i s =
  with_db (logElevatorEvent
             (mkElevatorLog (id e) "elevator_idle" (currentFloor e) (currentFloor e)
                idle None InvalidFloorBoundary))
    (activeMovements_delete i
       (with_db (updateElevator
                   (mkElevator (id e) (currentFloor e) (Some 1) idle None false))
          (with_db (logQuery "getElevator") s))).
Proof.
  unfold boundary_branch, leaves_building, next_floor, moveElevator. cbn.
  intros -> H.
  apply andb_prop in H as [H Hleave]. apply andb_prop in H as [Htruthy Hat].
  rewrite Htruthy. apply negb_true_iff in Hat. rewrite Hat. cbn.
  rewrite Hleave. reflexivity.
Qed.

Lemma select_by_id_update_found i e rows :
  id e = i -> select_by_id i rows <> None ->
  select_by_id i (update_rows e rows) <> None.
Proof. intros Hid Hne. rewrite select_by_id_update by assumption. discriminate. Qed.

Ltac written Hid Hne :=
  repeat first
    [ exact Hne
    | apply select_by_id_update_found; [exact Hid|]
    | apply select_by_id_update; [exact Hid|] ].

Lemma door_cycle s i e :
  timers s = [MoveElevator i] ->
  select_by_id i (elevators (db s)) = Some e ->
  truthy_floor (targetFloor e) = true ->
  at_target e = true ->
  select_by_id i (elevators (db (run (fires 1) s))) = Some (with_state doors_opening e)
  /\ select_by_id i (elevators (db (run (fires 2) s))) = Some (with_state doors_open e)
  /\ select_by_id i (elevators (db (run (fires 3) s))) = Some (with_state doors_closing e)
  /\ select_by_id i (elevators (db (run (fires 4) s))) = Some (idle_reset e)
  /\ timers (run (fires 4) s) = [Arrived (idle_reset e)]
  /\ config (run (fires 4) s) = config s
  /\ floorQueues (run (fires 4) s) = floorQueues s
  /\ activeMovements (run (fires 4) s) = activeMovements s
  /\ elevator_logs (db (run (fires 4) s)) = elevator_logs (db s) ++ door_events e.
Proof.
  destruct s as [d cfg active queues tms]. cbn [timers db config floorQueues activeMovements].
  intros -> He Htruthy Hat.
  destruct (select_by_id_Some _ _ _ He) as [_ Hid].
  assert (Hne : select_by_id i (elevators d) <> None) by congruence.
  unfold fires, run. cbn. unfold moveElevator. cbn.
  rewrite He, Htruthy, Hat. cbn.
  repeat split; rewrite <- ?app_assoc; try reflexivity; written Hid Hne.
Qed.

Lemma run_fires_S n s : run (fires (S n)) s = fire 0 (run (fires n) s).
Proof.
  unfold fires. replace (S n) with (n + 1)%nat by lia.
  rewrite replicate_add, run_app. reflexivity.
Qed.

Lemma fire_head s k ks :
  timers s = k :: ks ->
  fire 0 s =
  resume k (mkService (db s) (config s) (activeMovements s) (floorQueues s) ks).
Proof. intros H. unfold fire. rewrite H. reflexivity. Qed.

Lemma chain_end s e :
  timers s = [Arrived e] ->
  tail (queue_of s (id e)) = [] ->
  elevators (db (fire 0 s)) = elevators (db s)
  /\ elevator_logs (db (fire 0 s)) = elevator_logs (db s)
  /\ timers (fire 0 s) = []
  /\ (id e ∉ activeMovements (fire 0 s))
  /\ queue_of (fire 0 s) (id e) = [].
Proof.
  intros Ht Hq. rewrite (fire_head s _ _ Ht). simpl.
  unfold moveElevator_continue, queue_of in *. cbn.
  destruct (floorQueues s !! id e) as [q|] eqn:Eq; cbn in *.
  - rewrite Hq. cbn. rewrite lookup_insert_eq. cbn.
    repeat split. rewrite elem_of_difference, elem_of_singleton. tauto.
  - rewrite Eq. repeat split. rewrite elem_of_difference, elem_of_singleton. tauto.
Qed.

Lemma chain_promote s e q next rest :
  timers s = [Arrived e] ->
  floorQueues s !! id e = Some q ->
  tail q = next :: rest ->
  select_by_id (id e) (elevators (db s)) <> None ->
  timers (fire 0 s) = [MoveElevator (id e)]
  /\ select_by_id (id e) (elevators (db (fire 0 s))) = Some (promoted e next)
  /\ floorQueues (fire 0 s) !! id e = Some (next :: rest)
  /\ elevator_logs (db (fire 0 s)) = elevator_logs (db s)
  /\ config (fire 0 s) = config s.
Proof.
  intros Ht Hq Htail Hne. rewrite (fire_head s _ _ Ht). simpl.
  unfold moveElevator_continue. cbn. rewrite Hq, Htail. cbn.
  unfold startElevatorMovement. cbn.
  destruct (decide (id e ∈ activeMovements s ∖ {[id e]})) as [Hin|_].
  { exfalso. rewrite elem_of_difference, elem_of_singleton in Hin. tauto. }
  cbn. rewrite lookup_insert_eq.
  split; [reflexivity|]. split; [|repeat split].
  apply select_by_id_update; [reflexivity|exact Hne].
Qed.

Lemma move_tick s i e :
  timers s = [MoveElevator i] ->
  select_by_id i (elevators (db s)) = Some e ->
  truthy_floor (targetFloor e) = true ->
  at_target e = false ->
  leaves_building (config s) e = false ->
  timers (fire 0 s) = [MoveElevator i]
  /\ select_by_id i (elevators (db (fire 0 s))) = Some (moved e)
  /\ floorQueues (fire 0 s) = floorQueues s
  /\ config (fire 0 s) = config s
  /\ elevator_logs (db (fire 0 s)) =
       elevator_logs (db s) ++
       [mkElevatorLog (id e) "floor_reached"
          (if decide (direction e = Some up) then next_floor e - 1 else next_floor e + 1)
          (next_floor e) (state (moved e)) (direction e) (MovedToFloor (next_floor e))].
Proof.
  intros Ht He Htruthy Hat Hleave. rewrite (fire_head s _ _ Ht). simpl.
  destruct (select_by_id_Some _ _ _ He) as [_ Hid].
  unfold moveElevator. cbn. rewrite He, Htruthy, Hat. cbn.
  unfold leaves_building, next_floor in Hleave. rewrite Hleave. cbn.
  split; [reflexivity|]. split; [|repeat split].
  apply select_by_id_update; [exact Hid|congruence].
Qed.

(** ** Serving a queue *)

Lemma visited_app i l1 l2 : visited i (l1 ++ l2) = visited i l1 ++ visited i l2.
Proof. unfold visited. apply flat_map_app. Qed.

Lemma visited_door_events i e :
  id e = i -> visited i (door_events e) = [currentFloor e].
Proof.
  intros <-. unfold visited, door_events, is_visit, door_log. simpl.
  rewrite !String.eqb_refl. reflexivity.
Qed.

Lemma run_fires_add n m s : run (fires (n + m)) s = run (fires m) (run (fires n) s).
Proof. unfold fires. rewrite replicate_add, run_app. reflexivity. Qed.

Lemma approach cfg i n :
  forall s e t,
    config s = cfg ->
    timers s = [MoveElevator i] ->
    select_by_id i (elevators (db s)) = Some e ->
    heading_ok cfg e ->
    targetFloor e = Some t ->
    in_building cfg t ->
    Z.to_nat (Z.abs (currentFloor e - t)) = n ->
    exists e',
      config (run (fires n) s) = cfg
      /\ timers (run (fires n) s) = [MoveElevator i]
      /\ select_by_id i (elevators (db (run (fires n) s))) = Some e'
      /\ heading_ok cfg e'
      /\ targetFloor e' = Some t
      /\ currentFloor e' = t
      /\ floorQueues (run (fires n) s) = floorQueues s
      /\ visited i (elevator_logs (db (run (fires n) s)))
         = visited i (elevator_logs (db s)).
Proof.
  induction n as [|n IH]; intros s e t Hcfg Ht He Hok Htarget Hin Hdist.
  - exists e. simpl.
    split; [exact Hcfg|]. split; [exact Ht|]. split; [exact He|].
    split; [exact Hok|]. split; [exact Htarget|]. split; [lia|].
    split; reflexivity.
  - assert (Htruthy : truthy_floor (targetFloor e) = true).
    { rewrite Htarget. unfold in_building in Hin. simpl.
      destruct (Z.eqb_spec t 0); [lia|reflexivity]. }
    assert (Hat : at_target e = false).
    { unfold at_target. rewrite Htarget.
      destruct (Z.eqb_spec (currentFloor e) t); [lia|reflexivity]. }
    assert (Hleave : leaves_building (config s) e = false).
    { pose proof (heading_ok_no_boundary cfg e Hok) as Hb.
      unfold boundary_branch in Hb. rewrite Htruthy, Hat in Hb.
      rewrite Hcfg. exact Hb. }
    destruct (move_tick s i e Ht He Htruthy Hat Hleave)
      as (Ht' & He' & Hq' & Hcfg' & Hlog').
    destruct (IH (fire 0 s) (moved e) t) as (e' & H1 & H2 & H3 & H4 & H5 & H6 & H7 & H8).
    + congruence.
    + exact Ht'.
    + exact He'.
    + exact (heading_ok_step cfg e Hok Htruthy Hat).
    + exact Htarget.
    + exact Hin.
    + simpl. unfold next_floor.
      destruct Hok as [_ Hhead]. rewrite Htarget in Hhead.
      unfold at_target in Hat. rewrite Htarget in Hat.
      destruct (Z.eqb_spec (currentFloor e) t) as [|Hne]; [discriminate|].
      unfold in_building in Hin.
      destruct Hhead as [Hz|[Heq|[_ Hdir]]]; [lia|lia|].
      destruct (decide (direction e = Some up)) as [Hup|Hup].
      * apply Hdir in Hup. lia.
      * assert (t < currentFloor e)
          by (destruct (Z.lt_ge_cases (currentFloor e) t) as [Hlt|];
              [apply Hdir in Hlt; contradiction|lia]).
        lia.
    + exists e'. change (run (fires (S n)) s) with (run (fires n) (fire 0 s)).
      split; [exact H1|]. split; [exact H2|]. split; [exact H3|].
      split; [exact H4|]. split; [exact H5|]. split; [exact H6|].
      split; [congruence|].
      rewrite H8, Hlog', visited_app. simpl.
      unfold is_visit. simpl. rewrite andb_false_r. simpl. apply app_nil_r.
Qed.



Lemma map_id_update_rows e rows : map id (update_rows e rows) = map id rows.
Proof.
  unfold update_rows. induction rows as [|r rows IH]; simpl; [reflexivity|].
  rewrite IH. destruct (String.eqb_spec (id r) (id e)) as [Heq|_]; congruence.
Qed.

Lemma unique_row i rows e u :
  NoDup (map id rows) ->
  select_by_id i rows = Some e -> u ∈ rows -> id u = i -> u = e.
Proof.
  induction rows as [|r rows IH]; simpl; intros Hnd He Hu Hid; [discriminate|].
  apply NoDup_cons in Hnd as [Hr Hnd].
  destruct (String.eqb_spec (id r) i) as [Heq|Hne].
  - injection He as <-.
    apply elem_of_cons in Hu as [->|Hu]; [reflexivity|].
    exfalso. apply Hr. rewrite Heq, <- Hid. apply list_elem_of_fmap.
    exists u. split; [reflexivity|exact Hu].
  - apply elem_of_cons in Hu as [->|Hu]; [contradiction|].
    exact (IH Hnd He Hu Hid).
Qed.


(** ** The queue invariant of executions with one chain per elevator *)


Lemma updated_row_same e rows u : u ∈ update_rows e rows -> id u = id e -> u = e.
Proof.
  intros Hu Hid. apply elem_of_update_rows in Hu as [[-> _]|[_ Hne]];
    [reflexivity|contradiction].
Qed.


Lemma queue_of_put s i q j :
  queue_of (floorQueues_put i q s) j = if decide (i = j) then q else queue_of s j.
Proof.
  unfold queue_of, floorQueues_put. simpl. rewrite lookup_insert.
  destruct (decide (i = j)); reflexivity.
Qed.
















(** ** [callElevator] on numbers *)

Lemma Js_callElevator_range_error request s :
  integer_outside (Js.config s) (Js.fromFloor request)
  \/ integer_outside (Js.config s) (Js.toFloor request) ->
  Js.callElevator request s = (s, inl (InvalidFloor (totalFloors (Js.config s)))).
Proof.
  unfold integer_outside, in_building, Js.callElevator. intros H.
  destruct (Js.fromFloor request) as [f|], (Js.toFloor request) as [t|]; simpl in *.
  - destruct (Z.ltb_spec f 1); [reflexivity|].
    destruct (f >? totalFloors (Js.config s)) eqn:E2; [reflexivity|].
    destruct (Z.ltb_spec t 1); [reflexivity|].
    destruct (t >? totalFloors (Js.config s)) eqn:E4; [reflexivity|].
    exfalso. rewrite Z.gtb_ltb in E2, E4. lia.
  - destruct (Z.ltb_spec f 1); [reflexivity|].
    destruct (f >? totalFloors (Js.config s)) eqn:E2; [reflexivity|].
    exfalso. rewrite Z.gtb_ltb in E2. destruct H as [H|[]]. lia.
  - destruct (Z.ltb_spec t 1); [reflexivity|].
    destruct (t >? totalFloors (Js.config s)) eqn:E4; [reflexivity|].
    exfalso. rewrite Z.gtb_ltb in E4. destruct H as [[]|H]. lia.
  - destruct H as [[]|[]].
Qed.

Lemma Js_callElevator_same_floor_error request s z :
  Js.fromFloor request = Js.Int z ->
  Js.toFloor request = Js.Int z ->
  in_building (Js.config s) z ->
  Js.callElevator request s = (s, inl SameFloor).
Proof.
  unfold in_building, Js.callElevator. intros -> -> H. simpl.
  destruct (Z.ltb_spec z 1); [lia|].
  destruct (z >? totalFloors (Js.config s)) eqn:E2; [rewrite Z.gtb_ltb in E2; lia|].
  simpl. rewrite Z.eqb_refl. reflexivity.
Qed.

Lemma Js_sort_insert_cons cmp x l : exists y l', Js.sort_insert cmp x l = y :: l'.
Proof.
  destruct l as [|y l]; simpl; [eauto|].
  destruct (Js.SortCompare cmp x y <=? 0); eauto.
Qed.

Lemma Js_findBestElevator_db fromFloor toFloor d :
  fst (Js.findBestElevator fromFloor toFloor d) = Js.logQuery "getAllElevators" d.
Proof.
  unfold Js.findBestElevator, Js.getAllElevators.
  destruct (Js.Array_sort Js.by_score (map (Js.score_elevator fromFloor) (Js.elevators d)));
    reflexivity.
Qed.

Lemma Js_findBestElevator_empty fromFloor toFloor d :
  Js.elevators d = [] ->
  snd (Js.findBestElevator fromFloor toFloor d) = inl UndefinedElevator.
Proof.
  intros H. unfold Js.findBestElevator, Js.getAllElevators. rewrite H. reflexivity.
Qed.

Lemma Js_findBestElevator_nonempty fromFloor toFloor d :
  Js.elevators d <> [] ->
  exists best, snd (Js.findBestElevator fromFloor toFloor d) = inr best.
Proof.
  intros H. unfold Js.findBestElevator, Js.getAllElevators.
  destruct (Js.elevators d) as [|r rows]; [congruence|]. simpl.
  destruct (Js_sort_insert_cons Js.by_score (Js.score_elevator fromFloor r)
              (Js.Array_sort Js.by_score (map (Js.score_elevator fromFloor) rows)))
    as (y & l' & ->).
  eexists. reflexivity.
Qed.

(** With a NaN pickup floor every score is NaN, every comparison counts
    for equal, and the sort leaves the first row in front. *)
Lemma Js_score_NaN e : Js.score (Js.score_elevator Js.NaN e) = Js.NaN.
Proof.
  unfold Js.score_elevator. simpl.
  destruct (decide (state e = idle)), (isMoving e), (direction e) as [dir|];
    simpl; try reflexivity;
    destruct (bool_decide (dir = up)), (bool_decide (dir = down)); reflexivity.
Qed.

Lemma Js_elevator_score_elevator fromFloor e :
  Js.elevator (Js.score_elevator fromFloor e) = e.
Proof.
  unfold Js.score_elevator. destruct (isMoving e), (direction e); reflexivity.
Qed.

Lemma Js_Array_sort_NaN rows :
  Js.Array_sort Js.by_score (map (Js.score_elevator Js.NaN) rows)
  = map (Js.score_elevator Js.NaN) rows.
Proof.
  unfold Js.Array_sort. induction rows as [|r rows IH]; [reflexivity|].
  cbn [map foldr]. rewrite IH.
  destruct rows as [|r' rows]; [reflexivity|]. cbn [map Js.sort_insert].
  unfold Js.SortCompare, Js.by_score. rewrite !Js_score_NaN. reflexivity.
Qed.

Lemma Js_findBestElevator_NaN toFloor d first rest :
  Js.elevators d = first :: rest ->
  snd (Js.findBestElevator Js.NaN toFloor d) = inr first.
Proof.
  intros H. unfold Js.findBestElevator, Js.getAllElevators.
  rewrite Js_Array_sort_NaN, H. cbn [map fst snd].
  rewrite Js_elevator_score_elevator. reflexivity.
Qed.

(** What [callElevator] answers, by the outcome of its checks. *)
Lemma Js_callElevator_cases request s :
  (integer_outside (Js.config s) (Js.fromFloor request)
   \/ integer_outside (Js.config s) (Js.toFloor request))
  \/ (exists z, Js.fromFloor request = Js.Int z /\ Js.toFloor request = Js.Int z
                /\ in_building (Js.config s) z)
  \/ (passes_validation (Js.config s) request
      /\ snd (Js.callElevator request s)
         = match snd (Js.findBestElevator (Js.fromFloor request) (Js.toFloor request)
                        (Js.db s)) with
           | inl err => inl err
           | inr best =>
               inr (Queued.mkCallResult (id best)
                      (Js.calculateEstimatedTime (Js.config s) best
                         (Js.fromFloor request) (Js.toFloor request)))
           end
      /\ (snd (Js.findBestElevator (Js.fromFloor request) (Js.toFloor request) (Js.db s))
          = inl UndefinedElevator ->
          fst (Js.callElevator request s)
          = Js.with_db (fun _ => Js.logQuery "getAllElevators" (Js.db s)) s)).
Proof.
  destruct (Js.fromFloor request) as [f|] eqn:Ef, (Js.toFloor request) as [t|] eqn:Et.
  - destruct (decide (in_building (Js.config s) f)) as [Hf|Hf]; [|left; left; exact Hf].
    destruct (decide (in_building (Js.config s) t)) as [Ht|Ht]; [|left; right; exact Ht].
    destruct (decide (f = t)) as [->|Hne].
    { right; left. exists t. split; [reflexivity|]. split; [reflexivity|exact Ht]. }
    right; right. split.
    { unfold passes_validation. rewrite Ef, Et. simpl.
      split; [tauto|]. split; [tauto|]. intros (z & [= ->] & [= ->]). congruence. }
    unfold Js.callElevator. rewrite Ef, Et. unfold in_building in Hf, Ht. simpl.
    destruct (Z.ltb_spec f 1); [lia|].
    destruct (f >? totalFloors (Js.config s)) eqn:E2; [rewrite Z.gtb_ltb in E2; lia|].
    destruct (Z.ltb_spec t 1); [lia|].
    destruct (t >? totalFloors (Js.config s)) eqn:E4; [rewrite Z.gtb_ltb in E4; lia|].
    destruct (Z.eqb_spec f t); [contradiction|]. simpl.
    pose proof (Js_findBestElevator_db (Js.Int f) (Js.Int t) (Js.db s)) as Hdb.
    destruct (Js.findBestElevator (Js.Int f) (Js.Int t) (Js.db s)) as [d [err|best]];
      simpl in *; subst d.
    + split; [reflexivity|]. intros _. reflexivity.
    + split; [|discriminate].
      destruct (isMoving best); simpl; [reflexivity|].
      unfold Js.startElevatorMovement. simpl.
      destruct (decide (id best ∈ Js.activeMovements s)); reflexivity.
  - destruct (decide (in_building (Js.config s) f)) as [Hf|Hf]; [|left; left; exact Hf].
    right; right. split.
    { unfold passes_validation. rewrite Ef, Et. simpl.
      split; [tauto|]. split; [tauto|]. intros (z & _ & [=]). }
    unfold Js.callElevator. rewrite Ef, Et. unfold in_building in Hf. simpl.
    destruct (Z.ltb_spec f 1); [lia|].
    destruct (f >? totalFloors (Js.config s)) eqn:E2; [rewrite Z.gtb_ltb in E2; lia|].
    simpl.
    pose proof (Js_findBestElevator_db (Js.Int f) Js.NaN (Js.db s)) as Hdb.
    destruct (Js.findBestElevator (Js.Int f) Js.NaN (Js.db s)) as [d [err|best]];
      simpl in *; subst d.
    + split; [reflexivity|]. intros _. reflexivity.
    + split; [|discriminate].
      destruct (isMoving best); simpl; [reflexivity|].
      unfold Js.startElevatorMovement. simpl.
      destruct (decide (id best ∈ Js.activeMovements s)); reflexivity.
  - destruct (decide (in_building (Js.config s) t)) as [Ht|Ht]; [|left; right; exact Ht].
    right; right. split.
    { unfold passes_validation. rewrite Ef, Et. simpl.
      split; [tauto|]. split; [tauto|]. intros (z & [=] & _). }
    unfold Js.callElevator. rewrite Ef, Et. unfold in_building in Ht. simpl.
    destruct (Z.ltb_spec t 1); [lia|].
    destruct (t >? totalFloors (Js.config s)) eqn:E4; [rewrite Z.gtb_ltb in E4; lia|].
    simpl.
    pose proof (Js_findBestElevator_db Js.NaN (Js.Int t) (Js.db s)) as Hdb.
    destruct (Js.findBestElevator Js.NaN (Js.Int t) (Js.db s)) as [d [err|best]];
      simpl in *; subst d.
    + split; [reflexivity|]. intros _. reflexivity.
    + split; [|discriminate].
      destruct (isMoving best); simpl; [reflexivity|].
      unfold Js.startElevatorMovement. simpl.
      destruct (decide (id best ∈ Js.activeMovements s)); reflexivity.
  - right; right. split.
    { unfold passes_validation. rewrite Ef, Et. simpl.
      split; [tauto|]. split; [tauto|]. intros (z & [=] & _). }
    unfold Js.callElevator. rewrite Ef, Et. simpl.
    pose proof (Js_findBestElevator_db Js.NaN Js.NaN (Js.db s)) as Hdb.
    destruct (Js.findBestElevator Js.NaN Js.NaN (Js.db s)) as [d [err|best]];
      simpl in *; subst d.
    + split; [reflexivity|]. intros _. reflexivity.
    + split; [|discriminate].
      destruct (isMoving best); simpl; [reflexivity|].
      unfold Js.startElevatorMovement. simpl.
      destruct (decide (id best ∈ Js.activeMovements s)); reflexivity.
Qed.

(** On integer floors [Js.callElevator] is [Queued.callElevator]. *)
Lemma Js_score_elevator_Int f e :
  Js.score_elevator (Js.Int f) e = Js_scored (score_elevator f e).
Proof.
  unfold Js.score_elevator, score_elevator, Js_scored. simpl.
  destruct (decide (state e = idle)), (isMoving e), (direction e) as [dir|];
    simpl; try reflexivity;
    destruct (bool_decide (dir = up)), (bool_decide (dir = down)),
      (f >? currentFloor e), (f <? currentFloor e); reflexivity.
Qed.

Lemma Js_sort_insert_Int x l :
  Js.sort_insert Js.by_score (Js_scored x) (map Js_scored l)
  = map Js_scored (sort_insert by_score x l).
Proof.
  induction l as [|y l IH]; [reflexivity|].
  cbn [map Js.sort_insert sort_insert].
  change (Js.SortCompare Js.by_score (Js_scored x) (Js_scored y)) with (by_score x y).
  destruct (by_score x y <=? 0); [reflexivity|].
  cbn [map]. rewrite IH. reflexivity.
Qed.

Lemma Js_Array_sort_Int l :
  Js.Array_sort Js.by_score (map Js_scored l) = map Js_scored (Array_sort by_score l).
Proof.
  unfold Js.Array_sort, Array_sort. induction l as [|x l IH]; [reflexivity|].
  cbn [map foldr]. rewrite IH. apply Js_sort_insert_Int.
Qed.

Lemma Js_findBestElevator_Int f t d :
  Js.findBestElevator (Js.Int f) (Js.Int t) (Js_db d)
  = (Js_db (fst (findBestElevator f t d)), snd (findBestElevator f t d)).
Proof.
  unfold Js.findBestElevator, findBestElevator, Js.getAllElevators, getAllElevators.
  cbn [Js.elevators Js_db].
  rewrite (map_ext _ _ (Js_score_elevator_Int f)), <- (map_map (score_elevator f) Js_scored).
  rewrite Js_Array_sort_Int.
  destruct (Array_sort by_score (map (score_elevator f) (elevators d))) as [|best l];
    reflexivity.
Qed.

Lemma Js_call_legs_Int current f t :
  Js.call_legs current (Js.Int f) (Js.Int t) = map Js.Int (call_legs current f t).
Proof.
  unfold Js.call_legs, call_legs. simpl. destruct (current =? f); reflexivity.
Qed.

Lemma Js_callElevator_on_integers request s :
  Js.callElevator (Js_request request) (Js_service s)
  = (Js_service (fst (callElevator request s)), snd (callElevator request s)).
Proof.
  unfold Js.callElevator, callElevator.
  cbn [Js.fromFloor Js.toFloor Js.requestedBy Js_request Js.config Js_service
       Js.lt Js.gt Js.strict_eq].
  destruct ((fromFloor request <? 1) || (fromFloor request >? totalFloors (config s))
            || (toFloor request <? 1) || (toFloor request >? totalFloors (config s)));
    [reflexivity|].
  destruct (fromFloor request =? toFloor request); [reflexivity|].
  cbn [Js.db Js_service]. rewrite Js_findBestElevator_Int.
  destruct (findBestElevator (fromFloor request) (toFloor request) (db s))
    as [d [err|best]]; cbn [fst snd]; [reflexivity|].
  cbn. rewrite lookup_fmap, Js_call_legs_Int.
  set (queue := default [] (floorQueues s !! id best)
                ++ call_legs (currentFloor best) (fromFloor request) (toFloor request)).
  assert (Hq : default [] (map Js.Int <$> floorQueues s !! id best)
               ++ map Js.Int (call_legs (currentFloor best) (fromFloor request)
                                (toFloor request))
               = map Js.Int queue).
  { unfold queue. rewrite map_app. f_equal.
    destruct (floorQueues s !! id best); reflexivity. }
  rewrite Hq.
  assert (Hhead : head (map Js.Int queue) ≫= Js.stored = head queue)
    by (destruct queue; reflexivity).
  assert (Hdir : Js.direction_towards (currentFloor best) (head (map Js.Int queue))
                 = direction_towards (currentFloor best) (head queue))
    by (destruct queue; reflexivity).
  rewrite Hhead, Hdir.
  unfold Js.startElevatorMovement, startElevatorMovement.
  destruct (isMoving best); cbn;
    [|destruct (decide (id best ∈ activeMovements s)); cbn];
    unfold Js_service, Js_db; cbn; rewrite fmap_insert, map_app; reflexivity.
Qed.

Lemma Js_findBestElevator_inl fromFloor toFloor d err :
  snd (Js.findBestElevator fromFloor toFloor d) = inl err ->
  err = UndefinedElevator /\ Js.elevators d = [].
Proof.
  intros H. destruct (Js.elevators d) as [|r rows] eqn:Erows.
  - rewrite (Js_findBestElevator_empty _ _ _ Erows) in H. split; congruence.
  - destruct (Js_findBestElevator_nonempty fromFloor toFloor d) as (best & Hb);
      [congruence|]. congruence.
Qed.

(** A call is accepted exactly when it passes the two checks and the
    fleet has a row; a call that is not accepted leaves everything but the
    query log as it was. *)
Lemma Js_callElevator_outcome request s :
  ((exists result, snd (Js.callElevator request s) = inr result)
   <-> passes_validation (Js.config s) request /\ Js.elevators (Js.db s) <> [])
  /\ (forall err, snd (Js.callElevator request s) = inl err ->
                  Js_same_but_queries s (fst (Js.callElevator request s))).
Proof.
  destruct (Js_callElevator_cases request s)
    as [Hout|[(z & Hf & Ht & Hin)|(Hp & Hsnd & Hfst)]].
  - rewrite (Js_callElevator_range_error request s Hout). split.
    + split; [intros (result & H); discriminate|].
      intros [(H1 & H2 & _) _]. tauto.
    + intros err _. repeat split.
  - rewrite (Js_callElevator_same_floor_error request s z Hf Ht Hin). split.
    + split; [intros (result & H); discriminate|].
      intros [(_ & _ & H3) _]. destruct H3. eauto.
    + intros err _. repeat split.
  - destruct (snd (Js.findBestElevator (Js.fromFloor request) (Js.toFloor request)
                     (Js.db s))) as [e|best] eqn:Efind.
    + destruct (Js_findBestElevator_inl _ _ _ _ Efind) as [-> Hrows].
      rewrite Hsnd. split.
      * split; [intros (result & H); discriminate|]. intros [_ H]. contradiction.
      * intros err _. rewrite (Hfst eq_refl). repeat split.
    + rewrite Hsnd. split.
      * split; [|eauto]. intros _. split; [exact Hp|].
        intros Hrows.
        rewrite (Js_findBestElevator_empty _ _ _ Hrows) in Efind. discriminate.
      * discriminate.
Qed.

(** * The claims *)

(** ** C1: [isMoving] against [state] *)

(** C1, counterexample: one idle elevator at floor 1 is called from floor 1
    to floor 2; the first tick moves it to floor 2 and sets [isMoving], the
    second tick finds it at its target and [handleArrival] persists
    "doors_opening" without touching [isMoving], which is still [true]. *)
Lemma C1_counterexample_doors_opening_still_moving :
  ~ isMoving_iff_moving_state (run [call 1 2; Fire 0; Fire 0] (one_elevator 1)).
Proof.
  intros H.
  specialize (H (mkElevator "elevator-1" 2 (Some 2) doors_opening (Some up) true)).
  assert (Hrow : mkElevator "elevator-1" 2 (Some 2) doors_opening (Some up) true
                 ∈ elevators (db (run [call 1 2; Fire 0; Fire 0] (one_elevator 1)))).
  { vm_compute. constructor. }
  specialize (H Hrow). discriminate H.
Qed.

(** C1, amended: along every execution from an idle fleet, each persisted
    row has [isMoving] set when its state is moving_up or moving_down and
    clear when its state is idle, so a set flag means a moving state or a
    door phase; the three door-phase writes of [handleArrival] change the
    state only and persist the flag the elevator object carried on arrival
    (set after a move tick), also while the stop queue is non-empty. *)
Theorem C1_isMoving_agrees_outside_door_phases :
  forall (d : Db) (config : BuildingConfig) (acts : list Action),
    idle_fleet config (elevators d) ->
    (forall u, u ∈ elevators (db (run acts (new_ElevatorService d config))) ->
       (is_moving_state (state u) = true -> isMoving u = true)
       /\ (state u = idle -> isMoving u = false)
       /\ (isMoving u = true ->
           is_moving_state (state u) = true \/ is_door_phase (state u) = true))
    /\ (forall (e : Elevator) (s : Service) (u : Elevator),
          id u = id e ->
          (u ∈ elevators (db (handleArrival_opening e s)) ->
           state u = doors_opening /\ isMoving u = isMoving e)
          /\ (u ∈ elevators (db (handleArrival_open e s)) ->
              state u = doors_open /\ isMoving u = isMoving e)
          /\ (u ∈ elevators (db (handleArrival_closing e s)) ->
              state u = doors_closing /\ isMoving u = isMoving e)).
Proof.
  intros d config acts Hidle. split.
  - intros u Hu.
    pose proof (run_flags_agree d config acts Hidle) as H.
    unfold flags_agree in H. rewrite Forall_forall in H.
    destruct (H u Hu) as [Hmov Hidl]. split; [exact Hmov|]. split; [exact Hidl|].
    intros Hset. destruct (state u); simpl; auto.
    rewrite Hidl in Hset by reflexivity. discriminate.
  - intros e s u Hid.
    split; [|split]; intros Hu;
      unfold handleArrival_opening, handleArrival_open, handleArrival_closing in Hu;
      cbn in Hu;
      apply elem_of_update_rows in Hu as [[-> _]|[_ Hne]];
      solve [split; reflexivity | contradiction].
Qed.

Lemma C1_witness_doors_opening_row :
  idle_fleet test_config [mkElevator "elevator-1" 1 (Some 0) idle None false]
  /\ (isMoving (mkElevator "elevator-1" 2 (Some 2) doors_opening (Some up) true) = true ->
      is_moving_state doors_opening = true \/ is_door_phase doors_opening = true).
Proof.
  assert (Hidle : idle_fleet test_config
                    [mkElevator "elevator-1" 1 (Some 0) idle None false]).
  { apply Forall_singleton. unfold idle_row, in_building. simpl.
    repeat split; try reflexivity; lia. }
  split; [exact Hidle|].
  refine (proj2 (proj2 (proj1
    (C1_isMoving_agrees_outside_door_phases
       (mkDb [mkElevator "elevator-1" 1 (Some 0) idle None false] [] [])
       test_config [call 1 2; Fire 0; Fire 0] Hidle)
    (mkElevator "elevator-1" 2 (Some 2) doors_opening (Some up) true) _))).
  vm_compute. constructor.
Defined.

(** ** C2: dispatch scoring and selection *)

(** C2, counterexample: the row of the C1 counterexample is in a door
    phase with [isMoving] set and direction up; for a pickup at floor 1 the
    code adds the moving-away penalty to the distance term. *)
Lemma C2_counterexample_door_phase_penalised :
  let u := mkElevator "elevator-1" 2 (Some 2) doors_opening (Some up) true in
  u ∈ elevators (db (run [call 1 2; Fire 0; Fire 0] (one_elevator 1)))
  /\ is_door_phase (state u) = true
  /\ claimed_score 1 u = 10 * Z.abs (currentFloor u - 1)
  /\ dispatch_score 1 u <> claimed_score 1 u.
Proof.
  simpl. split; [vm_compute; constructor|].
  split; [reflexivity|]. split; [reflexivity|]. vm_compute. discriminate.
Qed.

(** C2, amended: the score of a unit is 10 × |currentFloor − pickupFloor|,
    minus 50 if its state is idle, and, independently of its state, when
    its [isMoving] flag is set and its direction is not null, minus 20 if
    that direction points toward the pickup floor and plus 30 otherwise; a
    door-phase unit receives only the distance term when its flag is clear
    or its direction is null; the score is the one the specification gives
    whenever a set flag comes with a moving state and a direction.  For a
    non-empty fleet the selector returns the first unit, in fleet order, of
    minimal score. *)
Theorem C2_first_unit_of_minimal_score :
  forall (d : Db) (fromFloor toFloor : Z),
    elevators d <> [] ->
    (forall u,
       dispatch_score fromFloor u =
       10 * Z.abs (currentFloor u - fromFloor)
       + (if decide (state u = idle) then -50 else 0)
       + (if isMoving u && bool_decide (direction u <> None)
          then if moving_towards fromFloor u then -20 else 30
          else 0))
    /\ (forall u,
          is_door_phase (state u) = true ->
          isMoving u = false \/ direction u = None ->
          dispatch_score fromFloor u = 10 * Z.abs (currentFloor u - fromFloor))
    /\ (forall u,
          (isMoving u = true ->
           is_moving_state (state u) = true /\ direction u <> None) ->
          dispatch_score fromFloor u = claimed_score fromFloor u)
    /\ exists i best,
         snd (findBestElevator fromFloor toFloor d) = inr best
         /\ elevators d !! i = Some best
         /\ (forall j u, elevators d !! j = Some u ->
               dispatch_score fromFloor best <= dispatch_score fromFloor u)
         /\ (forall j u, (j < i)%nat -> elevators d !! j = Some u ->
               dispatch_score fromFloor best < dispatch_score fromFloor u).
Proof.
  intros d fromFloor toFloor Hne.
  split; [intros u; apply dispatch_score_formula|].
  split; [|split].
  - intros u Hdoor Hflag. rewrite dispatch_score_formula.
    destruct (decide (state u = idle)) as [Hidle|_];
      [rewrite Hidle in Hdoor; discriminate|].
    destruct Hflag as [->| ->]; [simpl; lia|].
    rewrite andb_comm. simpl. lia.
  - intros u Hflag. rewrite dispatch_score_formula. unfold claimed_score.
    destruct (isMoving u) eqn:Hmov.
    + destruct (Hflag eq_refl) as [Hstate Hdir].
      rewrite bool_decide_eq_true_2 by exact Hdir.
      destruct (decide (state u = idle)) as [Hidle|_];
        [rewrite Hidle in Hstate; discriminate|].
      destruct (state u); try discriminate; simpl;
        destruct (moving_towards fromFloor u); lia.
    + simpl. destruct (decide (state u = idle)); [lia|].
      destruct (is_door_phase (state u)); lia.
  - apply findBestElevator_first_minimum. exact Hne.
Qed.

Lemma C2_witness_two_idle_units :
  [mkElevator "elevator-1" 5 (Some 0) idle None false;
   mkElevator "elevator-2" 1 (Some 0) idle None false] <> []
  /\ exists i best,
       snd (findBestElevator 1 3
              (mkDb [mkElevator "elevator-1" 5 (Some 0) idle None false;
                     mkElevator "elevator-2" 1 (Some 0) idle None false] [] []))
       = inr best
       /\ [mkElevator "elevator-1" 5 (Some 0) idle None false;
           mkElevator "elevator-2" 1 (Some 0) idle None false] !! i = Some best
       /\ (forall j u,
             [mkElevator "elevator-1" 5 (Some 0) idle None false;
              mkElevator "elevator-2" 1 (Some 0) idle None false] !! j = Some u ->
             dispatch_score 1 best <= dispatch_score 1 u)
       /\ (forall j u, (j < i)%nat ->
             [mkElevator "elevator-1" 5 (Some 0) idle None false;
              mkElevator "elevator-2" 1 (Some 0) idle None false] !! j = Some u ->
             dispatch_score 1 best < dispatch_score 1 u).
Proof.
  split; [discriminate|].
  exact (proj2 (proj2 (proj2
    (C2_first_unit_of_minimal_score
       (mkDb [mkElevator "elevator-1" 5 (Some 0) idle None false;
              mkElevator "elevator-2" 1 (Some 0) idle None false] [] [])
       1 3 ltac:(discriminate))))).
Defined.

(** The selection of the test "should select the best elevator based on
    scoring algorithm": of two idle units at floors 5 and 1, a call from
    floor 1 selects the unit at floor 1. *)
Example findBestElevator_closest_idle :
  snd (findBestElevator 1 3
         (mkDb [mkElevator "elevator-1" 5 (Some 0) idle None false;
                mkElevator "elevator-2" 1 (Some 0) idle None false] [] []))
  = inr (mkElevator "elevator-2" 1 (Some 0) idle None false).
Proof. reflexivity. Qed.

(** ** C3: validation *)

(** C3 fails at a request whose two floors are NaN, which is what the
    handler of POST /call passes on for body values that do not parse as
    integers.  NaN is no floor of the building, but the two checks of
    [callElevator], written to reject what is no floor, compare and so miss
    it: the call is answered by the first elevator, its queue receives both
    NaN floors, its row is written with a NULL target, the event is logged
    and a [moveElevator] is started. *)
Lemma C3_NaN_floors_are_accepted :
  let s := Js_service (one_elevator 1) in
  let request := Js.mkElevatorRequest Js.NaN Js.NaN None in
  ~ number_in_building (Js.config s) (Js.fromFloor request)
  /\ ~ number_in_building (Js.config s) (Js.toFloor request)
  /\ (exists result,
        snd (Js.callElevator request s) = inr result
        /\ res_elevatorId result = "elevator-1"%string)
  /\ Js.floorQueues (fst (Js.callElevator request s)) !! "elevator-1"%string
     = Some [Js.NaN; Js.NaN]
  /\ Js.elevators (Js.db (fst (Js.callElevator request s)))
     = [mkElevator "elevator-1" 1 None idle (Some down) false]
  /\ Js.elevator_logs (Js.db (fst (Js.callElevator request s)))
     = [Js.mkElevatorLog "elevator-1" "elevator_called" Js.NaN Js.NaN idle (Some down)
          (Js.CalledFromToBy Js.NaN Js.NaN "anonymous")]
  /\ Js.timers (fst (Js.callElevator request s)) = [MoveElevator "elevator-1"].
Proof.
  split; [intros []|]. split; [intros []|].
  split; [eexists; split; vm_compute; reflexivity|].
  repeat split; vm_compute; reflexivity.
Qed.

(** ** C4: the estimate *)




(** The second estimate of the test suite: an idle unit at floor 3 and a
    call from floor 1 to floor 5 give (2 + 4) × 1 + 0.5 × 2 = 7. *)
Example estimate_idle_unit_at_floor_3 :
  exists result,
    snd (callElevator (mkElevatorRequest 1 5 None) (one_elevator 3)) = inr result
    /\ estimatedTime result = 7%float.
Proof. eexists. split; vm_compute; reflexivity. Qed.

(** ** C5: serving the queue in order *)

(** C5 fails on the following run.  The unit, moving towards floor 2 for the call
    2 -> 3, accepts the calls 2 -> 4 and 4 -> 5 in a row, and its queue is
    [2; 3; 4; 4; 5].  It serves 2, 3 and 4, and enters the door cycle of the
    second 4 without a move, so with [isMoving] false; the call 6 -> 7 that
    arrives during that cycle therefore starts a second chain.  Both chains
    pop the queue, and when they have ended the doors have opened at
    2, 3, 4, 4, 4, 6 and 7: the queued floor 5 was popped unvisited. *)
Lemma C5_second_chain_drops_a_queued_floor :
  let moving := run [call 2 3; Fire 0] (one_elevator 1) in
  let queued := run [call 2 4; call 4 5] moving in
  let final := run (fires 18 ++ [call 6 7] ++ fires 23) queued in
  select_by_id "elevator-1" (elevators (db moving))
  = Some (mkElevator "elevator-1" 2 (Some 2) moving_up (Some up) true)
  /\ accepted_by (mkElevatorRequest 2 4 None) moving = Some "elevator-1"%string
  /\ accepted_by (mkElevatorRequest 4 5 None) (perform (call 2 4) moving)
     = Some "elevator-1"%string
  /\ queue_of queued "elevator-1" = [2; 3; 4; 4; 5]
  /\ timers queued = [MoveElevator "elevator-1"]
  /\ timers final = []
  /\ queue_of final "elevator-1" = []
  /\ visited "elevator-1" (elevator_logs (db final)) = [2; 3; 4; 4; 4; 6; 7]
  /\ 5 ∉ visited "elevator-1" (elevator_logs (db final)).
Proof.
  assert (Hvisited :
    visited "elevator-1"
      (elevator_logs
         (db (run (fires 18 ++ [call 6 7] ++ fires 23)
                (run [call 2 4; call 4 5]
                   (run [call 2 3; Fire 0] (one_elevator 1))))))
    = [2; 3; 4; 4; 4; 6; 7]) by (vm_compute; reflexivity).
  cbv zeta. rewrite Hvisited.
  repeat split; try (vm_compute; reflexivity).
  intros H. repeat (apply elem_of_cons in H as [H|H]; [discriminate|]).
  inversion H.
Qed.

(** ** C6: [targetFloor] against the head of the queue *)




(** Why C6 is stated for executions with one chain per elevator: two calls
    accepted before the first tick start two chains for the same elevator
    ([isMoving] is still false and no timer is registered yet); once one of
    them has popped floor 2 and promoted floor 3, the door phase of the
    other persists its own elevator object, whose targetFloor is still 2. *)
Example two_chains_persist_a_stale_target :
  let s := run [call 1 2; call 1 3; Fire 0; Fire 0; Fire 0; Fire 0;
                Fire 1; Fire 1; Fire 1; Fire 0] (one_elevator 1) in
  elevators (db s) = [mkElevator "elevator-1" 2 (Some 2) doors_open (Some up) true]
  /\ floorQueues s !! "elevator-1"%string = Some [3]
  /\ ~ single_chain (run [call 1 2; call 1 3] (one_elevator 1)).
Proof.
  split; [vm_compute; reflexivity|]. split; [vm_compute; reflexivity|].
  intros H. apply NoDup_cons in H as [H _]. apply H. vm_compute. constructor.
Qed.

(** ** C7: the boundary branch of [moveElevator] *)

(** C7, as stated, fails: the configuration is not part of what a call
    validates.  A unit that validated calls and one-floor ticks have taken to
    floor 9 of ten stands idle there when [updateBuildingConfig] lowers
    totalFloors to 5; the next call, 2 -> 3, is valid, the unit accepts it,
    and its first tick, whose step would lead to floor 8, takes the
    boundary branch. *)
Lemma C7_counterexample_top_floor_lowered_below_a_unit :
  let s0 := run (call 1 9 :: fires 13) (one_elevator 1) in
  let s1 := updateBuildingConfig (mkPartialBuildingConfig (Some 5) None None) s0 in
  let request := mkElevatorRequest 2 3 None in
  let s2 := perform (Call request) s1 in
  idle_fleet (config (one_elevator 1)) (elevators (db (one_elevator 1)))
  /\ elevators (db s0) = [mkElevator "elevator-1" 9 (Some 0) idle None false]
  /\ timers s0 = []
  /\ valid_request (config s1) request
  /\ accepted_by request s1 = Some "elevator-1"%string
  /\ timers s2 = [MoveElevator "elevator-1"]
  /\ (exists e, select_by_id "elevator-1" (elevators (db s2)) = Some e
                /\ boundary_branch (config s2) e = true)
  /\ elevators (db (fire 0 s2)) = [mkElevator "elevator-1" 9 (Some 1) idle None false]
  /\ last (elevator_logs (db (fire 0 s2)))
     = Some (mkElevatorLog "elevator-1" "elevator_idle" 9 9 idle None
               InvalidFloorBoundary)
  /\ timers (fire 0 s2) = [].
Proof.
  cbv zeta.
  split. { apply Forall_singleton. unfold idle_row, in_building. simpl.
           split; [reflexivity|]. split; [reflexivity|]. split; [reflexivity|lia]. }
  split; [vm_compute; reflexivity|]. split; [vm_compute; reflexivity|].
  split. { unfold valid_request, in_building. simpl. lia. }
  split; [vm_compute; reflexivity|]. split; [vm_compute; reflexivity|].
  split; [eexists; split; vm_compute; reflexivity|].
  split; [vm_compute; reflexivity|]. split; vm_compute; reflexivity.
Qed.

(** C7 (amended): when the tick of a unit finds that one more floor in its direction
    leaves [1, totalFloors], the unit is not moved: its row is written with
    state idle, isMoving false, direction null and targetFloor 1 on its
    current floor, an "elevator_idle" event with the invalid-floor-boundary
    detail is recorded, the id is taken out of [activeMovements] and no
    further tick is scheduled; and along every execution from an idle fleet
    (validated calls, one-floor ticks, configuration unchanged) no row ever
    satisfies the guard of that branch. *)
Theorem C7_boundary_branch_effect_and_unreachable :
  (forall (s : Service) (k : nat) (i : string) (e : Elevator),
     timers s !! k = Some (MoveElevator i) ->
     select_by_id i (elevators (db s)) = Some e ->
     boundary_branch (config s) e = true ->
     elevators (db (fire k s)) =
       update_rows (mkElevator (id e) (currentFloor e) (Some 1) idle None false)
         (elevators (db s))
     /\ elevator_logs (db (fire k s)) =
          elevator_logs (db s) ++
          [mkElevatorLog (id e) "elevator_idle" (currentFloor e) (currentFloor e)
             idle None InvalidFloorBoundary]
     /\ timers (fire k s) = delete k (timers s)
     /\ (i ∉ activeMovements (fire k s))
     /\ floorQueues (fire k s) = floorQueues s)
  /\ (forall (d : Db) (config : BuildingConfig) (acts : list Action) (u : Elevator),
        idle_fleet config (elevators d) ->
        u ∈ elevators (db (run acts (new_ElevatorService d config))) ->
        boundary_branch config u = false
        /\ in_building config (currentFloor u)).
Proof.
  split.
  - intros s k i e Hk He Hb.
    unfold fire. rewrite Hk. simpl.
    rewrite (moveElevator_boundary i _ e) by assumption. cbn.
    split; [reflexivity|]. split; [reflexivity|]. split; [reflexivity|].
    split; [|reflexivity].
    rewrite elem_of_difference, elem_of_singleton. tauto.
  - intros d config acts u Hidle Hu.
    destruct (run_building_ok d config acts Hidle) as (_ & Hrows & _).
    rewrite Forall_forall in Hrows. specialize (Hrows u Hu).
    split; [apply heading_ok_no_boundary; exact Hrows|exact (proj1 Hrows)].
Qed.

Lemma C7_witness_forced_boundary_and_reachable_row :
  (let s := mkService
              (mkDb [mkElevator "elevator-1" 10 (Some 5) moving_up (Some up) true] [] [])
              test_config {["elevator-1"%string]} ∅ [MoveElevator "elevator-1"] in
   elevators (db (fire 0 s)) =
     [mkElevator "elevator-1" 10 (Some 1) idle None false]
   /\ timers (fire 0 s) = [])
  /\ boundary_branch test_config
       (mkElevator "elevator-1" 2 (Some 2) doors_opening (Some up) true) = false.
Proof.
  split.
  - pose proof (proj1 C7_boundary_branch_effect_and_unreachable
        (mkService
           (mkDb [mkElevator "elevator-1" 10 (Some 5) moving_up (Some up) true] [] [])
           test_config {["elevator-1"%string]} ∅ [MoveElevator "elevator-1"])
        0%nat "elevator-1"%string
        (mkElevator "elevator-1" 10 (Some 5) moving_up (Some up) true)
        eq_refl eq_refl eq_refl) as (Hrows & _ & Htimers & _).
    split; [exact Hrows|exact Htimers].
  - refine (proj1 (proj2 C7_boundary_branch_effect_and_unreachable
        (mkDb [mkElevator "elevator-1" 1 (Some 0) idle None false] [] [])
        test_config [call 1 2; Fire 0; Fire 0]
        (mkElevator "elevator-1" 2 (Some 2) doors_opening (Some up) true) _ _)).
    + apply Forall_singleton. unfold idle_row, in_building. simpl.
      repeat split; try reflexivity; lia.
    + vm_compute. constructor.
Defined.

(** ** C8: the end of a journey *)

(** C8: when the tick of a unit finds it at its target and the queue holds
    nothing beyond the floor being served, the chain persists
    doors_opening, doors_open and doors_closing in turn, then the row
    (state idle, targetFloor 0, direction null, isMoving false) together
    with an "elevator_idle" event, which is the last event recorded; the
    step that pops the queue writes nothing more and leaves no pending
    tick. *)
Theorem C8_full_journey_ends_idle :
  forall (s : Service) (i : string) (e : Elevator),
    timers s = [MoveElevator i] ->
    select_by_id i (elevators (db s)) = Some e ->
    truthy_floor (targetFloor e) = true ->
    at_target e = true ->
    tail (queue_of s i) = [] ->
    select_by_id i (elevators (db (run (fires 1) s))) = Some (with_state doors_opening e)
    /\ select_by_id i (elevators (db (run (fires 2) s))) = Some (with_state doors_open e)
    /\ select_by_id i (elevators (db (run (fires 3) s))) = Some (with_state doors_closing e)
    /\ select_by_id i (elevators (db (run (fires 4) s)))
       = Some (mkElevator i (currentFloor e) (Some 0) idle None false)
    /\ elevators (db (run (fires 5) s)) = elevators (db (run (fires 4) s))
    /\ last (elevator_logs (db (run (fires 5) s)))
       = Some (mkElevatorLog i "elevator_idle" (currentFloor e) (currentFloor e)
                 idle None (IdleAt (currentFloor e)))
    /\ timers (run (fires 5) s) = []
    /\ queue_of (run (fires 5) s) i = [].
Proof.
  intros s i e Ht He Htruthy Hat Hq.
  destruct (select_by_id_Some _ _ _ He) as [_ Hid].
  destruct (door_cycle s i e Ht He Htruthy Hat)
    as (H1 & H2 & H3 & H4 & Ht4 & _ & Hq4 & _ & Hlog4).
  assert (Hq' : tail (queue_of (run (fires 4) s) (id (idle_reset e))) = []).
  { unfold queue_of. rewrite Hq4. simpl. rewrite Hid. exact Hq. }
  destruct (chain_end _ _ Ht4 Hq') as (Hrows5 & Hlog5 & Ht5 & _ & Hq5).
  rewrite (run_fires_S 4).
  split; [exact H1|]. split; [exact H2|]. split; [exact H3|].
  split; [rewrite H4; unfold idle_reset; rewrite Hid; reflexivity|].
  split; [exact Hrows5|].
  split; [|split; [exact Ht5|simpl in Hq5; rewrite Hid in Hq5; exact Hq5]].
  rewrite Hlog5, Hlog4. unfold door_events.
  rewrite last_app_cons. simpl.
  unfold door_log, idle_reset. simpl. rewrite Hid. reflexivity.
Qed.

Lemma C8_witness_journey_1_to_2 :
  let s := run [call 1 2; Fire 0] (one_elevator 1) in
  select_by_id "elevator-1" (elevators (db (run (fires 4) s)))
  = Some (mkElevator "elevator-1" 2 (Some 0) idle None false)
  /\ elevators (db (run (fires 5) s)) = elevators (db (run (fires 4) s))
  /\ last (elevator_logs (db (run (fires 5) s)))
     = Some (mkElevatorLog "elevator-1" "elevator_idle" 2 2 idle None (IdleAt 2))
  /\ timers (run (fires 5) s) = [].
Proof.
  intros s.
  pose proof (C8_full_journey_ends_idle s "elevator-1"
                (mkElevator "elevator-1" 2 (Some 2) moving_up (Some up) true)
                ltac:(vm_compute; reflexivity) ltac:(vm_compute; reflexivity)
                eq_refl eq_refl ltac:(vm_compute; reflexivity))
    as (_ & _ & _ & H4 & H5 & Hlast & Ht & _).
  split; [exact H4|]. split; [exact H5|]. split; [exact Hlast|exact Ht].
Defined.

(** ** C9: the selector on non-empty and empty fleets *)

(** C9, as stated, fails in its second half: on an empty fleet the selector
    fails, but not with an error of the service.  Neither [findBestElevator]
    nor [callElevator] tests for an empty fleet; what surfaces is the
    TypeError of reading [.elevator] of [scoredElevators[0]]. *)
Lemma C9_counterexample_empty_fleet_fails_with_a_TypeError :
  let s := new_ElevatorService (mkDb [] [] []) test_config in
  valid_request (config s) (mkElevatorRequest 1 5 None)
  /\ exists err,
       snd (findBestElevator 1 5 (db s)) = inl err
       /\ snd (callElevator (mkElevatorRequest 1 5 None) s) = inl err
       /\ err = UndefinedElevator
       /\ thrown_by_service err = false.
Proof.
  split.
  - unfold valid_request, in_building. simpl. lia.
  - exists UndefinedElevator. repeat split.
Qed.

(** C9 (amended): on a non-empty fleet [findBestElevator] returns one unit
    of the fleet, and a validated call is then accepted; on an empty fleet it
    fails, with the TypeError raised by reading [.elevator] of
    [scoredElevators[0]], and so does the call. *)
Theorem C9_selector_total_on_nonempty_fleet :
  forall (s : Service) (request : ElevatorRequest),
    valid_request (config s) request ->
    (elevators (db s) <> [] ->
     exists best,
       snd (findBestElevator (fromFloor request) (toFloor request) (db s)) = inr best
       /\ best ∈ elevators (db s)
       /\ exists estimate,
            snd (callElevator request s) = inr (mkCallResult (id best) estimate))
    /\ (elevators (db s) = [] ->
        snd (findBestElevator (fromFloor request) (toFloor request) (db s))
        = inl UndefinedElevator
        /\ snd (callElevator request s) = inl UndefinedElevator).
Proof.
  intros s request Hvalid.
  pose proof (callElevator_valid request s Hvalid) as Hcall.
  split; intros Hfleet.
  - destruct (findBestElevator_first_minimum (fromFloor request) (toFloor request)
                (db s) Hfleet) as (i & best & Hbest & Hi & _).
    rewrite Hbest in Hcall. exists best. split; [exact Hbest|].
    split; [apply list_elem_of_lookup; exists i; exact Hi|].
    eexists. exact (proj1 Hcall).
  - pose proof (findBestElevator_empty (fromFloor request) (toFloor request)
                  (db s) Hfleet) as Hbest.
    rewrite Hbest in Hcall. split; [exact Hbest|exact (proj1 Hcall)].
Qed.

Lemma C9_witness_empty_and_single_fleet :
  valid_request test_config (mkElevatorRequest 1 5 None)
  /\ snd (callElevator (mkElevatorRequest 1 5 None)
            (new_ElevatorService (mkDb [] [] []) test_config))
     = inl UndefinedElevator
  /\ exists best,
       snd (findBestElevator 1 5 (db (one_elevator 1))) = inr best
       /\ best ∈ elevators (db (one_elevator 1))
       /\ exists estimate,
            snd (callElevator (mkElevatorRequest 1 5 None) (one_elevator 1))
            = inr (mkCallResult (id best) estimate).
Proof.
  assert (Hvalid : valid_request test_config (mkElevatorRequest 1 5 None)).
  { unfold valid_request, in_building. simpl. lia. }
  split; [exact Hvalid|]. split.
  - exact (proj2 (proj2 (C9_selector_total_on_nonempty_fleet
             (new_ElevatorService (mkDb [] [] []) test_config)
             (mkElevatorRequest 1 5 None) Hvalid) eq_refl)).
  - exact (proj1 (C9_selector_total_on_nonempty_fleet
             (one_elevator 1) (mkElevatorRequest 1 5 None) Hvalid)
             ltac:(discriminate)).
Defined.

(** ** C10: the two service modules agree on dispatch and estimation *)

(** C10: [findBestElevator] and [calculateEstimatedTime] of
    [src/services/ElevatorService.ts] and of the queue-based service return
    the same result on the same store, floors, elevator and configuration. *)
Theorem C10_services_agree_on_dispatch_and_estimate :
  forall (d : Db) (config : BuildingConfig) (e : Elevator) (fromFloor toFloor : Z),
    Simple.findBestElevator fromFloor toFloor d
    = Queued.findBestElevator fromFloor toFloor d
    /\ Simple.calculateEstimatedTime config e fromFloor toFloor
       = Queued.calculateEstimatedTime config e fromFloor toFloor.
Proof.
  intros d config e fromFloor toFloor. split.
  - unfold Simple.findBestElevator, Queued.findBestElevator.
    destruct (getAllElevators d) as [d' rows].
    assert (Hscore : forall u, Simple.score_elevator fromFloor u
                               = Queued.score_elevator fromFloor u).
    { intros u. unfold Simple.score_elevator, Queued.score_elevator. reflexivity. }
    rewrite (map_ext _ _ Hscore). reflexivity.
  - unfold Simple.calculateEstimatedTime, Queued.calculateEstimatedTime. reflexivity.
Qed.

(** * Further properties of the code *)

(** ** The store: writing and reading back a row *)

Lemma update_rows_unknown e rows :
  select_by_id (id e) rows = None -> update_rows e rows = rows.
Proof.
  intros H. unfold update_rows.
  induction rows as [|r rows IH]; simpl in *; [reflexivity|].
  destruct (String.eqb_spec (id r) (id e)) as [Heq|Hne]; [discriminate|].
  rewrite (IH H). reflexivity.
Qed.

(** X1: [updateElevator] followed by [getElevator] on the same id returns
    the row written when the table has that id; when it has not, the
    update changes no row; the rows of every other id read as before, and
    the ids of the table and their order never change. *)
Theorem X1_updateElevator_then_getElevator :
  forall (e : Elevator) (d : Db) (i : string),
    (known_id (id e) (elevators d) ->
     snd (getElevator (id e) (updateElevator e d)) = Some e)
    /\ (~ known_id (id e) (elevators d) ->
        elevators (updateElevator e d) = elevators d)
    /\ (i <> id e ->
        snd (getElevator i (updateElevator e d)) = snd (getElevator i d))
    /\ map id (elevators (updateElevator e d)) = map id (elevators d).
Proof.
  intros e d i. unfold known_id. simpl. split; [|split; [|split]].
  - intros H. apply select_by_id_update; [reflexivity|exact H].
  - intros H. apply update_rows_unknown.
    destruct (select_by_id (id e) (elevators d)); [exfalso; apply H; discriminate|reflexivity].
  - intros H. apply select_by_id_update_ne. congruence.
  - apply map_id_update_rows.
Qed.

Lemma X1_witness_default_fleet :
  snd (getElevator "elevator-2"
         (updateElevator (mkElevator "elevator-2" 4 (Some 7) moving_up (Some up) true)
            (mkDb initializeDefaultElevators [] [])))
  = Some (mkElevator "elevator-2" 4 (Some 7) moving_up (Some up) true)
  /\ elevators (updateElevator (mkElevator "elevator-9" 4 (Some 7) moving_up (Some up) true)
                  (mkDb initializeDefaultElevators [] []))
     = initializeDefaultElevators
  /\ snd (getElevator "elevator-1"
            (updateElevator (mkElevator "elevator-2" 4 (Some 7) moving_up (Some up) true)
               (mkDb initializeDefaultElevators [] [])))
     = Some (default_elevator "elevator-1").
Proof.
  split; [|split].
  - refine (proj1 (X1_updateElevator_then_getElevator
                     (mkElevator "elevator-2" 4 (Some 7) moving_up (Some up) true)
                     (mkDb initializeDefaultElevators [] []) "elevator-1") _).
    unfold known_id. vm_compute. discriminate.
  - refine (proj1 (proj2 (X1_updateElevator_then_getElevator
                     (mkElevator "elevator-9" 4 (Some 7) moving_up (Some up) true)
                     (mkDb initializeDefaultElevators [] []) "elevator-1")) _).
    unfold known_id. vm_compute. intros H. apply H. reflexivity.
  - refine (proj1 (proj2 (proj2 (X1_updateElevator_then_getElevator
                     (mkElevator "elevator-2" 4 (Some 7) moving_up (Some up) true)
                     (mkDb initializeDefaultElevators [] []) "elevator-1"))) _).
    vm_compute. discriminate.
Defined.

(** ** The fleet and the logs along an execution *)

Ltac grown :=
  cbn; rewrite ?map_id_update_rows;
  repeat split; repeat apply prefix_app_r; reflexivity.

Lemma resume_keeps_fleet_and_logs k s : keeps_fleet_and_logs s (resume k s).
Proof.
  unfold keeps_fleet_and_logs.
  destruct k as [i|e|e|e|e]; simpl.
  - unfold moveElevator. cbn.
    destruct (select_by_id i (elevators (db s))) as [e|]; [|grown].
    destruct (truthy_floor (targetFloor e)); cbn; [|grown].
    destruct (at_target e); cbn; [grown|].
    match goal with |- context [if ?b then _ else _] => destruct b end; grown.
  - grown.
  - grown.
  - grown.
  - unfold moveElevator_continue.
    destruct (floorQueues s !! id e) as [[|served [|next q]]|]; cbn; try grown.
    unfold startElevatorMovement. destruct (decide _); grown.
Qed.

Lemma perform_keeps_fleet_and_logs a s : keeps_fleet_and_logs s (perform a s).
Proof.
  destruct a as [request|i].
  - simpl.
    destruct (decide (in_building (config s) (fromFloor request))) as [H1|H1];
      [|rewrite callElevator_range_error by (left; exact H1); repeat split; reflexivity].
    destruct (decide (in_building (config s) (toFloor request))) as [H2|H2];
      [|rewrite callElevator_range_error by (right; exact H2); repeat split; reflexivity].
    destruct (decide (fromFloor request = toFloor request)) as [H3|H3];
      [rewrite (callElevator_same_floor_error request s H1 H2 H3);
       repeat split; reflexivity|].
    pose proof (callElevator_valid request s (conj H1 (conj H2 H3))) as Hv.
    destruct (snd (findBestElevator _ _ _)) as [err|best].
    + destruct Hv as [_ ->]. grown.
    + destruct Hv as [_ [Arows Alogs Aqueries _ _ _ _]].
      unfold keeps_fleet_and_logs. rewrite Arows, Alogs, Aqueries, map_id_update_rows.
      repeat split; apply prefix_app_r; reflexivity.
  - simpl. destruct (fire_cases i s) as [[_ ->]|(k & _ & ->)];
      [repeat split; reflexivity|].
    exact (resume_keeps_fleet_and_logs k (taken i s)).
Qed.

(** X2: along every execution of calls and ticks, from any state, the
    table keeps exactly its elevators in their order (no row is added,
    removed or moved), and the event log and the query log only grow: what
    was logged before is a prefix of what is logged after. *)
Theorem X2_fleet_fixed_and_logs_append_only :
  forall (acts : list Action) (s : Service),
    map id (elevators (db (run acts s))) = map id (elevators (db s))
    /\ elevator_logs (db s) `prefix_of` elevator_logs (db (run acts s))
    /\ query_logs (db s) `prefix_of` query_logs (db (run acts s)).
Proof.
  intros acts. induction acts as [|a acts IH]; intros s.
  - repeat split; reflexivity.
  - simpl. destruct (IH (perform a s)) as (Hids & Hlogs & Hqueries).
    destruct (perform_keeps_fleet_and_logs a s) as (Hids' & Hlogs' & Hqueries').
    split; [congruence|]. split; etransitivity; eassumption.
Qed.

(** ** Ties in the dispatch score *)

Lemma findBestElevator_first_when_minimal fromFloor toFloor d first rest :
  elevators d = first :: rest ->
  (forall u, u ∈ rest -> dispatch_score fromFloor first <= dispatch_score fromFloor u) ->
  snd (findBestElevator fromFloor toFloor d) = inr first.
Proof.
  intros Hrows Hmin.
  destruct (findBestElevator_first_minimum fromFloor toFloor d)
    as (i & best & Hbest & Hi & _ & Hfirst); [rewrite Hrows; discriminate|].
  rewrite Hbest. f_equal.
  destruct i as [|i].
  - rewrite Hrows in Hi. simpl in Hi. congruence.
  - exfalso.
    assert (Hlt : dispatch_score fromFloor best < dispatch_score fromFloor first).
    { apply (Hfirst 0%nat); [lia|]. rewrite Hrows. reflexivity. }
    assert (Hin : best ∈ rest).
    { rewrite Hrows in Hi. simpl in Hi. apply list_elem_of_lookup. exists i. exact Hi. }
    specialize (Hmin best Hin). lia.
Qed.

(** X3: when no unit of the fleet scores below the first row, a call is
    given to the first row (ties are broken by table order); so on the
    fleet that [initializeDefaultElevators] creates, five idle units at
    floor 1, every validated call is answered by "elevator-1". *)
Theorem X3_ties_go_to_the_first_row :
  (forall (d : Db) (fromFloor toFloor : Z) (first : Elevator) (rest : list Elevator),
     elevators d = first :: rest ->
     (forall u, u ∈ rest ->
        dispatch_score fromFloor first <= dispatch_score fromFloor u) ->
     snd (findBestElevator fromFloor toFloor d) = inr first)
  /\ (forall (config : BuildingConfig) (request : ElevatorRequest)
        (logs : list ElevatorLog) (queries : list string),
        valid_request config request ->
        accepted_by request
          (new_ElevatorService (mkDb initializeDefaultElevators logs queries) config)
        = Some "elevator-1"%string).
Proof.
  split; [intros d fromFloor toFloor; apply findBestElevator_first_when_minimal|].
  intros config request logs queries Hvalid.
  set (s := new_ElevatorService (mkDb initializeDefaultElevators logs queries) config).
  pose proof (callElevator_valid request s Hvalid) as Hcall.
  assert (Hbest : snd (findBestElevator (fromFloor request) (toFloor request) (db s))
                  = inr (default_elevator "elevator-1")).
  { apply (findBestElevator_first_when_minimal _ _ _ _
             (map default_elevator
                ["elevator-2"; "elevator-3"; "elevator-4"; "elevator-5"]%string));
      [reflexivity|].
    intros u Hu. apply list_elem_of_fmap in Hu as (i & -> & _).
    rewrite !dispatch_score_formula. simpl. lia. }
  rewrite Hbest in Hcall. unfold accepted_by. rewrite (proj1 Hcall). reflexivity.
Qed.

Lemma X3_witness_default_fleet_call :
  valid_request test_config (mkElevatorRequest 3 7 None)
  /\ accepted_by (mkElevatorRequest 3 7 None)
       (new_ElevatorService (mkDb initializeDefaultElevators [] []) test_config)
     = Some "elevator-1"%string.
Proof.
  assert (Hvalid : valid_request test_config (mkElevatorRequest 3 7 None)).
  { unfold valid_request, in_building. simpl. lia. }
  split; [exact Hvalid|].
  exact (proj2 X3_ties_go_to_the_first_row test_config (mkElevatorRequest 3 7 None)
           [] [] Hvalid).
Defined.

(** ** A call on an idle fleet, from acceptance to idle *)

Lemma floors_travelled_app i l1 l2 :
  floors_travelled i (l1 ++ l2) = (floors_travelled i l1 + floors_travelled i l2)%nat.
Proof. unfold floors_travelled. rewrite List.filter_app, length_app. reflexivity. Qed.

Lemma floors_travelled_door_events i e : floors_travelled i (door_events e) = 0%nat.
Proof.
  unfold floors_travelled, door_events, is_move, door_log. simpl.
  rewrite !andb_false_r. reflexivity.
Qed.

Lemma approach_moves cfg i n :
  forall s e t,
    config s = cfg ->
    timers s = [MoveElevator i] ->
    select_by_id i (elevators (db s)) = Some e ->
    heading_ok cfg e ->
    targetFloor e = Some t ->
    in_building cfg t ->
    Z.to_nat (Z.abs (currentFloor e - t)) = n ->
    floors_travelled i (elevator_logs (db (run (fires n) s)))
    = (floors_travelled i (elevator_logs (db s)) + n)%nat.
Proof.
  induction n as [|n IH]; intros s e t Hcfg Ht He Hok Htarget Hin Hdist.
  - simpl. lia.
  - assert (Htruthy : truthy_floor (targetFloor e) = true).
    { rewrite Htarget. unfold in_building in Hin. simpl.
      destruct (Z.eqb_spec t 0); [lia|reflexivity]. }
    assert (Hat : at_target e = false).
    { unfold at_target. rewrite Htarget.
      destruct (Z.eqb_spec (currentFloor e) t); [lia|reflexivity]. }
    assert (Hleave : leaves_building (config s) e = false).
    { pose proof (heading_ok_no_boundary cfg e Hok) as Hb.
      unfold boundary_branch in Hb. rewrite Htruthy, Hat in Hb.
      rewrite Hcfg. exact Hb. }
    destruct (move_tick s i e Ht He Htruthy Hat Hleave)
      as (Ht' & He' & Hq' & Hcfg' & Hlog').
    destruct (select_by_id_Some _ _ _ He) as [_ Hid].
    change (run (fires (S n)) s) with (run (fires n) (fire 0 s)).
    rewrite (IH (fire 0 s) (moved e) t).
    + rewrite Hlog', floors_travelled_app.
      unfold floors_travelled at 2, is_move. simpl.
      rewrite Hid, String.eqb_refl. simpl. lia.
    + congruence.
    + exact Ht'.
    + exact He'.
    + exact (heading_ok_step cfg e Hok Htruthy Hat).
    + exact Htarget.
    + exact Hin.
    + simpl. unfold next_floor.
      destruct Hok as [_ Hhead]. rewrite Htarget in Hhead.
      unfold at_target in Hat. rewrite Htarget in Hat.
      destruct (Z.eqb_spec (currentFloor e) t) as [|Hne]; [discriminate|].
      unfold in_building in Hin.
      destruct Hhead as [Hz|[Heq|[_ Hdir]]]; [lia|lia|].
      destruct (decide (direction e = Some up)) as [Hup|Hup].
      * apply Hdir in Hup. lia.
      * assert (t < currentFloor e)
          by (destruct (Z.lt_ge_cases (currentFloor e) t) as [Hlt|];
              [apply Hdir in Hlt; contradiction|lia]).
        lia.
Qed.

Lemma serve_head_full cfg i c t q' s :
  serving cfg i (t :: q') s ->
  (exists e, select_by_id i (elevators (db s)) = Some e /\ currentFloor e = c) ->
  exists n,
    visited i (elevator_logs (db (run (fires n) s)))
    = visited i (elevator_logs (db s)) ++ [t]
    /\ floors_travelled i (elevator_logs (db (run (fires n) s)))
       = (floors_travelled i (elevator_logs (db s)) + Z.to_nat (Z.abs (c - t)))%nat
    /\ (exists e', select_by_id i (elevators (db (run (fires n) s))) = Some e'
                   /\ currentFloor e' = t)
    /\ match q' with
       | [] =>
           timers (run (fires n) s) = []
           /\ queue_of (run (fires n) s) i = []
           /\ select_by_id i (elevators (db (run (fires n) s)))
              = Some (mkElevator i t (Some 0) idle None false)
       | _ :: _ => serving cfg i q' (run (fires n) s)
       end.
Proof.
  intros [Hcfg Ht Hq Hfloors (e & He & Hok & Htarget)] (e0 & He0 & Hc).
  assert (e0 = e) as -> by congruence. subst c.
  simpl in Htarget. apply Forall_cons in Hfloors as [Hin Hfloors].
  destruct (approach cfg i _ s e t Hcfg Ht He Hok Htarget Hin eq_refl)
    as (e1 & Hcfg1 & Ht1 & He1 & Hok1 & Htarget1 & Hcur1 & Hq1 & Hvis1).
  pose proof (approach_moves cfg i _ s e t Hcfg Ht He Hok Htarget Hin eq_refl) as Hmov1.
  set (n0 := Z.to_nat (Z.abs (currentFloor e - t))) in *.
  set (s1 := run (fires n0) s) in *.
  destruct (select_by_id_Some _ _ _ He1) as [_ Hid1].
  assert (Htruthy1 : truthy_floor (targetFloor e1) = true).
  { rewrite Htarget1. unfold in_building in Hin. simpl.
    destruct (Z.eqb_spec t 0); [lia|reflexivity]. }
  assert (Hat1 : at_target e1 = true).
  { unfold at_target. rewrite Htarget1, Hcur1. apply Z.eqb_refl. }
  destruct (door_cycle s1 i e1 Ht1 He1 Htruthy1 Hat1)
    as (_ & _ & _ & He4 & Ht4 & Hcfg4 & Hq4 & _ & Hlog4).
  set (s4 := run (fires 4) s1) in *.
  assert (Hq4' : floorQueues s4 !! id (idle_reset e1) = Some (t :: q')).
  { simpl. rewrite Hid1, Hq4, Hq1. exact Hq. }
  exists (n0 + 5)%nat. rewrite run_fires_add. fold s1.
  rewrite (run_fires_S 4). fold s4.
  assert (Hvis4 : visited i (elevator_logs (db s4))
                  = visited i (elevator_logs (db s)) ++ [t]).
  { rewrite Hlog4, visited_app, Hvis1, (visited_door_events i e1 Hid1), Hcur1.
    reflexivity. }
  assert (Hmov4 : floors_travelled i (elevator_logs (db s4))
                  = (floors_travelled i (elevator_logs (db s)) + n0)%nat).
  { rewrite Hlog4, floors_travelled_app, floors_travelled_door_events, Hmov1. lia. }
  destruct q' as [|next rest].
  - destruct (chain_end s4 (idle_reset e1) Ht4) as (Hrows5 & Hlog5 & Ht5 & _ & Hq5).
    { unfold queue_of. rewrite Hq4'. reflexivity. }
    simpl in Hq5. rewrite Hid1 in Hq5.
    assert (Hrow5 : select_by_id i (elevators (db (fire 0 s4)))
                    = Some (mkElevator i t (Some 0) idle None false)).
    { rewrite Hrows5, He4. unfold idle_reset. rewrite Hid1, Hcur1. reflexivity. }
    split; [rewrite Hlog5; exact Hvis4|].
    split; [rewrite Hlog5; exact Hmov4|].
    split; [eexists; split; [exact Hrow5|reflexivity]|].
    split; [exact Ht5|]. split; [exact Hq5|exact Hrow5].
  - destruct (chain_promote s4 (idle_reset e1) (t :: next :: rest) next rest Ht4 Hq4'
                eq_refl) as (Ht5 & He5 & Hq5 & Hlog5 & Hcfg5).
    { simpl. rewrite Hid1, He4. discriminate. }
    simpl in Ht5, He5, Hq5. rewrite Hid1 in Ht5, He5, Hq5.
    split; [rewrite Hlog5; exact Hvis4|].
    split; [rewrite Hlog5; exact Hmov4|].
    split; [eexists; split; [exact He5|exact Hcur1]|].
    apply Forall_cons in Hfloors as Hnext. destruct Hnext as [Hnext _].
    constructor.
    + congruence.
    + exact Ht5.
    + exact Hq5.
    + exact Hfloors.
    + exists (promoted (idle_reset e1) next). split; [exact He5|].
      split; [|reflexivity].
      apply heading_ok_towards; [exact (proj1 Hok1)|exact Hnext].
Qed.

Lemma serve_all_full cfg i q :
  forall s c,
    q <> [] ->
    serving cfg i q s ->
    (exists e, select_by_id i (elevators (db s)) = Some e /\ currentFloor e = c) ->
    exists n floor,
      visited i (elevator_logs (db (run (fires n) s)))
      = visited i (elevator_logs (db s)) ++ q
      /\ Z.of_nat (floors_travelled i (elevator_logs (db (run (fires n) s))))
         = Z.of_nat (floors_travelled i (elevator_logs (db s))) + route_length c q
      /\ timers (run (fires n) s) = []
      /\ queue_of (run (fires n) s) i = []
      /\ last q = Some floor
      /\ select_by_id i (elevators (db (run (fires n) s)))
         = Some (mkElevator i floor (Some 0) idle None false).
Proof.
  induction q as [|t q' IH]; intros s c Hne Hs Hc; [congruence|].
  destruct (serve_head_full cfg i c t q' s Hs Hc) as (n & Hvis & Hmov & Hc' & Hrest).
  destruct q' as [|next rest].
  - destruct Hrest as (Ht & Hq & Hrow).
    exists n, t. split; [exact Hvis|]. split; [rewrite Hmov; simpl; lia|].
    split; [exact Ht|]. split; [exact Hq|]. split; [reflexivity|exact Hrow].
  - destruct (IH (run (fires n) s) t ltac:(discriminate) Hrest Hc')
      as (m & floor & Hvis' & Hmov' & Ht' & Hq' & Hlast & Hrow).
    exists (n + m)%nat, floor. rewrite run_fires_add.
    split; [rewrite Hvis', Hvis, <- app_assoc; reflexivity|].
    split; [rewrite Hmov', Hmov; change (route_length c (t :: next :: rest))
              with (Z.abs (c - t) + route_length t (next :: rest)); lia|].
    split; [exact Ht'|]. split; [exact Hq'|]. split; [exact Hlast|exact Hrow].
Qed.

Lemma elem_known_id e rows : e ∈ rows -> select_by_id (id e) rows <> None.
Proof.
  intros Hin Hnone. exact (select_by_id_None _ _ Hnone e Hin eq_refl).
Qed.

Lemma route_length_call_legs cur fromFloor toFloor :
  route_length cur (call_legs cur fromFloor toFloor)
  = Z.abs (cur - fromFloor) + Z.abs (fromFloor - toFloor).
Proof.
  unfold call_legs. destruct (Z.eqb_spec cur fromFloor) as [->|Hne]; simpl; lia.
Qed.

Lemma last_call_legs cur fromFloor toFloor :
  last (call_legs cur fromFloor toFloor) = Some toFloor.
Proof. unfold call_legs. destruct (negb _); reflexivity. Qed.

Lemma call_on_resting_unit s request best :
  valid_request (config s) request ->
  snd (findBestElevator (fromFloor request) (toFloor request) (db s)) = inr best ->
  timers s = [] ->
  isMoving best = false ->
  id best ∉ activeMovements s ->
  queue_of s (id best) = [] ->
  in_building (config s) (currentFloor best) ->
  serving (config s) (id best)
    (call_legs (currentFloor best) (fromFloor request) (toFloor request))
    (perform (Call request) s)
  /\ (exists e, select_by_id (id best) (elevators (db (perform (Call request) s))) = Some e
                /\ currentFloor e = currentFloor best)
  /\ elevator_logs (db (perform (Call request) s))
     = elevator_logs (db s)
       ++ [mkElevatorLog (id best) "elevator_called" (fromFloor request) (toFloor request)
             (state best)
             (Some (direction_towards (currentFloor best)
                      (head (call_legs (currentFloor best) (fromFloor request)
                               (toFloor request)))))
             (CalledFromToBy (fromFloor request) (toFloor request)
                (anonymous (requestedBy request)))].
Proof.
  intros Hvalid Hbest Ht Hmov Hact Hq Hcur.
  pose proof (callElevator_valid request s Hvalid) as Hcall.
  rewrite Hbest in Hcall. destruct Hcall as [_ Hacc].
  change (fst (callElevator request s)) with (perform (Call request) s) in Hacc.
  destruct Hacc as [Arows Alogs _ Acfg _ Aqueues Atimers].
  assert (HQ : queue_after_call s best request
               = call_legs (currentFloor best) (fromFloor request) (toFloor request)).
  { unfold queue_after_call. rewrite Hq. reflexivity. }
  rewrite HQ in *.
  assert (Hrow : select_by_id (id best) (elevators (db (perform (Call request) s)))
                 = Some (called_row best
                           (call_legs (currentFloor best) (fromFloor request)
                              (toFloor request)))).
  { rewrite Arows. apply select_by_id_update; [reflexivity|].
    apply elem_known_id. exact (findBestElevator_elem _ _ _ _ Hbest). }
  pose proof (call_legs_in_building (config s) (currentFloor best) request Hvalid)
    as Hlegs.
  split; [|split].
  - constructor.
    + exact Acfg.
    + rewrite Atimers, Hmov, Ht. simpl.
      rewrite bool_decide_eq_true_2 by exact Hact. reflexivity.
    + rewrite Aqueues. apply lookup_insert_eq.
    + exact Hlegs.
    + eexists. split; [exact Hrow|]. split; [|reflexivity].
      unfold called_row.
      destruct (call_legs (currentFloor best) (fromFloor request) (toFloor request))
        as [|t rest] eqn:E; [exfalso; exact (call_legs_nonempty _ _ _ E)|].
      simpl. apply heading_ok_towards; [exact Hcur|].
      apply Forall_cons in Hlegs. tauto.
  - eexists. split; [exact Hrow|reflexivity].
  - exact Alogs.
Qed.

(** X4: a validated call given to a unit at rest (not moving, no pending
    tick, empty queue) is served by the ticks alone: after finitely many
    of them the doors have opened at the pickup floor (unless the unit was
    already there) and then at the destination, in that order and nowhere
    else, the unit has logged |currentFloor − fromFloor| + |fromFloor −
    toFloor| "floor_reached" events, which is the number of floors the
    estimate returned for the call multiplies by floorMoveTime (in the
    arithmetic of JavaScript numbers) before adding the door time, and it is
    idle at the destination with targetFloor 0, an empty queue and no
    pending tick. *)
Theorem X4_call_on_resting_unit_is_served :
  forall (s : Service) (request : ElevatorRequest) (best : Elevator),
    valid_request (config s) request ->
    snd (findBestElevator (fromFloor request) (toFloor request) (db s)) = inr best ->
    timers s = [] ->
    isMoving best = false ->
    id best ∉ activeMovements s ->
    queue_of s (id best) = [] ->
    in_building (config s) (currentFloor best) ->
    exists n,
      visited (id best) (elevator_logs (db (run (Call request :: fires n) s)))
      = visited (id best) (elevator_logs (db s))
        ++ (if decide (currentFloor best = fromFloor request)
            then [] else [fromFloor request])
        ++ [toFloor request]
      /\ Z.of_nat (floors_travelled (id best)
                     (elevator_logs (db (run (Call request :: fires n) s))))
         = Z.of_nat (floors_travelled (id best) (elevator_logs (db s)))
           + Z.abs (currentFloor best - fromFloor request)
           + Z.abs (fromFloor request - toFloor request)
      /\ select_by_id (id best) (elevators (db (run (Call request :: fires n) s)))
         = Some (mkElevator (id best) (toFloor request) (Some 0) idle None false)
      /\ timers (run (Call request :: fires n) s) = []
      /\ queue_of (run (Call request :: fires n) s) (id best) = []
      /\ exists result,
           snd (callElevator request s) = inr result
           /\ estimatedTime result
              = (Number_of_Z
                   (Z.of_nat (floors_travelled (id best)
                                (elevator_logs (db (run (Call request :: fires n) s))))
                    - Z.of_nat (floors_travelled (id best) (elevator_logs (db s))))
                 * floorMoveTime (config s)
                 + doorOpenCloseTime (config s) * 2)%float.
Proof.
  intros s request best Hvalid Hbest Ht Hmov Hact Hq Hcur.
  destruct (call_on_resting_unit s request best Hvalid Hbest Ht Hmov Hact Hq Hcur)
    as (Hserving & Hfloor & Hlog).
  pose proof (callElevator_valid request s Hvalid) as Hresult.
  rewrite Hbest in Hresult. destruct Hresult as [Hresult _].
  destruct (serve_all_full (config s) (id best) _ _ (currentFloor best)
              (call_legs_nonempty _ _ _) Hserving Hfloor)
    as (n & floor & Hvis & Hmoves & Htimers & Hqueue & Hlast & Hrow).
  rewrite last_call_legs in Hlast. injection Hlast as <-.
  exists n. change (run (Call request :: fires n) s)
    with (run (fires n) (perform (Call request) s)).
  assert (Hcount :
    Z.of_nat (floors_travelled (id best)
                (elevator_logs (db (run (fires n) (perform (Call request) s)))))
    = Z.of_nat (floors_travelled (id best) (elevator_logs (db s)))
      + Z.abs (currentFloor best - fromFloor request)
      + Z.abs (fromFloor request - toFloor request)).
  { rewrite Hmoves, Hlog, floors_travelled_app, route_length_call_legs.
    unfold floors_travelled at 2, is_move. simpl. rewrite andb_false_r. simpl. lia. }
  split; [|split; [exact Hcount|split; [exact Hrow|split; [exact Htimers|
          split; [exact Hqueue|]]]]].
  - rewrite Hvis, Hlog, visited_app. simpl. unfold is_visit. simpl.
    rewrite andb_false_r. simpl. rewrite app_nil_r. f_equal.
    unfold call_legs.
    destruct (Z.eqb_spec (currentFloor best) (fromFloor request));
      destruct (decide (currentFloor best = fromFloor request));
      try contradiction; reflexivity.
  - eexists. split; [exact Hresult|]. cbn [estimatedTime].
    replace (Z.of_nat (floors_travelled (id best)
                         (elevator_logs (db (run (fires n) (perform (Call request) s)))))
             - Z.of_nat (floors_travelled (id best) (elevator_logs (db s))))
      with (Z.abs (currentFloor best - fromFloor request)
            + Z.abs (fromFloor request - toFloor request)) by lia.
    exact (calculateEstimatedTime_formula (config s)
             (called_row best (queue_after_call s best request))
             (fromFloor request) (toFloor request)).
Qed.

Lemma X4_witness_call_2_to_6 :
  exists n,
    visited "elevator-1" (elevator_logs (db (run (call 2 6 :: fires n) (one_elevator 4))))
    = [2; 6]
    /\ Z.of_nat (floors_travelled "elevator-1"
                   (elevator_logs (db (run (call 2 6 :: fires n) (one_elevator 4)))))
       = 6
    /\ select_by_id "elevator-1"
         (elevators (db (run (call 2 6 :: fires n) (one_elevator 4))))
       = Some (mkElevator "elevator-1" 6 (Some 0) idle None false)
    /\ timers (run (call 2 6 :: fires n) (one_elevator 4)) = [].
Proof.
  destruct (X4_call_on_resting_unit_is_served (one_elevator 4)
              (mkElevatorRequest 2 6 None)
              (mkElevator "elevator-1" 4 (Some 0) idle None false))
    as (n & Hvis & Hmoves & Hrow & Htimers & _ & _).
  - unfold valid_request, in_building. simpl. lia.
  - reflexivity.
  - reflexivity.
  - reflexivity.
  - apply not_elem_of_empty.
  - reflexivity.
  - unfold in_building. simpl. lia.
  - exists n. split; [exact Hvis|]. split; [exact Hmoves|].
    split; [exact Hrow|exact Htimers].
Defined.

(** ** Starting a chain twice *)

Lemma accepted_by_inv request s i :
  accepted_by request s = Some i ->
  exists best,
    best ∈ elevators (db s) /\ id best = i
    /\ valid_request (config s) request
    /\ call_accepted request best s (perform (Call request) s).
Proof.
  unfold accepted_by. intros H.
  destruct (callElevator request s) as [s' [err|result]] eqn:Hcall; [discriminate|].
  simpl in H. injection H as Hres.
  destruct (callElevator_accepted_inv _ _ _ _ Hcall) as (Hvalid & best & _ & Hin & -> & Hca).
  exists best. simpl. rewrite Hcall. simpl.
  split; [exact Hin|]. split; [exact Hres|]. split; [exact Hvalid|exact Hca].
Qed.

(** X5: [startElevatorMovement] is guarded by [activeMovements] only, and
    an id enters that map at the end of the first move tick; so when a unit
    at rest accepts two calls before its first tick has run, each call
    starts a [moveElevator] chain and the unit has two chains in flight. *)
Theorem X5_two_calls_before_first_tick_start_two_chains :
  forall (s : Service) (request1 request2 : ElevatorRequest) (i : string),
    timers s = [] ->
    i ∉ activeMovements s ->
    (forall u, u ∈ elevators (db s) -> id u = i -> isMoving u = false) ->
    accepted_by request1 s = Some i ->
    accepted_by request2 (perform (Call request1) s) = Some i ->
    timers (run [Call request1; Call request2] s) = [MoveElevator i; MoveElevator i]
    /\ ~ single_chain (run [Call request1; Call request2] s).
Proof.
  intros s request1 request2 i Ht Hact Hrest Hacc1 Hacc2.
  destruct (accepted_by_inv _ _ _ Hacc1) as (best1 & Hin1 & Hid1 & _ & Hca1).
  set (s1 := perform (Call request1) s) in *.
  destruct (accepted_by_inv _ _ _ Hacc2) as (best2 & Hin2 & Hid2 & _ & Hca2).
  change (run [Call request1; Call request2] s) with (perform (Call request2) s1).
  destruct Hca1 as [Arows1 _ _ _ Aactive1 _ Atimers1].
  destruct Hca2 as [_ _ _ _ _ _ Atimers2].
  assert (Hmov1 : isMoving best1 = false) by exact (Hrest best1 Hin1 Hid1).
  assert (Hmov2 : isMoving best2 = false).
  { rewrite Arows1 in Hin2.
    rewrite (updated_row_same _ _ _ Hin2) by (simpl; congruence). exact Hmov1. }
  assert (Htimers : timers (perform (Call request2) s1)
                    = [MoveElevator i; MoveElevator i]).
  { rewrite Atimers2, Atimers1, Aactive1, Hmov1, Hmov2, Hid1, Hid2, Ht. simpl.
    rewrite bool_decide_eq_true_2 by exact Hact. reflexivity. }
  split; [exact Htimers|].
  unfold single_chain. rewrite Htimers. simpl. intros Hnd.
  apply NoDup_cons in Hnd as [Hnot _]. apply Hnot. left.
Qed.

Lemma X5_witness_one_elevator :
  timers (run [call 1 2; call 1 3] (one_elevator 1))
  = [MoveElevator "elevator-1"; MoveElevator "elevator-1"]
  /\ ~ single_chain (run [call 1 2; call 1 3] (one_elevator 1)).
Proof.
  refine (X5_two_calls_before_first_tick_start_two_chains (one_elevator 1)
            (mkElevatorRequest 1 2 None) (mkElevatorRequest 1 3 None) "elevator-1"
            eq_refl _ _ _ _).
  - apply not_elem_of_empty.
  - intros u Hu _. apply list_elem_of_singleton in Hu. subst u. reflexivity.
  - vm_compute. reflexivity.
  - vm_compute. reflexivity.
Defined.

(** ** The configuration *)

(** X6: [updateBuildingConfig] keeps the value of every key its argument
    lacks, but the handler of PUT /config always passes the three keys, an
    omitted one holding [undefined]: the configuration it leaves has under
    each key exactly what the body has, [undefined] where the body has
    nothing, whatever the configuration was before. *)
Theorem X6_put_config_replaces_every_key :
  (forall (newConfig config : ConfigObject.Obj),
     (ConfigObject.key_totalFloors newConfig = ConfigObject.Absent ->
      ConfigObject.key_totalFloors (ConfigObject.updateBuildingConfig newConfig config)
      = ConfigObject.key_totalFloors config)
     /\ (ConfigObject.key_floorMoveTime newConfig = ConfigObject.Absent ->
         ConfigObject.key_floorMoveTime (ConfigObject.updateBuildingConfig newConfig config)
         = ConfigObject.key_floorMoveTime config)
     /\ (ConfigObject.key_doorOpenCloseTime newConfig = ConfigObject.Absent ->
         ConfigObject.key_doorOpenCloseTime
           (ConfigObject.updateBuildingConfig newConfig config)
         = ConfigObject.key_doorOpenCloseTime config))
  /\ (forall (body config : ConfigObject.Obj),
        ConfigObject.updateConfig body config
        = ConfigObject.mkObj
            (ConfigObject.destructured (ConfigObject.key_totalFloors body))
            (ConfigObject.destructured (ConfigObject.key_floorMoveTime body))
            (ConfigObject.destructured (ConfigObject.key_doorOpenCloseTime body)))
  /\ (forall (body config config' : ConfigObject.Obj),
        ConfigObject.updateConfig body config = ConfigObject.updateConfig body config')
  /\ (forall (p : PartialBuildingConfig) (s : Service),
        ConfigObject.updateBuildingConfig (ConfigObject.of_partial p)
          (ConfigObject.of_config (config s))
        = ConfigObject.of_config (getBuildingConfig (updateBuildingConfig p s))).
Proof.
  assert (Hreplace : forall body config,
            ConfigObject.updateConfig body config
            = ConfigObject.mkObj
                (ConfigObject.destructured (ConfigObject.key_totalFloors body))
                (ConfigObject.destructured (ConfigObject.key_floorMoveTime body))
                (ConfigObject.destructured (ConfigObject.key_doorOpenCloseTime body))).
  { intros [[| |a] [| |b] [| |c]] config; reflexivity. }
  split; [|split; [exact Hreplace|split]].
  - intros newConfig config. repeat split; intros H;
      unfold ConfigObject.updateBuildingConfig; simpl; rewrite H; reflexivity.
  - intros body config config'. rewrite !Hreplace. reflexivity.
  - intros [[a|] [b|] [c|]] s; reflexivity.
Qed.

Lemma X6_witness_body_with_totalFloors_only :
  ConfigObject.updateConfig
    (ConfigObject.mkObj (ConfigObject.Value 20) ConfigObject.Absent ConfigObject.Absent)
    (ConfigObject.of_config test_config)
  = ConfigObject.mkObj (ConfigObject.Value 20) ConfigObject.Undefined
      ConfigObject.Undefined
  /\ ConfigObject.key_floorMoveTime
       (ConfigObject.updateBuildingConfig
          (ConfigObject.mkObj (ConfigObject.Value 20) ConfigObject.Absent
             ConfigObject.Absent)
          (ConfigObject.of_config test_config))
     = ConfigObject.Value 1%float.
Proof.
  split.
  - exact (proj1 (proj2 X6_put_config_replaces_every_key)
             (ConfigObject.mkObj (ConfigObject.Value 20) ConfigObject.Absent
                ConfigObject.Absent)
             (ConfigObject.of_config test_config)).
  - exact (proj1 (proj2 (proj1 X6_put_config_replaces_every_key
             (ConfigObject.mkObj (ConfigObject.Value 20) ConfigObject.Absent
                ConfigObject.Absent)
             (ConfigObject.of_config test_config))) eq_refl).
Defined.

(** X7: [updateBuildingConfig] checks nothing and touches only the
    configuration: the rows, the queues and the pending ticks stay, and from
    then on [callElevator] validates against the new number of floors.  A
    call naming a floor above it is rejected, and with a number of floors
    below 1 every call with a floor that is a number other than NaN is
    rejected, the message carrying the new number and the service left as
    it was; a call with two NaN floors is accepted all the same. *)
Theorem X7_new_floor_count_is_unchecked_and_used_by_validation :
  forall (p : PartialBuildingConfig) (s : Service) (n : Z),
    new_totalFloors p = Some n ->
    totalFloors (getBuildingConfig (updateBuildingConfig p s)) = n
    /\ db (updateBuildingConfig p s) = db s
    /\ floorQueues (updateBuildingConfig p s) = floorQueues s
    /\ activeMovements (updateBuildingConfig p s) = activeMovements s
    /\ timers (updateBuildingConfig p s) = timers s
    /\ (forall (request : Js.ElevatorRequest) (z : Z),
          Js.fromFloor request = Js.Int z \/ Js.toFloor request = Js.Int z ->
          n < 1 \/ n < z ->
          Js.callElevator request (Js_service (updateBuildingConfig p s))
          = (Js_service (updateBuildingConfig p s), inl (InvalidFloor n)))
    /\ (forall (by_ : option string) (first : Elevator) (rest : list Elevator),
          elevators (db s) = first :: rest ->
          exists result,
            snd (Js.callElevator (Js.mkElevatorRequest Js.NaN Js.NaN by_)
                   (Js_service (updateBuildingConfig p s)))
            = inr result
            /\ res_elevatorId result = id first).
Proof.
  intros p s n Hn.
  assert (Hcfg : totalFloors (config (updateBuildingConfig p s)) = n).
  { unfold updateBuildingConfig. simpl. rewrite Hn. reflexivity. }
  split; [exact Hcfg|]. do 4 (split; [reflexivity|]).
  split.
  - intros request z Hz Hout.
    rewrite Js_callElevator_range_error;
      [cbn [Js.config Js_service]; rewrite Hcfg; reflexivity|].
    cbn [Js.config Js_service]. unfold integer_outside, in_building.
    rewrite Hcfg. destruct Hz as [-> | ->]; [left|right]; lia.
  - intros by_ first rest Hrows.
    destruct (Js_callElevator_cases (Js.mkElevatorRequest Js.NaN Js.NaN by_)
                (Js_service (updateBuildingConfig p s)))
      as [[[]|[]]|[(z & Hz & _)|(_ & Hsnd & _)]]; [discriminate|].
    rewrite Hsnd. cbn [Js.fromFloor Js.toFloor].
    rewrite (Js_findBestElevator_NaN Js.NaN _ first rest) by exact Hrows.
    eexists. split; reflexivity.
Qed.

Lemma X7_witness_zero_floors :
  Js.callElevator (Js.mkElevatorRequest (Js.Int 1) (Js.Int 2) None)
    (Js_service
       (updateBuildingConfig (mkPartialBuildingConfig (Some 0) None None)
          (one_elevator 1)))
  = (Js_service
       (updateBuildingConfig (mkPartialBuildingConfig (Some 0) None None)
          (one_elevator 1)),
     inl (InvalidFloor 0)).
Proof.
  refine (proj1 (proj2 (proj2 (proj2 (proj2 (proj2
            (X7_new_floor_count_is_unchecked_and_used_by_validation
               (mkPartialBuildingConfig (Some 0) None None) (one_elevator 1) 0
               eq_refl))))))
            (Js.mkElevatorRequest (Js.Int 1) (Js.Int 2) None) 1 _ _).
  - left. reflexivity.
  - left. lia.
Defined.

(** X8: lowering the number of floors strands an elevator standing two or
    more floors above the new top.  A call it accepts at rest is answered
    with an estimate, but its first tick would step to a floor that is still
    above the top: the tick takes the boundary branch, the row goes back to
    idle with target floor 1 at the floor where it stood, no further tick is
    scheduled, and both stops of the call stay in the queue. *)
Theorem X8_lowered_top_floor_strands_a_unit_above_it :
  forall (p : PartialBuildingConfig) (s : Service) (n : Z)
         (request : ElevatorRequest) (best : Elevator),
    new_totalFloors p = Some n ->
    1 <= fromFloor request <= n ->
    1 <= toFloor request <= n ->
    fromFloor request <> toFloor request ->
    snd (findBestElevator (fromFloor request) (toFloor request) (db s)) = inr best ->
    timers s = [] ->
    isMoving best = false ->
    id best ∉ activeMovements s ->
    queue_of s (id best) = [] ->
    n + 1 < currentFloor best ->
    let s' := run [Call request; Fire 0] (updateBuildingConfig p s) in
    accepted_by request (updateBuildingConfig p s) = Some (id best)
    /\ select_by_id (id best) (elevators (db s'))
       = Some (mkElevator (id best) (currentFloor best) (Some 1) idle None false)
    /\ timers s' = []
    /\ (id best ∉ activeMovements s')
    /\ queue_of s' (id best) = [fromFloor request; toFloor request]
    /\ last (elevator_logs (db s'))
       = Some (mkElevatorLog (id best) "elevator_idle" (currentFloor best)
                 (currentFloor best) idle None InvalidFloorBoundary).
Proof.
  intros p s n request best Hn Hfrom Hto Hne Hbest Ht Hmov Hact Hq Hcur s'.
  set (s1 := updateBuildingConfig p s) in *.
  assert (Hcfg : totalFloors (config s1) = n).
  { unfold s1, updateBuildingConfig. simpl. rewrite Hn. reflexivity. }
  assert (Hvalid : valid_request (config s1) request).
  { unfold valid_request, in_building. rewrite Hcfg. auto. }
  pose proof (callElevator_valid request s1 Hvalid) as Hcall.
  change (db s1) with (db s) in Hcall. rewrite Hbest in Hcall.
  destruct Hcall as [Hres Hacc].
  change (fst (callElevator request s1)) with (perform (Call request) s1) in Hacc.
  set (s2 := perform (Call request) s1) in *.
  destruct Hacc as [Arows Alogs _ Acfg Aactive Aqueues Atimers].
  change (db s1) with (db s) in Arows, Alogs.
  change (activeMovements s1) with (activeMovements s) in Aactive, Atimers.
  change (timers s1) with (timers s) in Atimers.
  change (floorQueues s1) with (floorQueues s) in Aqueues.
  assert (HQ : queue_after_call s1 best request
               = [fromFloor request; toFloor request]).
  { unfold queue_after_call, queue_of in *. change (floorQueues s1) with (floorQueues s).
    rewrite Hq. unfold call_legs.
    destruct (Z.eqb_spec (currentFloor best) (fromFloor request)); [lia|reflexivity]. }
  rewrite HQ in *.
  set (row := called_row best [fromFloor request; toFloor request]) in *.
  assert (Hrow : select_by_id (id best) (elevators (db s2)) = Some row).
  { rewrite Arows. apply select_by_id_update; [reflexivity|].
    apply elem_known_id. exact (findBestElevator_elem _ _ _ _ Hbest). }
  assert (Htimers : timers s2 = [MoveElevator (id best)]).
  { rewrite Atimers, Hmov, Ht. simpl.
    rewrite bool_decide_eq_true_2 by exact Hact. reflexivity. }
  assert (Hdir : direction row = Some down).
  { unfold row, called_row, direction_towards. simpl.
    destruct (Z.ltb_spec (currentFloor best) (fromFloor request)); [lia|reflexivity]. }
  assert (Hboundary : boundary_branch (config s2) row = true).
  { unfold boundary_branch, leaves_building, next_floor, at_target, truthy_floor.
    rewrite Hdir. rewrite Acfg, Hcfg. unfold row, called_row. simpl.
    destruct (decide (Some down = Some up)) as [E|_]; [discriminate|].
    destruct (Z.eqb_spec (fromFloor request) 0); [lia|].
    destruct (Z.eqb_spec (currentFloor best) (fromFloor request)); [lia|].
    destruct (Z.ltb_spec (currentFloor best - 1) 1); [lia|].
    rewrite Z.gtb_ltb.
    destruct (Z.ltb_spec n (currentFloor best - 1)); [reflexivity|lia]. }
  assert (Hfire : s' = fire 0 s2) by reflexivity.
  rewrite (fire_head s2 _ _ Htimers) in Hfire. simpl in Hfire.
  rewrite (moveElevator_boundary (id best) _ row) in Hfire;
    [|exact Hrow|exact Hboundary].
  assert (Hknown : select_by_id (id best) (elevators (db s2)) <> None)
    by (rewrite Hrow; discriminate).
  assert (Hqueue : default [] (floorQueues s2 !! id best)
                   = [fromFloor request; toFloor request])
    by (rewrite Aqueues, lookup_insert_eq; reflexivity).
  split.
  { unfold accepted_by. rewrite Hres. reflexivity. }
  rewrite Hfire. cbn.
  split.
  { apply select_by_id_update; [reflexivity|]. exact Hknown. }
  split; [reflexivity|].
  split.
  { rewrite elem_of_difference, elem_of_singleton. tauto. }
  split.
  { unfold queue_of. cbn. exact Hqueue. }
  apply last_snoc.
Qed.

Lemma X8_witness_unit_at_9_top_lowered_to_5 :
  let s' := run [call 2 3; Fire 0]
              (updateBuildingConfig (mkPartialBuildingConfig (Some 5) None None)
                 (one_elevator 9)) in
  select_by_id "elevator-1" (elevators (db s'))
  = Some (mkElevator "elevator-1" 9 (Some 1) idle None false)
  /\ timers s' = []
  /\ queue_of s' "elevator-1" = [2; 3].
Proof.
  destruct (X8_lowered_top_floor_strands_a_unit_above_it
              (mkPartialBuildingConfig (Some 5) None None) (one_elevator 9) 5
              (mkElevatorRequest 2 3 None)
              (mkElevator "elevator-1" 9 (Some 0) idle None false)
              eq_refl ltac:(simpl; lia) ltac:(simpl; lia) ltac:(discriminate)
              eq_refl eq_refl eq_refl ltac:(apply not_elem_of_empty) eq_refl
              ltac:(simpl; lia))
    as (_ & Hrow & Htimers & _ & Hqueue & _).
  exact (conj Hrow (conj Htimers Hqueue)).
Defined.

(** ** The handlers of GET /status and POST /call *)

Lemma select_by_id_None_iff i rows :
  select_by_id i rows = None <-> forall e, e ∈ rows -> id e <> i.
Proof.
  split; [apply select_by_id_None|].
  intros H. destruct (select_by_id i rows) as [e|] eqn:He; [|reflexivity].
  destruct (select_by_id_Some _ _ _ He) as [Hin Hid]. destruct (H e Hin Hid).
Qed.

(** X9: GET /status answers 404 exactly when a non-empty id names no row.
    Without an id, or with the empty string, it answers 200 with the whole
    fleet; with the id of a row (ids being unique, as the primary key makes
    them) it answers 200 with that row.  In every case the service is as
    before but for one more entry in the query log. *)
Theorem X9_status_404_exactly_for_unknown_ids :
  forall (elevatorId : option string) (s : Service),
    let out := Controller.getStatus elevatorId s in
    same_but_queries s (fst out)
    /\ length (query_logs (db (fst out))) = S (length (query_logs (db s)))
    /\ (fst (snd out) = 404
        <-> exists i, elevatorId = Some i /\ i <> ""%string
                      /\ forall e, e ∈ elevators (db s) -> id e <> i)
    /\ (fst (snd out) = 404 \/ fst (snd out) = 200)
    /\ (elevatorId = None \/ elevatorId = Some ""%string ->
        snd out
        = (200, Controller.StatusSucceeded (AllElevators (elevators (db s)))))
    /\ (forall e, NoDup (map id (elevators (db s))) ->
                  e ∈ elevators (db s) -> id e <> ""%string ->
                  elevatorId = Some (id e) ->
                  snd out = (200, Controller.StatusSucceeded (OneElevator e)))
    /\ (forall i, fst (snd out) = 404 ->
                  elevatorId = Some i ->
                  snd (snd out) = Controller.StatusFailed (ElevatorNotFound i)).
Proof.
  intros elevatorId s out. subst out.
  unfold Controller.getStatus, getElevatorStatus, getElevator, getAllElevators,
    same_but_queries.
  destruct elevatorId as [i|]; cbn.
  - destruct (String.eqb_spec i "") as [->|Hi]; cbn.
    + repeat split; try reflexivity.
      * rewrite length_app. simpl. lia.
      * discriminate.
      * intros (i & [= <-] & Hi & _). congruence.
      * right; reflexivity.
      * intros e _ _ Hne [= He]. congruence.
      * discriminate.
    + destruct (select_by_id i (elevators (db s))) as [e|] eqn:He; cbn.
      * destruct (select_by_id_Some _ _ _ He) as [Hin Hid].
        repeat split; try reflexivity.
        -- rewrite length_app. simpl. lia.
        -- discriminate.
        -- intros (i' & [= <-] & _ & Hnone). destruct (Hnone e Hin Hid).
        -- right; reflexivity.
        -- intros [H|H]; congruence.
        -- intros u Hnd Hu _ [= Heq].
           rewrite (unique_row i _ e u Hnd He Hu) by congruence. reflexivity.
        -- discriminate.
      * repeat split; try reflexivity.
        -- rewrite length_app. simpl. lia.
        -- intros _. exists i. split; [reflexivity|]. split; [exact Hi|].
           apply select_by_id_None. exact He.
        -- left; reflexivity.
        -- intros [H|H]; congruence.
        -- intros u _ Hu _ [= Heq]. exfalso.
           exact (select_by_id_None _ _ He u Hu (eq_sym Heq)).
        -- intros i' _ [= <-]. reflexivity.
  - repeat split; try reflexivity.
    + rewrite length_app. simpl. lia.
    + discriminate.
    + intros (i & Hi & _). discriminate.
    + right; reflexivity.
    + intros e _ _ _ H. discriminate.
    + discriminate.
Qed.

Lemma X9_witness_default_fleet_status :
  snd (Controller.getStatus (Some "elevator-3"%string)
         (new_ElevatorService (mkDb initializeDefaultElevators [] []) test_config))
  = (200, Controller.StatusSucceeded (OneElevator (default_elevator "elevator-3")))
  /\ snd (Controller.getStatus (Some ""%string)
            (new_ElevatorService (mkDb initializeDefaultElevators [] []) test_config))
     = (200, Controller.StatusSucceeded (AllElevators initializeDefaultElevators)).
Proof.
  split.
  - refine (proj1 (proj2 (proj2 (proj2 (proj2 (proj2
              (X9_status_404_exactly_for_unknown_ids (Some "elevator-3"%string)
                 (new_ElevatorService (mkDb initializeDefaultElevators [] [])
                    test_config)))))))
              (default_elevator "elevator-3") _ _ _ eq_refl).
    + refine (bool_decide_unpack _ _). vm_compute. exact I.
    + simpl. right. right. left.
    + discriminate.
  - exact (proj1 (proj2 (proj2 (proj2 (proj2
             (X9_status_404_exactly_for_unknown_ids (Some ""%string)
                (new_ElevatorService (mkDb initializeDefaultElevators [] [])
                   test_config))))))
             (or_intror eq_refl)).
Defined.

(** X10: POST /call answers 200 or 400.  A floor of the body that is
    falsy (missing, null, false, 0 or the empty string) is answered with
    'fromFloor and toFloor are required' without reaching the service.
    Otherwise the service is called with what [parseInt] makes of the two
    floors, and the answer is 200 exactly when that request passes the two
    checks of [callElevator] and the fleet has a row; in particular two
    truthy floors that [parseInt] turns into NaN are answered with 200.  No
    400 changes a row, a queue, a pending tick or the event log. *)
Theorem X10_call_handler_statuses :
  forall (js : Controller.Conversions) (ip : option string)
         (body : Controller.CallBody) (s : Js.Service),
    let out := Controller.callElevator js ip body s in
    let request := request_of_body js ip body in
    (fst (snd out) = 200 \/ fst (snd out) = 400)
    /\ (Controller.truthy (Controller.body_fromFloor body) = false
        \/ Controller.truthy (Controller.body_toFloor body) = false ->
        out = (s, (400, Controller.CallFailed Controller.FloorsRequired)))
    /\ (fst (snd out) = 200
        <-> Controller.truthy (Controller.body_fromFloor body) = true
            /\ Controller.truthy (Controller.body_toFloor body) = true
            /\ passes_validation (Js.config s) request
            /\ Js.elevators (Js.db s) <> [])
    /\ (fst (snd out) = 400 -> Js_same_but_queries s (fst out))
    /\ (fst (snd out) = 200 ->
        exists result,
          snd (Js.callElevator request s) = inr result
          /\ out = (fst (Js.callElevator request s),
                    (200, Controller.CallSucceeded result)))
    /\ (Controller.truthy (Controller.body_fromFloor body) = true ->
        Controller.truthy (Controller.body_toFloor body) = true ->
        Controller.parseInt js (Controller.body_fromFloor body) = Js.NaN ->
        Controller.parseInt js (Controller.body_toFloor body) = Js.NaN ->
        Js.elevators (Js.db s) <> [] ->
        fst (snd out) = 200).
Proof.
  intros js ip body s out request.
  assert (Hnan : Js.fromFloor request = Js.NaN -> Js.toFloor request = Js.NaN ->
                 passes_validation (Js.config s) request).
  { intros Hf Ht. unfold passes_validation. rewrite Hf, Ht. simpl.
    split; [tauto|]. split; [tauto|]. intros (z & [=] & _). }
  destruct (Js_callElevator_outcome request s) as [Hacc Hrej].
  subst out. unfold Controller.callElevator. fold (request_of_body js ip body).
  fold request.
  destruct (Controller.truthy (Controller.body_fromFloor body)) eqn:Ef; cbn [negb orb].
  2:{ split; [right; reflexivity|]. split; [reflexivity|].
      split; [split; [discriminate|intros [H _]; discriminate]|].
      split; [intros _; repeat split|].
      split; [discriminate|]. discriminate. }
  destruct (Controller.truthy (Controller.body_toFloor body)) eqn:Et; cbn [negb].
  2:{ split; [right; reflexivity|]. split; [reflexivity|].
      split; [split; [discriminate|intros (_ & H & _); discriminate]|].
      split; [intros _; repeat split|].
      split; [discriminate|]. intros _ H. discriminate. }
  destruct (Js.callElevator request s) as [s' [err|result]] eqn:Hcall; cbn [fst snd] in *.
  - split; [right; reflexivity|].
    split; [intros [H|H]; discriminate|].
    split.
    { split; [discriminate|]. intros (_ & _ & Hp & Hrows).
      destruct (proj2 Hacc (conj Hp Hrows)) as (result & H). discriminate. }
    split; [intros _; exact (Hrej err eq_refl)|].
    split; [discriminate|].
    intros _ _ Hf Ht Hrows.
    destruct (proj2 Hacc (conj (Hnan Hf Ht) Hrows)) as (result & H). discriminate.
  - split; [left; reflexivity|].
    split; [intros [H|H]; discriminate|].
    destruct (proj1 Hacc (ex_intro _ result eq_refl)) as [Hp Hrows].
    split.
    { split; [|reflexivity]. intros _.
      split; [reflexivity|]. split; [reflexivity|]. split; [exact Hp|exact Hrows]. }
    split; [discriminate|].
    split; [intros _; exists result; split; reflexivity|].
    reflexivity.
Qed.

(** Body floors the strings "abc" and "xyz" on the default fleet: the
    answer is 200. *)
Lemma X10_witness_non_numeric_floors_are_served :
  fst (snd (Controller.callElevator example_conversions (Some "10.0.0.7"%string)
              (Controller.mkCallBody (Controller.JString "abc")
                 (Controller.JString "xyz") Controller.JUndefined)
              (Js_service default_fleet)))
  = 200.
Proof.
  refine (proj2 (proj2 (proj2 (proj2 (proj2
            (X10_call_handler_statuses example_conversions (Some "10.0.0.7"%string)
               (Controller.mkCallBody (Controller.JString "abc")
                  (Controller.JString "xyz") Controller.JUndefined)
               (Js_service default_fleet))))))
            eq_refl eq_refl eq_refl eq_refl _).
  discriminate.
Defined.

(** ** The service without stop queues *)

Lemma simple_findBestElevator_eq fromFloor toFloor d :
  Simple.findBestElevator fromFloor toFloor d = findBestElevator fromFloor toFloor d.
Proof. reflexivity. Qed.

Lemma simple_fire_head s k ks :
  Simple.timers s = k :: ks ->
  Simple.fire 0 s =
  Simple.resume k
    (Simple.mkService (Simple.db s) (Simple.config s) (Simple.activeMovements s) ks).
Proof. intros H. unfold Simple.fire. rewrite H. reflexivity. Qed.

Lemma simple_ticks_add n m s :
  Simple.ticks (n + m) s = Simple.ticks m (Simple.ticks n s).
Proof. revert s. induction n as [|n IH]; intros s; simpl; [reflexivity|apply IH]. Qed.

Lemma simple_callElevator_accepted request s best :
  valid_request (Simple.config s) request ->
  snd (Simple.findBestElevator (fromFloor request) (toFloor request) (Simple.db s))
  = inr best ->
  Simple.timers s = [] ->
  isMoving best = false ->
  id best ∉ Simple.activeMovements s ->
  Simple.timers (fst (Simple.callElevator request s)) = [Simple.MoveElevator (id best)]
  /\ select_by_id (id best) (elevators (Simple.db (fst (Simple.callElevator request s))))
     = Some (simple_called_row best request)
  /\ Simple.config (fst (Simple.callElevator request s)) = Simple.config s
  /\ Simple.activeMovements (fst (Simple.callElevator request s))
     = Simple.activeMovements s
  /\ elevator_logs (Simple.db (fst (Simple.callElevator request s)))
     = elevator_logs (Simple.db s)
       ++ [mkElevatorLog (id best) "elevator_called" (fromFloor request) (toFloor request)
             (state best)
             (Some (if fromFloor request >? toFloor request then down else up))
             (CalledFromToBy (fromFloor request) (toFloor request)
                (anonymous (requestedBy request)))]
  /\ snd (Simple.callElevator request s)
     = inr (Simple.mkCallResult (id best)
              (Simple.calculateEstimatedTime (Simple.config s)
                 (simple_called_row best request) (fromFloor request) (toFloor request))).
Proof.
  intros (H1 & H2 & H3) Hbest Ht Hmov Hact.
  rewrite simple_findBestElevator_eq in Hbest.
  pose proof (findBestElevator_elem _ _ _ _ Hbest) as Hin.
  pose proof (elem_known_id _ _ Hin) as Hknown.
  pose proof (findBestElevator_db (fromFloor request) (toFloor request) (Simple.db s))
    as Hdb.
  unfold in_building in H1, H2. unfold Simple.callElevator.
  destruct (Z.ltb_spec (fromFloor request) 1); [lia|].
  destruct (fromFloor request >? totalFloors (Simple.config s)) eqn:E2;
    [rewrite Z.gtb_ltb in E2; lia|].
  destruct (Z.ltb_spec (toFloor request) 1); [lia|].
  destruct (toFloor request >? totalFloors (Simple.config s)) eqn:E4;
    [rewrite Z.gtb_ltb in E4; lia|].
  destruct (Z.eqb_spec (fromFloor request) (toFloor request)); [lia|].
  cbn [orb].
  destruct (Simple.findBestElevator (fromFloor request) (toFloor request) (Simple.db s))
    as [d found] eqn:Efind.
  rewrite simple_findBestElevator_eq in Efind. rewrite Efind in Hdb, Hbest.
  simpl in Hdb, Hbest. subst d found. cbn. rewrite Hmov. cbn.
  unfold Simple.startElevatorMovement. cbn.
  destruct (decide (id best ∈ Simple.activeMovements s)) as [Hin'|_];
    [contradiction|]. cbn. rewrite Ht.
  unfold simple_called_row. rewrite ?Hmov.
  split; [reflexivity|]. split.
  { apply select_by_id_update; [reflexivity|exact Hknown]. }
  repeat split.
Qed.

Lemma simple_move_tick s i e :
  Simple.timers s = [Simple.MoveElevator i] ->
  select_by_id i (elevators (Simple.db s)) = Some e ->
  truthy_floor (targetFloor e) = true ->
  at_target e = false ->
  Simple.timers (Simple.fire 0 s) = [Simple.MoveElevator i]
  /\ select_by_id i (elevators (Simple.db (Simple.fire 0 s))) = Some (moved e)
  /\ Simple.config (Simple.fire 0 s) = Simple.config s
  /\ elevator_logs (Simple.db (Simple.fire 0 s)) =
       elevator_logs (Simple.db s) ++
       [mkElevatorLog (id e) "floor_reached"
          (if decide (direction e = Some up) then next_floor e - 1 else next_floor e + 1)
          (next_floor e) (state (moved e)) (direction e) (MovedToFloor (next_floor e))].
Proof.
  intros Ht He Htruthy Hat. rewrite (simple_fire_head s _ _ Ht). simpl.
  destruct (select_by_id_Some _ _ _ He) as [_ Hid].
  unfold Simple.moveElevator. cbn. rewrite He, Htruthy, Hat. cbn.
  split; [reflexivity|]. split; [|repeat split].
  apply select_by_id_update; [exact Hid|congruence].
Qed.

Lemma simple_steps i t n :
  forall s e,
    Simple.timers s = [Simple.MoveElevator i] ->
    select_by_id i (elevators (Simple.db s)) = Some e ->
    targetFloor e = Some t ->
    t <> 0 ->
    (forall m, (m < n)%nat -> currentFloor e + Z.of_nat m * floor_step e <> t) ->
    exists e',
      Simple.timers (Simple.ticks n s) = [Simple.MoveElevator i]
      /\ select_by_id i (elevators (Simple.db (Simple.ticks n s))) = Some e'
      /\ currentFloor e' = currentFloor e + Z.of_nat n * floor_step e
      /\ targetFloor e' = Some t
      /\ direction e' = direction e
      /\ Simple.config (Simple.ticks n s) = Simple.config s
      /\ visited i (elevator_logs (Simple.db (Simple.ticks n s)))
         = visited i (elevator_logs (Simple.db s))
      /\ floors_travelled i (elevator_logs (Simple.db (Simple.ticks n s)))
         = (floors_travelled i (elevator_logs (Simple.db s)) + n)%nat.
Proof.
  induction n as [|n IH]; intros s e Ht He Htarget Ht0 Haway.
  - exists e. simpl. split; [exact Ht|]. split; [exact He|]. split; [lia|].
    split; [exact Htarget|]. split; [reflexivity|]. split; [reflexivity|].
    split; [reflexivity|lia].
  - destruct (select_by_id_Some _ _ _ He) as [_ Hid].
    assert (Htruthy : truthy_floor (targetFloor e) = true).
    { rewrite Htarget. simpl. destruct (Z.eqb_spec t 0); [lia|reflexivity]. }
    assert (Hat : at_target e = false).
    { unfold at_target. rewrite Htarget.
      destruct (Z.eqb_spec (currentFloor e) t) as [Heq|]; [|reflexivity].
      specialize (Haway 0%nat ltac:(lia)). lia. }
    destruct (simple_move_tick s i e Ht He Htruthy Hat) as (Ht' & He' & Hcfg' & Hlog').
    assert (Hstep : currentFloor (moved e) = currentFloor e + floor_step e).
    { unfold moved, next_floor, floor_step. simpl.
      destruct (decide (direction e = Some up)); lia. }
    assert (Hsame : floor_step (moved e) = floor_step e) by reflexivity.
    destruct (IH (Simple.fire 0 s) (moved e) Ht' He' Htarget Ht0)
      as (e' & K1 & K2 & K3 & K4 & K5 & K6 & K7 & K8).
    { intros m Hm. rewrite Hstep, Hsame.
      specialize (Haway (S m) ltac:(lia)). lia. }
    exists e'. simpl.
    split; [exact K1|]. split; [exact K2|]. split; [rewrite K3, Hstep, Hsame; lia|].
    split; [exact K4|]. split; [exact K5|]. split; [congruence|].
    split.
    + rewrite K7, Hlog', visited_app. simpl.
      unfold is_visit. simpl. rewrite andb_false_r. simpl. apply app_nil_r.
    + rewrite K8, Hlog', floors_travelled_app.
      unfold floors_travelled at 2. simpl. unfold is_move. simpl.
      rewrite Hid, String.eqb_refl. simpl. lia.
Qed.

Lemma simple_door_cycle s i e :
  Simple.timers s = [Simple.MoveElevator i] ->
  select_by_id i (elevators (Simple.db s)) = Some e ->
  truthy_floor (targetFloor e) = true ->
  at_target e = true ->
  select_by_id i (elevators (Simple.db (Simple.ticks 5 s))) = Some (idle_reset e)
  /\ Simple.timers (Simple.ticks 5 s) = []
  /\ Simple.config (Simple.ticks 5 s) = Simple.config s
  /\ Simple.activeMovements (Simple.ticks 5 s) = Simple.activeMovements s ∖ {[i]}
  /\ elevator_logs (Simple.db (Simple.ticks 5 s))
     = elevator_logs (Simple.db s) ++ door_events e.
Proof.
  destruct s as [d cfg active tms].
  cbn [Simple.timers Simple.db Simple.config Simple.activeMovements].
  intros -> He Htruthy Hat.
  destruct (select_by_id_Some _ _ _ He) as [_ Hid].
  assert (Hne : select_by_id i (elevators d) <> None) by congruence.
  cbn. unfold Simple.moveElevator. cbn.
  rewrite He, Htruthy, Hat. cbn.
  repeat split; rewrite <- ?app_assoc; try reflexivity;
    try (rewrite Hid; reflexivity); written Hid Hne.
Qed.

(** X11: the service without stop queues takes the direction of a call
    from its two floors, not from where the elevator stands, and its
    [moveElevator] has no boundary check.  When the destination lies behind
    the elevator that accepts the call at rest, every tick moves it one more
    floor away: after [n] ticks it is [n] floors from where it stood, still
    targeting the destination, with the next tick pending and no door
    opened, and from [totalFloors] ticks on its floor is outside the
    building. *)
Theorem X11_simple_service_runs_away_from_a_destination_behind :
  forall (s : Simple.Service) (request : ElevatorRequest) (best : Elevator) (n : nat),
    valid_request (Simple.config s) request ->
    snd (Simple.findBestElevator (fromFloor request) (toFloor request) (Simple.db s))
    = inr best ->
    Simple.timers s = [] ->
    isMoving best = false ->
    id best ∉ Simple.activeMovements s ->
    ~ destination_ahead (currentFloor best) request ->
    let s' := Simple.ticks n (fst (Simple.callElevator request s)) in
    Simple.timers s' = [Simple.MoveElevator (id best)]
    /\ visited (id best) (elevator_logs (Simple.db s'))
       = visited (id best) (elevator_logs (Simple.db s))
    /\ exists e,
         select_by_id (id best) (elevators (Simple.db s')) = Some e
         /\ targetFloor e = Some (toFloor request)
         /\ currentFloor e
            = currentFloor best
              + Z.of_nat n * (if fromFloor request >? toFloor request then -1 else 1)
         /\ (totalFloors (Simple.config s) <= Z.of_nat n ->
             ~ in_building (Simple.config s) (currentFloor e)).
Proof.
  intros s request best n Hvalid Hbest Ht Hmov Hact Hbehind s'.
  destruct (simple_callElevator_accepted request s best Hvalid Hbest Ht Hmov Hact)
    as (Ht1 & Hrow1 & Hcfg1 & _ & Hlog1 & _).
  destruct Hvalid as ([Hf1 Hf2] & [Ht1' Ht2'] & Hne).
  set (row := simple_called_row best request) in *.
  assert (Hstep : floor_step row
                  = if fromFloor request >? toFloor request then -1 else 1).
  { unfold floor_step, row, simple_called_row. simpl.
    destruct (fromFloor request >? toFloor request).
    - destruct (decide (Some down = Some up)); [discriminate|reflexivity].
    - destruct (decide (Some up = Some up)); [reflexivity|congruence]. }
  assert (Hside : if fromFloor request >? toFloor request
                  then currentFloor best < toFloor request
                  else toFloor request < currentFloor best).
  { unfold destination_ahead in Hbehind.
    destruct (fromFloor request >? toFloor request); lia. }
  destruct (simple_steps (id best) (toFloor request) n _ row Ht1 Hrow1 eq_refl
              ltac:(lia))
    as (e & K1 & K2 & K3 & K4 & _ & _ & K7 & _).
  { intros m _. rewrite Hstep. change (currentFloor row) with (currentFloor best).
    destruct (fromFloor request >? toFloor request); lia. }
  split; [exact K1|]. split.
  { subst s'. rewrite K7, Hlog1, visited_app. simpl.
    unfold is_visit. simpl. rewrite andb_false_r. simpl. apply app_nil_r. }
  exists e. split; [exact K2|]. split; [exact K4|].
  rewrite Hstep in K3. change (currentFloor row) with (currentFloor best) in K3.
  split; [exact K3|].
  intros Hn. unfold in_building. rewrite K3.
  destruct (fromFloor request >? toFloor request); lia.
Qed.

Lemma X11_witness_unit_at_5_called_1_to_3 :
  let s' := Simple.ticks 10
              (fst (Simple.callElevator (mkElevatorRequest 1 3 None)
                      (Simple.mkService
                         (mkDb [mkElevator "elevator-1" 5 None idle None false] [] [])
                         test_config ∅ []))) in
  exists e, select_by_id "elevator-1" (elevators (Simple.db s')) = Some e
            /\ targetFloor e = Some 3
            /\ currentFloor e = 15.
Proof.
  destruct (X11_simple_service_runs_away_from_a_destination_behind
              (Simple.mkService
                 (mkDb [mkElevator "elevator-1" 5 None idle None false] [] [])
                 test_config ∅ [])
              (mkElevatorRequest 1 3 None)
              (mkElevator "elevator-1" 5 None idle None false) 10
              ltac:(vm_compute; intuition discriminate)
              eq_refl eq_refl eq_refl ltac:(apply not_elem_of_empty)
              ltac:(vm_compute; intros H; apply H; reflexivity))
    as (_ & _ & e & He & Htarget & Hfloor & _).
  exists e. split; [exact He|]. split; [exact Htarget|exact Hfloor].
Defined.

(** X12: when the destination lies ahead, the same service takes the
    elevator that accepts a call at rest straight to the destination: as
    many move ticks as floors lie between its floor and the destination,
    one door cycle there, and the row ends idle at the destination with
    target floor 0 and nothing pending.  The pickup floor is no stop of its
    own, while the estimate answered with the call counts the way over the
    pickup floor (times floorMoveTime plus twice doorOpenCloseTime, in the
    arithmetic of JavaScript numbers). *)
Theorem X12_simple_service_serves_the_destination_only :
  forall (s : Simple.Service) (request : ElevatorRequest) (best : Elevator),
    valid_request (Simple.config s) request ->
    snd (Simple.findBestElevator (fromFloor request) (toFloor request) (Simple.db s))
    = inr best ->
    Simple.timers s = [] ->
    isMoving best = false ->
    id best ∉ Simple.activeMovements s ->
    destination_ahead (currentFloor best) request ->
    let distance := Z.to_nat (Z.abs (toFloor request - currentFloor best)) in
    let s' := Simple.ticks (distance + 5) (fst (Simple.callElevator request s)) in
    select_by_id (id best) (elevators (Simple.db s'))
    = Some (mkElevator (id best) (toFloor request) (Some 0) idle None false)
    /\ Simple.timers s' = []
    /\ (id best ∉ Simple.activeMovements s')
    /\ visited (id best) (elevator_logs (Simple.db s'))
       = visited (id best) (elevator_logs (Simple.db s)) ++ [toFloor request]
    /\ floors_travelled (id best) (elevator_logs (Simple.db s'))
       = (floors_travelled (id best) (elevator_logs (Simple.db s)) + distance)%nat
    /\ exists result,
         snd (Simple.callElevator request s) = inr result
         /\ Simple.res_elevatorId result = id best
         /\ Simple.estimatedTime result
            = (Number_of_Z (Z.abs (currentFloor best - fromFloor request)
                            + Z.abs (fromFloor request - toFloor request))
               * floorMoveTime (Simple.config s)
               + doorOpenCloseTime (Simple.config s) * 2)%float.
Proof.
  intros s request best Hvalid Hbest Ht Hmov Hact Hahead distance s'.
  destruct (simple_callElevator_accepted request s best Hvalid Hbest Ht Hmov Hact)
    as (Ht1 & Hrow1 & Hcfg1 & Hact1 & Hlog1 & Hres).
  destruct Hvalid as ([Hf1 Hf2] & [Ht1' Ht2'] & Hne).
  set (row := simple_called_row best request) in *.
  set (s1 := fst (Simple.callElevator request s)) in *.
  assert (Hstep : floor_step row
                  = if fromFloor request >? toFloor request then -1 else 1).
  { unfold floor_step, row, simple_called_row. simpl.
    destruct (fromFloor request >? toFloor request).
    - destruct (decide (Some down = Some up)); [discriminate|reflexivity].
    - destruct (decide (Some up = Some up)); [reflexivity|congruence]. }
  unfold destination_ahead in Hahead.
  destruct (simple_steps (id best) (toFloor request) distance s1 row Ht1 Hrow1 eq_refl
              ltac:(lia))
    as (e & K1 & K2 & K3 & K4 & K5 & K6 & K7 & K8).
  { intros m Hm. rewrite Hstep. change (currentFloor row) with (currentFloor best).
    subst distance. destruct (fromFloor request >? toFloor request); lia. }
  assert (Hthere : currentFloor e = toFloor request).
  { rewrite K3, Hstep. change (currentFloor row) with (currentFloor best).
    subst distance. destruct (fromFloor request >? toFloor request); lia. }
  destruct (select_by_id_Some _ _ _ K2) as [_ Hid].
  destruct (simple_door_cycle (Simple.ticks distance s1) (id best) e K1 K2)
    as (D1 & D2 & D3 & D4 & D5).
  { rewrite K4. simpl. destruct (Z.eqb_spec (toFloor request) 0); [lia|reflexivity]. }
  { unfold at_target. rewrite K4, Hthere. apply Z.eqb_refl. }
  subst s'. rewrite simple_ticks_add.
  split.
  { rewrite D1. unfold idle_reset. rewrite Hid, Hthere. reflexivity. }
  split; [exact D2|].
  split.
  { rewrite D4, elem_of_difference, elem_of_singleton. tauto. }
  split.
  { rewrite D5, visited_app, K7, (visited_door_events _ _ Hid), Hthere.
    f_equal. rewrite Hlog1, visited_app. simpl.
    unfold is_visit. simpl. rewrite andb_false_r. simpl. apply app_nil_r. }
  split.
  { rewrite D5, floors_travelled_app, floors_travelled_door_events, K8, Hlog1,
      floors_travelled_app.
    unfold floors_travelled at 2. simpl. unfold is_move. simpl.
    rewrite andb_false_r. simpl. lia. }
  eexists. split; [exact Hres|]. split; [reflexivity|].
  reflexivity.
Qed.

Lemma X12_witness_unit_at_1_called_4_to_7 :
  let s' := Simple.ticks 11
              (fst (Simple.callElevator (mkElevatorRequest 4 7 None)
                      (Simple.mkService
                         (mkDb [mkElevator "elevator-1" 1 None idle None false] [] [])
                         test_config ∅ []))) in
  select_by_id "elevator-1" (elevators (Simple.db s'))
  = Some (mkElevator "elevator-1" 7 (Some 0) idle None false)
  /\ visited "elevator-1" (elevator_logs (Simple.db s')) = [7].
Proof.
  destruct (X12_simple_service_serves_the_destination_only
              (Simple.mkService
                 (mkDb [mkElevator "elevator-1" 1 None idle None false] [] [])
                 test_config ∅ [])
              (mkElevatorRequest 4 7 None)
              (mkElevator "elevator-1" 1 None idle None false)
              ltac:(vm_compute; intuition discriminate)
              eq_refl eq_refl eq_refl ltac:(apply not_elem_of_empty)
              ltac:(vm_compute; discriminate))
    as (Hrow & _ & _ & Hvisited & _).
  exact (conj Hrow Hvisited).
Defined.

(** ** [stopAllMovements] *)

Lemma run_fires_no_timer n s : timers s = [] -> run (fires n) s = s.
Proof.
  intros Ht. induction n as [|n IH]; [reflexivity|].
  rewrite run_fires_S, IH. unfold fire. rewrite Ht. reflexivity.
Qed.

Lemma move_tick_registers s i e :
  timers s = [MoveElevator i] ->
  select_by_id i (elevators (db s)) = Some e ->
  truthy_floor (targetFloor e) = true ->
  at_target e = false ->
  leaves_building (config s) e = false ->
  activeMovements (fire 0 s) = {[i]} ∪ activeMovements s
  /\ elevators (db (fire 0 s)) = update_rows (moved e) (elevators (db s)).
Proof.
  intros Ht He Htruthy Hat Hleave. rewrite (fire_head s _ _ Ht). simpl.
  unfold moveElevator. cbn. rewrite He, Htruthy, Hat. cbn.
  unfold leaves_building, next_floor in Hleave. rewrite Hleave. cbn.
  split; reflexivity.
Qed.

(** X13: [stopAllMovements] cancels the pending move tick of a travelling
    elevator and forgets its queue, but leaves its row as the last tick
    wrote it, with [isMoving] set.  The elevator is then stranded: a later
    call it accepts is answered and queued, but [callElevator] starts a
    chain only for a row that is not moving, so nothing is pending and no
    number of timer firings changes the service. *)
Theorem X13_stop_strands_a_travelling_unit :
  forall (s : Service) (i : string) (e : Elevator),
    timers s = [MoveElevator i] ->
    select_by_id i (elevators (db s)) = Some e ->
    truthy_floor (targetFloor e) = true ->
    at_target e = false ->
    leaves_building (config s) e = false ->
    NoDup (map id (elevators (db s))) ->
    let s0 := stopAllMovements (fire 0 s) in
    timers s0 = []
    /\ select_by_id i (elevators (db s0)) = Some (moved e)
    /\ floorQueues s0 = ∅
    /\ activeMovements s0 = ∅
    /\ forall (request : ElevatorRequest) (n : nat),
         accepted_by request s0 = Some i ->
         let legs := call_legs (next_floor e) (fromFloor request) (toFloor request) in
         let s' := run (Call request :: fires n) s0 in
         timers s' = []
         /\ select_by_id i (elevators (db s')) = Some (called_row (moved e) legs)
         /\ queue_of s' i = legs.
Proof.
  intros s i e Ht He Htruthy Hat Hleave Hnd s0.
  destruct (move_tick s i e Ht He Htruthy Hat Hleave) as (Ht' & He' & _ & _ & _).
  destruct (move_tick_registers s i e Ht He Htruthy Hat Hleave) as (Hact' & Hrows').
  assert (Ht0 : timers s0 = []).
  { unfold s0, stopAllMovements. cbn [timers]. rewrite Ht'. simpl.
    rewrite bool_decide_eq_true_2; [reflexivity|].
    rewrite Hact'. apply elem_of_union_l, elem_of_singleton. reflexivity. }
  split; [exact Ht0|]. split; [exact He'|]. split; [reflexivity|].
  split; [reflexivity|].
  intros request n Hacc legs s'.
  destruct (accepted_by_inv _ _ _ Hacc) as (best & Hin & Hid & _ & Hca).
  change (elevators (db s0)) with (elevators (db (fire 0 s))) in Hin.
  assert (Hnd' : NoDup (map id (elevators (db (fire 0 s))))).
  { rewrite Hrows', map_id_update_rows. exact Hnd. }
  assert (Hbest : best = moved e)
    by exact (unique_row i _ _ _ Hnd' He' Hin Hid).
  subst best.
  destruct Hca as [Arows _ _ _ _ Aqueues Atimers].
  assert (HQ : queue_after_call s0 (moved e) request = legs).
  { unfold queue_after_call, queue_of. change (floorQueues s0) with (∅ : gmap string (list Z)).
    rewrite lookup_empty. reflexivity. }
  rewrite HQ in *.
  assert (Hstay : s' = perform (Call request) s0).
  { unfold s'. change (Call request :: fires n) with ([Call request] ++ fires n).
    rewrite run_app. apply run_fires_no_timer.
    change (run [Call request] s0) with (perform (Call request) s0).
    rewrite Atimers. simpl. exact Ht0. }
  rewrite Hstay.
  split; [rewrite Atimers; simpl; exact Ht0|].
  split.
  - rewrite Arows. apply select_by_id_update; [exact Hid|].
    change (elevators (db s0)) with (elevators (db (fire 0 s))).
    rewrite He'. discriminate.
  - unfold queue_of. rewrite Aqueues. change (id (moved e)) with (id e) in *.
    rewrite <- Hid. rewrite lookup_insert_eq. reflexivity.
Qed.

Lemma X13_witness_stopped_between_floors_2_and_3 :
  let s0 := stopAllMovements (run [call 1 5; Fire 0; Fire 0] (one_elevator 1)) in
  timers s0 = []
  /\ select_by_id "elevator-1" (elevators (db s0))
     = Some (mkElevator "elevator-1" 3 (Some 5) moving_up (Some up) true)
  /\ timers (run (call 3 4 :: fires 7) s0) = [].
Proof.
  destruct (X13_stop_strands_a_travelling_unit
              (run [call 1 5; Fire 0] (one_elevator 1)) "elevator-1"
              (mkElevator "elevator-1" 2 (Some 5) moving_up (Some up) true)
              eq_refl eq_refl eq_refl eq_refl eq_refl
              ltac:(vm_compute; apply NoDup_singleton))
    as (Ht0 & Hrow & _ & _ & Hlater).
  split; [exact Ht0|]. split; [exact Hrow|].
  exact (proj1 (Hlater (mkElevatorRequest 3 4 None) 7%nat
                  ltac:(vm_compute; reflexivity))).
Defined.

(** X14: [stopAllMovements] does not cancel a door cycle: the waits of
    [handleArrival] are registered nowhere.  Called at any of the four waits
    of a cycle, it lets the cycle run to its end with all four door events,
    and since it has emptied the queues the elevator then stops for good:
    the row is idle, nothing is pending, and the stops that were queued
    behind the one being served are lost. *)
Theorem X14_stop_lets_a_door_cycle_finish_and_drops_the_queue :
  forall (s : Service) (i : string) (e : Elevator) (k : nat),
    timers s = [MoveElevator i] ->
    select_by_id i (elevators (db s)) = Some e ->
    truthy_floor (targetFloor e) = true ->
    at_target e = true ->
    (1 <= k <= 4)%nat ->
    let s' := run (fires (5 - k)) (stopAllMovements (run (fires k) s)) in
    select_by_id i (elevators (db s')) = Some (idle_reset e)
    /\ elevator_logs (db s') = elevator_logs (db s) ++ door_events e
    /\ timers s' = []
    /\ floorQueues s' = ∅
    /\ activeMovements s' = ∅.
Proof.
  intros [d cfg active queues tms] i e k.
  cbn [timers db config floorQueues activeMovements].
  intros -> He Htruthy Hat Hk.
  destruct (select_by_id_Some _ _ _ He) as [_ Hid].
  assert (Hne : select_by_id i (elevators d) <> None) by congruence.
  assert (Hcases : k = 1%nat \/ k = 2%nat \/ k = 3%nat \/ k = 4%nat) by lia.
  destruct Hcases as [-> | [-> | [-> | ->]]];
    unfold fires, run, stopAllMovements; cbn; unfold moveElevator; cbn;
    rewrite He, Htruthy, Hat; cbn;
    unfold moveElevator_continue; cbn; rewrite ?lookup_empty; cbn.
  all: repeat split; rewrite <- ?app_assoc; try reflexivity;
    try (rewrite empty_difference_L; reflexivity); written Hid Hne.
Qed.

Lemma X14_witness_stopped_with_doors_open_at_the_pickup_floor :
  let s' := run (fires (5 - 2))
              (stopAllMovements
                 (run (fires 2) (run [call 2 6; Fire 0] (one_elevator 1)))) in
  select_by_id "elevator-1" (elevators (db s'))
  = Some (mkElevator "elevator-1" 2 (Some 0) idle None false)
  /\ timers s' = []
  /\ floorQueues s' = ∅.
Proof.
  destruct (X14_stop_lets_a_door_cycle_finish_and_drops_the_queue
              (run [call 2 6; Fire 0] (one_elevator 1)) "elevator-1"
              (mkElevator "elevator-1" 2 (Some 2) moving_up (Some up) true) 2
              eq_refl eq_refl eq_refl eq_refl ltac:(lia))
    as (Hrow & _ & Htimers & Hqueues & _).
  exact (conj Hrow (conj Htimers Hqueues)).
Defined.

(** ** What the validation of [callElevator] rejects *)

(** X15: a call with a floor that is a number other than NaN outside
    [1, totalFloors] fails with the invalid-floor error, a call whose two
    floors are the same floor of the building fails with the same-floor
    error, and in both cases the service comes back as it was: no row,
    queue, timer or event is written and not even the fleet has been read
    (the query log has no "getAllElevators" entry), so validation precedes
    scoring.  These are the only requests validation rejects: a NaN floor
    fails neither check, and a request with two NaN floors is answered by
    the first row of a fleet that has one. *)
Theorem X15_validation_rejects_integer_floors_only :
  forall (s : Js.Service) (request : Js.ElevatorRequest),
    (integer_outside (Js.config s) (Js.fromFloor request)
     \/ integer_outside (Js.config s) (Js.toFloor request) ->
     Js.callElevator request s = (s, inl (InvalidFloor (totalFloors (Js.config s)))))
    /\ (forall z,
          Js.fromFloor request = Js.Int z ->
          Js.toFloor request = Js.Int z ->
          in_building (Js.config s) z ->
          Js.callElevator request s = (s, inl SameFloor))
    /\ (forall total,
          snd (Js.callElevator request s) = inl (InvalidFloor total) ->
          integer_outside (Js.config s) (Js.fromFloor request)
          \/ integer_outside (Js.config s) (Js.toFloor request))
    /\ (snd (Js.callElevator request s) = inl SameFloor ->
        exists z, Js.fromFloor request = Js.Int z /\ Js.toFloor request = Js.Int z
                  /\ in_building (Js.config s) z)
    /\ (forall first rest,
          Js.fromFloor request = Js.NaN ->
          Js.toFloor request = Js.NaN ->
          Js.elevators (Js.db s) = first :: rest ->
          exists result,
            snd (Js.callElevator request s) = inr result
            /\ res_elevatorId result = id first).
Proof.
  intros s request.
  assert (Hpass : passes_validation (Js.config s) request ->
                  forall err, snd (Js.callElevator request s) = inl err ->
                              err = UndefinedElevator).
  { intros Hp err Herr.
    destruct (Js_callElevator_cases request s)
      as [Hout|[(z & Hf & Ht & _)|(_ & Hsnd & _)]].
    - destruct Hp as (H1 & H2 & _). tauto.
    - destruct Hp as (_ & _ & H3). destruct H3. eauto.
    - rewrite Hsnd in Herr.
      destruct (Js.findBestElevator (Js.fromFloor request) (Js.toFloor request)
                  (Js.db s)) as [d [e|best]] eqn:Efind; simpl in Herr;
        [|discriminate].
      injection Herr as <-.
      destruct (Js.elevators (Js.db s)) as [|r rows] eqn:Erows.
      + pose proof (Js_findBestElevator_empty (Js.fromFloor request)
                      (Js.toFloor request) (Js.db s) Erows) as He.
        rewrite Efind in He. simpl in He. congruence.
      + destruct (Js_findBestElevator_nonempty (Js.fromFloor request)
                    (Js.toFloor request) (Js.db s)) as (best & Hb); [congruence|].
        rewrite Efind in Hb. discriminate. }
  split; [apply Js_callElevator_range_error|].
  split; [intros z; apply Js_callElevator_same_floor_error|].
  split; [|split].
  - intros total Herr.
    destruct (Js_callElevator_cases request s)
      as [Hout|[(z & Hf & Ht & Hin)|(Hp & _)]].
    + exact Hout.
    + rewrite (Js_callElevator_same_floor_error request s z Hf Ht Hin) in Herr.
      discriminate.
    + specialize (Hpass Hp _ Herr). discriminate.
  - intros Herr.
    destruct (Js_callElevator_cases request s)
      as [Hout|[Hsame|(Hp & _)]].
    + rewrite (Js_callElevator_range_error request s Hout) in Herr. discriminate.
    + exact Hsame.
    + specialize (Hpass Hp _ Herr). discriminate.
  - intros first rest Hf Ht Hrows.
    destruct (Js_callElevator_cases request s)
      as [Hout|[(z & Hz & _)|(_ & Hsnd & _)]].
    + rewrite Hf, Ht in Hout. destruct Hout as [[]|[]].
    + congruence.
    + rewrite Hsnd, Hf, (Js_findBestElevator_NaN _ _ _ _ Hrows).
      eexists. split; reflexivity.
Qed.

Lemma X15_witness_floor_zero_and_same_floor :
  (integer_outside (Js.config (Js_service (one_elevator 1))) (Js.Int 0)
   /\ Js.callElevator (Js.mkElevatorRequest (Js.Int 0) (Js.Int 5) None)
        (Js_service (one_elevator 1))
      = (Js_service (one_elevator 1), inl (InvalidFloor 10)))
  /\ (in_building (Js.config (Js_service (one_elevator 1))) 3
      /\ Js.callElevator (Js.mkElevatorRequest (Js.Int 3) (Js.Int 3) None)
           (Js_service (one_elevator 1))
         = (Js_service (one_elevator 1), inl SameFloor)).
Proof.
  assert (H0 : integer_outside (Js.config (Js_service (one_elevator 1))) (Js.Int 0)).
  { unfold integer_outside, in_building. simpl. lia. }
  assert (H3 : in_building (Js.config (Js_service (one_elevator 1))) 3).
  { unfold in_building. simpl. lia. }
  split; split; [exact H0| |exact H3|].
  - exact (proj1 (X15_validation_rejects_integer_floors_only
                    (Js_service (one_elevator 1))
                    (Js.mkElevatorRequest (Js.Int 0) (Js.Int 5) None)) (or_introl H0)).
  - exact (proj1 (proj2 (X15_validation_rejects_integer_floors_only
                    (Js_service (one_elevator 1))
                    (Js.mkElevatorRequest (Js.Int 3) (Js.Int 3) None)))
             3 eq_refl eq_refl H3).
Defined.

(** ** Appending to the queue, and serving it while the chain runs alone *)



(** The run of the witness: after the two calls, 40 firings open the doors
    at floors 5, 2, 8, 7 and 4 in that order and leave the unit idle at
    floor 4 with an empty queue. *)
Example two_calls_served_in_order :
  let s2 := run [call 1 5; Fire 0; Fire 0; call 2 8; call 7 4] (one_elevator 1) in
  visited "elevator-1" (elevator_logs (db (run (fires 40) s2))) = [5; 2; 8; 7; 4]
  /\ elevators (db (run (fires 40) s2))
     = [mkElevator "elevator-1" 4 (Some 0) idle None false]
  /\ timers (run (fires 40) s2) = [].
Proof. vm_compute. repeat split. Qed.
